(** * Review preprocessing pipeline (scripts/preprocessing.py)

    A shallow embedding of [ReviewPreprocessor] and of the pandas operations
    it calls, followed by the properties of the cleaning stages.

    Conventions of the embedding:
    - a Python [str] is a list of Unicode code points ([list N]);
    - a table cell is a tagged value ([cell]); NaN, None and NaT are the one
      null cell [VNull]; floating-point cells are outside the model, numbers
      are integers;
    - a [DataFrame] is its column labels and its rows in positional order,
      every row a finite map from column label to cell; the pandas row index
      is not represented, so [reset_index(drop=True)] is the identity and
      column dtypes are carried by the cells themselves; a column without
      rows has no dtype of its own and is taken for a text column in the
      two places where pandas looks at it ([clean_text] and
      [filter_non_english_reviews]): what is stated of these stages
      returning is stated of tables with a record, or under the condition
      that they return;
    - a method of [ReviewPreprocessor] is a computation in a state and
      exception monad over the object's fields; [print] appends to the
      standard output kept in the state;
    - what pandas reads from and writes to the file system, and its date
      parser, are parameters of the development. *)

From stdpp Require Import gmap strings list fin_maps.
From Stdlib Require Import ZArith QArith Lia.

Local Open Scope Z_scope.

(** ** Python values *)

Definition pystr := list N.

(** The code points of an ASCII literal. *)
Fixpoint lit (s : string) : pystr :=
  match s with
  | EmptyString => []
  | String a s' => Ascii.N_of_ascii a :: lit s'
  end.

Record date := mkDate { year : Z; month : Z; day : Z }.

Inductive cell :=
  | VNull
  | VInt (z : Z)
  | VStr (s : pystr)
  | VTimestamp (d : date) (ns : Z)
  | VDate (d : date).

Global Instance date_eq_dec : EqDecision date.
Proof. solve_decision. Defined.

Global Instance cell_eq_dec : EqDecision cell.
Proof. solve_decision. Defined.

Inductive exn :=
  | FileNotFoundError
  | KeyError (labels : list string)
  | TypeError
  | AttributeError
  | ValueError
  | OSError.

Inductive outcome (A : Type) :=
  | Return (a : A)
  | Raise (e : exn).
Arguments Return {A} a.
Arguments Raise {A} e.

(** [pd.isna] on a scalar. *)
Definition isna (c : cell) : bool :=
  match c with VNull => true | _ => false end.

(** *** [str(x)] *)

Definition digit (n : Z) : N := Z.to_N (48 + n).

Fixpoint digits_fuel (fuel : nat) (n : Z) (acc : pystr) : pystr :=
  match fuel with
  | O => acc
  | S fuel' =>
      if n <? 10 then digit n :: acc
      else digits_fuel fuel' (n / 10) (digit (n mod 10) :: acc)
  end.

Definition str_nat (n : Z) : pystr := digits_fuel (S (Z.to_nat n)) n [].

Definition str_int (z : Z) : pystr :=
  if z <? 0 then 45%N :: str_nat (- z) else str_nat z.

(** Zero-padded decimal of width [w], as [%0wd]. *)
Definition pad (w : nat) (z : Z) : pystr :=
  let s := str_int z in replicate (w - length s) 48%N ++ s.

Definition str_date (d : date) : pystr :=
  pad 4 (year d) ++ 45%N :: pad 2 (month d) ++ 45%N :: pad 2 (day d).

(** The time of day of a timestamp, [ns] nanoseconds after midnight: the
    fraction of a second is shown when there is one, as six digits of
    microseconds followed, when they are not zero, by three digits of
    nanoseconds. *)
Definition str_time (ns : Z) : pystr :=
  let secs := ns / 1000000000 in
  let fraction := ns mod 1000000000 in
  pad 2 (secs / 3600) ++ 58%N :: pad 2 (secs / 60 mod 60)
    ++ 58%N :: pad 2 (secs mod 60)
    ++ (if fraction =? 0 then []
        else 46%N :: pad 6 (fraction / 1000)
               ++ (if fraction mod 1000 =? 0 then [] else pad 3 (fraction mod 1000))).

Definition str (c : cell) : pystr :=
  match c with
  | VNull => lit "nan"
  | VInt z => str_int z
  | VStr s => s
  | VTimestamp d ns => str_date d ++ 32%N :: str_time ns
  | VDate d => str_date d
  end.

(** *** Ordering of values of one kind *)

Definition kind (c : cell) : Z :=
  match c with
  | VNull => 0 | VInt _ => 1 | VStr _ => 2 | VTimestamp _ _ => 3 | VDate _ => 4
  end.

Definition date_key (d : date) : list Z := [year d; month d; day d].

(** Python compares integers numerically, strings by code point,
    dates and timestamps field by field. Cells of different kinds are
    never compared by the code paths that succeed; the order between kinds
    below only makes [cell_compare] total. *)
Definition cell_compare (a b : cell) : comparison :=
  match a, b with
  | VInt x, VInt y => x ?= y
  | VStr s, VStr t => list_compare N.compare s t
  | VTimestamp d m, VTimestamp e n =>
      list_compare Z.compare (date_key d ++ [m]) (date_key e ++ [n])
  | VDate d, VDate e => list_compare Z.compare (date_key d) (date_key e)
  | _, _ => kind a ?= kind b
  end.

Definition cell_le (a b : cell) : Prop := cell_compare a b ≠ Gt.

(** ** DataFrames *)

Abbreviation row := (gmap string cell).

Record DataFrame := mkDF { columns : list string; rows : list row }.

(** [len(df)] *)
Definition len (d : DataFrame) : Z := Z.of_nat (length (rows d)).

(** The cell of a row under a label; a label the row lacks reads as null. *)
Definition at_ (c : string) (r : row) : cell := default VNull (r !! c).

(** [df[c]]: the column as a list of cells in row order. *)
Definition getitem (c : string) (d : DataFrame) : outcome (list cell) :=
  if decide (c ∈ columns d) then Return (at_ c <$> rows d)
  else Raise (KeyError [c]).

(** [df[c] = values]: existing labels keep their place, a new label is
    appended; values are matched to rows by position and a row without a
    value gets null. *)
Definition setitem (c : string) (vals : list cell) (d : DataFrame) : DataFrame :=
  {| columns := if decide (c ∈ columns d) then columns d else columns d ++ [c];
     rows := imap (λ i r, <[c := default VNull (vals !! i)]> r) (rows d) |}.

(** [df[mask]]: boolean indexing, keeps the rows whose mask entry is true. *)
Fixpoint select (mask : list bool) (l : list row) : list row :=
  match mask, l with
  | b :: mask', r :: l' => if b then r :: select mask' l' else select mask' l'
  | _, _ => []
  end.

Definition boolean_index (mask : list bool) (d : DataFrame) : DataFrame :=
  {| columns := columns d; rows := select mask (rows d) |}.

(** [df[labels]]: projection on a list of labels, which must all exist. *)
Definition missing_labels (labels : list string) (d : DataFrame) : list string :=
  filter (λ c, c ∉ columns d) labels.

Definition project_row (labels : list string) (r : row) : row :=
  filter (λ kv, kv.1 ∈ labels) r.

Definition getitems (labels : list string) (d : DataFrame) : outcome DataFrame :=
  match missing_labels labels d with
  | [] => Return {| columns := labels; rows := project_row labels <$> rows d |}
  | miss => Raise (KeyError miss)
  end.

(** [df.isnull().sum()]: null count per column, in column order. *)
Definition count_null (c : string) (d : DataFrame) : Z :=
  Z.of_nat (length (filter (λ r, at_ c r = VNull) (rows d))).

Definition isnull_sum (d : DataFrame) : list (string * Z) :=
  (λ c, (c, count_null c d)) <$> columns d.

(** [df.dropna(subset=labels)] *)
Definition dropna (subset : list string) (d : DataFrame) : outcome DataFrame :=
  match missing_labels subset d with
  | [] => Return {| columns := columns d;
                    rows := filter (λ r, Forall (λ c, at_ c r ≠ VNull) subset) (rows d) |}
  | miss => Raise (KeyError miss)
  end.

(** [series.fillna(v)] *)
Definition fillna (v : cell) (col : list cell) : list cell :=
  (λ c, if isna c then v else c) <$> col.

(** [df.duplicated()]: marks a row that equals an earlier row in every
    column (nulls compare equal); [df.drop_duplicates()] keeps the others. *)
Fixpoint duplicated_from (seen l : list row) : list bool :=
  match l with
  | [] => []
  | r :: l' => bool_decide (r ∈ seen) :: duplicated_from (r :: seen) l'
  end.

Definition duplicated (d : DataFrame) : list bool := duplicated_from [] (rows d).

Definition drop_duplicates (d : DataFrame) : DataFrame :=
  boolean_index (negb <$> duplicated d) d.

(** [series.str.len()]: the number of code points of a string, null for
    anything that is not a string. *)
Definition str_len (c : cell) : cell :=
  match c with VStr s => VInt (Z.of_nat (length s)) | _ => VNull end.

(** Comparison of a cell with an integer literal, element of [series < n]
    and the like: null compares false, a non-number raises. *)
Definition num_test (test : Z → bool) (c : cell) : outcome bool :=
  match c with
  | VInt z => Return (test z)
  | VNull => Return false
  | _ => Raise TypeError
  end.

Fixpoint num_tests (test : Z → bool) (col : list cell) : outcome (list bool) :=
  match col with
  | [] => Return []
  | c :: col' =>
      match num_test test c, num_tests test col' with
      | Return b, Return bs => Return (b :: bs)
      | Raise e, _ => Raise e
      | _, Raise e => Raise e
      end
  end.

(** *** [df.sort_values(by, ascending)]

    Nulls go last whatever the direction ([na_position='last']); the sort
    on several keys is stable. *)

Definition key_compare (ascending : bool) (a b : cell) : comparison :=
  match a, b with
  | VNull, VNull => Eq
  | VNull, _ => Gt
  | _, VNull => Lt
  | _, _ => if ascending then cell_compare a b else cell_compare b a
  end.

Fixpoint row_compare (keys : list (string * bool)) (r1 r2 : row) : comparison :=
  match keys with
  | [] => Eq
  | (c, asc) :: keys' =>
      match key_compare asc (at_ c r1) (at_ c r2) with
      | Eq => row_compare keys' r1 r2
      | o => o
      end
  end.

Fixpoint insert_row (cmp : row → row → comparison) (r : row) (l : list row) : list row :=
  match l with
  | [] => [r]
  | x :: l' =>
      match cmp r x with
      | Gt => x :: insert_row cmp r l'
      | _ => r :: l
      end
  end.

Definition stable_sort (cmp : row → row → comparison) (l : list row) : list row :=
  foldr (insert_row cmp) [] l.

(** A key column whose non-null cells are of different kinds cannot be
    ordered: Python raises [TypeError] when it compares them. *)
Definition same_kind (col : list cell) : bool :=
  match filter (λ c, c ≠ VNull) col with
  | [] => true
  | c :: cs => forallb (λ c', kind c' =? kind c) cs
  end.

Fixpoint check_keys (keys : list (string * bool)) (d : DataFrame) : outcome unit :=
  match keys with
  | [] => Return tt
  | (c, _) :: keys' =>
      match getitem c d with
      | Raise e => Raise e
      | Return col =>
          match check_keys keys' d with
          | Raise e => Raise e
          | Return _ => if same_kind col then Return tt else Raise TypeError
          end
      end
  end.

Definition sort_values (keys : list (string * bool)) (d : DataFrame) : outcome DataFrame :=
  match check_keys keys d with
  | Raise e => Raise e
  | Return _ =>
      Return {| columns := columns d; rows := stable_sort (row_compare keys) (rows d) |}
  end.

(** [series.dt]: only for a column of timestamps (nulls allowed). *)
Fixpoint dt (f : date → cell) (col : list cell) : outcome (list cell) :=
  match col with
  | [] => Return []
  | c :: col' =>
      match c, dt f col' with
      | VTimestamp d _, Return cs => Return (f d :: cs)
      | VNull, Return cs => Return (VNull :: cs)
      | _, Raise e => Raise e
      | _, _ => Raise AttributeError
      end
  end.

(** ** Text *)

(** The characters Python's [\s] and [str.strip] treat as whitespace. *)
Definition is_space (c : N) : bool :=
  ((9 <=? c) && (c <=? 13) || (28 <=? c) && (c <=? 32)
   || (c =? 133) || (c =? 160) || (c =? 5760)
   || (8192 <=? c) && (c <=? 8202) || (c =? 8232) || (c =? 8233)
   || (c =? 8239) || (c =? 8287) || (c =? 12288))%N.

(** [re.sub(r'\s+', ' ', text)]: every maximal run of whitespace becomes one
    space; [in_run] tells that the previous character was whitespace. *)
Fixpoint sub_spaces (in_run : bool) (s : pystr) : pystr :=
  match s with
  | [] => []
  | c :: s' =>
      if is_space c then
        if in_run then sub_spaces true s' else 32%N :: sub_spaces true s'
      else c :: sub_spaces false s'
  end.

Fixpoint lstrip (s : pystr) : pystr :=
  match s with
  | [] => []
  | c :: s' => if is_space c then lstrip s' else s
  end.

Definition rstrip (s : pystr) : pystr := reverse (lstrip (reverse s)).

(** [text.strip()] *)
Definition strip (s : pystr) : pystr := rstrip (lstrip s).

(** The local function of [clean_text]. *)
Definition clean_review_text (text : cell) : pystr :=
  if isna text || bool_decide (text = VStr []) then []
  else
    let text := str text in
    let text := sub_spaces false text in
    let text := strip text in
    text.

(** [re.compile(r'[\u1200-\u137F]').search(s)] finds a match. *)
Definition amharic_char (c : N) : bool := ((4608 <=? c) && (c <=? 4991))%N.

Definition contains_amharic (text : cell) : bool :=
  existsb amharic_char (str text).

(** ** The preprocessor object and its methods *)

Inductive stat :=
  | Count (n : Z)
  | Counts (per_column : list (string * Z)).

Inductive arg :=
  | AInt (n : Z)
  | ACell (c : cell)
  | ARate (q : Q)
  | APath (p : string)
  | AExn (e : exn)
  | ASeries (counts : list (string * Z)).

(** A printed line: the text of the f-string and the values of its fields. *)
Record line := Line { text : string; args : list arg }.

Record ReviewPreprocessor := mkRP {
  input_path : string;
  output_path : string;
  df : option DataFrame;
  stats : gmap string stat;
  stdout : list line
}.

Definition M (A : Type) : Type := ReviewPreprocessor → outcome A * ReviewPreprocessor.

Definition ret {A} (a : A) : M A := λ self, (Return a, self).

Definition raise {A} (e : exn) : M A := λ self, (Raise e, self).

Definition bind {A B} (m : M A) (k : A → M B) : M B :=
  λ self,
    match m self with
    | (Return a, self') => k a self'
    | (Raise e, self') => (Raise e, self')
    end.

(** [try: body except Exception as e: handler] keeps the state the body
    reached when it raised. *)
Definition try_except {A} (body : M A) (handler : exn → M A) : M A :=
  λ self,
    match body self with
    | (Raise e, self') => handler e self'
    | done => done
    end.

Notation "'let*' x := m 'in' k" := (bind m (λ x, k))
  (at level 10, x pattern, m at level 100, k at level 200).
Notation "m >> k" := (bind m (λ _, k))
  (at level 90, right associativity).

Definition lift {A} (o : outcome A) : M A := λ self, (o, self).

(** Reading [self.df]; [e] is what Python raises when it is still [None]. *)
Definition self_df (e : exn) : M DataFrame :=
  λ self, match df self with Some d => (Return d, self) | None => (Raise e, self) end.

(** [self.df], which may still be [None]. *)
Definition self_df_or_none : M (option DataFrame) := λ self, (Return (df self), self).

Definition self_input_path : M string := λ self, (Return (input_path self), self).

Definition self_output_path : M string := λ self, (Return (output_path self), self).

Definition set_df (d : DataFrame) : M unit :=
  λ self, (Return tt, mkRP (input_path self) (output_path self) (Some d)
                           (stats self) (stdout self)).

Definition set_stat (k : string) (v : stat) : M unit :=
  λ self, (Return tt, mkRP (input_path self) (output_path self) (df self)
                           (<[k := v]> (stats self)) (stdout self)).

(** [self.stats.get(k, 0)] *)
Definition get_stat (k : string) : M Z :=
  λ self, (Return (match stats self !! k with Some (Count n) => n | _ => 0 end), self).

Definition print (t : string) (a : list arg) : M unit :=
  λ self, (Return tt, mkRP (input_path self) (output_path self) (df self)
                           (stats self) (stdout self ++ [Line t a])).

Definition when (b : bool) (m : M unit) : M unit := if b then m else ret tt.

Fixpoint for_each {A} (l : list A) (body : A → M unit) : M unit :=
  match l with
  | [] => ret tt
  | x :: l' => body x >> for_each l' body
  end.

Definition critical_cols : list string := ["review_text"; "rating"; "bank_name"].

Definition output_columns : list string :=
  ["review_id"; "review_text"; "rating"; "review_date"; "review_year";
   "review_month"; "bank_code"; "bank_name"; "user_name"; "thumbs_up";
   "text_length"; "source"].

Definition sort_keys : list (string * bool) :=
  [("bank_code", true); ("review_date", false)].

Definition percent (n total : Z) : Q := (inject_Z n / inject_Z total * 100)%Q.

(** [x or default] on an optional path. *)
Definition or_else (x : option string) (default : outcome string) : outcome string :=
  match x with
  | Some p => if decide (p = "") then default else Return p
  | None => default
  end.

Section Preprocessor.

(** [config.DATA_PATHS] and the pandas functions that reach outside the
    table: reading and writing CSV files, parsing dates, the minimum and
    maximum of a column, and the descriptive statistics of the report. *)
Variable DATA_PATHS : gmap string string.
Variable read_csv : string → outcome DataFrame.
Variable to_csv : string → DataFrame → outcome unit.
Variable to_datetime : list cell → outcome (list cell).
Variable series_min series_max : list cell → outcome cell.
Variable describe : DataFrame → outcome (list line).

Definition data_path (k : string) : outcome string :=
  match DATA_PATHS !! k with Some p => Return p | None => Raise (KeyError [k]) end.

(** [ReviewPreprocessor.__init__] *)
Definition init (input output : option string) : outcome ReviewPreprocessor :=
  match or_else input (data_path "raw_reviews") with
  | Raise e => Raise e
  | Return i =>
      match or_else output (data_path "processed_reviews") with
      | Raise e => Raise e
      | Return o => Return (mkRP i o None ∅ [])
      end
  end.

Definition load_data : M bool :=
  print "Loading raw data..." [] >>
  try_except
    (let* path := self_input_path in
     let* d := lift (read_csv path) in
     set_df d >>
     print "Loaded {} reviews" [AInt (len d)] >>
     set_stat "original_count" (Count (len d)) >>
     ret true)
    (λ e,
       match e with
       | FileNotFoundError =>
           let* path := self_input_path in
           print "ERROR: File not found: {}" [APath path] >>
           ret false
       | _ => print "ERROR: Failed to load data: {}" [AExn e] >> ret false
       end).

Definition check_missing_data : M unit :=
  print "[1/7] Checking for missing data..." [] >>
  let* d := self_df AttributeError in
  let missing := isnull_sum d in
  print "Missing values:" [] >>
  for_each missing
    (λ '(col, n),
       when (n >? 0)
         (print "  {}: {} ({:.2f}%)" [APath col; AInt n; ARate (percent n (len d))])) >>
  set_stat "missing_before" (Counts missing) >>
  let* d := self_df AttributeError in
  let* crit := lift (getitems critical_cols d) in
  let missing_critical := isnull_sum crit in
  when (foldr Z.add 0 (snd <$> missing_critical) >? 0)
    (print "WARNING: Missing values in critical columns:" [] >>
     print "{}" [ASeries (filter (λ cn, cn.2 > 0) missing_critical)]).

(** [if c in self.df.columns: self.df[c] = self.df[c].fillna(v)] *)
Definition fill_default (c : string) (v : cell) : M unit :=
  let* d := self_df AttributeError in
  if decide (c ∈ columns d) then
    let* col := lift (getitem c d) in
    set_df (setitem c (fillna v col) d)
  else ret tt.

Definition handle_missing_values : M unit :=
  print "[2/7] Handling missing values..." [] >>
  let* d := self_df TypeError in
  let before_count := len d in
  let* d := lift (dropna critical_cols d) in
  set_df d >>
  let removed := before_count - len d in
  when (removed >? 0)
    (print "Removed {} rows with missing critical values" [AInt removed]) >>
  fill_default "user_name" (VStr (lit "Anonymous")) >>
  fill_default "thumbs_up" (VInt 0) >>
  fill_default "reply_content" (VStr []) >>
  set_stat "rows_removed_missing" (Count removed) >>
  let* d := self_df TypeError in
  set_stat "count_after_missing" (Count (len d)).

(** [self.df[c]] *)
Definition column (c : string) : M (list cell) :=
  let* d := self_df TypeError in lift (getitem c d).

(** [self.df[c] = values] *)
Definition assign (c : string) (vals : list cell) : M unit :=
  let* d := self_df TypeError in set_df (setitem c vals d).

Definition normalize_dates : M unit :=
  print "[3/7] Normalizing dates..." [] >>
  try_except
    (let* col := column "review_date" in
     let* parsed := lift (to_datetime col) in
     assign "review_date" parsed >>
     let* col := column "review_date" in
     let* dates := lift (dt VDate col) in
     assign "review_date" dates >>
     let* col := column "review_date" in
     let* parsed := lift (to_datetime col) in
     let* years := lift (dt (λ d, VInt (year d)) parsed) in
     assign "review_year" years >>
     let* col := column "review_date" in
     let* parsed := lift (to_datetime col) in
     let* months := lift (dt (λ d, VInt (month d)) parsed) in
     assign "review_month" months >>
     let* col := column "review_date" in
     let* lo := lift (series_min col) in
     let* col := column "review_date" in
     let* hi := lift (series_max col) in
     print "Date range: {} to {}" [ACell lo; ACell hi])
    (λ e, print "WARNING: Error normalizing dates: {}" [AExn e]).

(** [self.df = self.df[mask]] *)
Definition keep (mask : list bool) : M unit :=
  let* d := self_df TypeError in set_df (boolean_index mask d).

(** [self.df = self.df[~col.apply(f)]]. On a column with rows [apply] calls
    [f] on every cell and gives a boolean Series, by which the rows are
    filtered. On a column without rows [apply] calls nothing and gives an
    empty Series that is not boolean: pandas then takes the key for a list
    of column labels, an empty one, and selects no column. (This is the
    case of a text column, the dtype [clean_text] leaves; a column without
    rows of another dtype, which the cells of the model cannot tell from
    it, is outside the model.) *)
Definition keep_applied (f : cell → bool) (col : list cell) : M unit :=
  match col with
  | [] =>
      let* d := self_df TypeError in
      let* d := lift (getitems [] d) in
      set_df d
  | _ :: _ => keep (negb <$> (f <$> col))
  end.

(** [len(self.df)] *)
Definition count : M Z :=
  let* d := self_df TypeError in ret (len d).

(** The [.str] accessor of lines 116 and 122 accepts the column that line
    113 assigned: with rows it holds strings only. On a table without rows
    the accessor looks at the dtype, which the model does not record, and
    raises [AttributeError] unless it is a text dtype; the model follows the
    text case, and what is stated of [clean_text] returning is stated of
    tables with a record. *)
Definition clean_text : M unit :=
  print "[4/7] Cleaning text..." [] >>
  let* col := column "review_text" in
  assign "review_text" ((λ c, VStr (clean_review_text c)) <$> col) >>
  let* before_count := count in
  let* col := column "review_text" in
  let* mask := lift (num_tests (λ n, n >? 0) (str_len <$> col)) in
  keep mask >>
  let* after := count in
  let removed := before_count - after in
  when (removed >? 0) (print "Removed {} reviews with empty text" [AInt removed]) >>
  let* col := column "review_text" in
  assign "text_length" (str_len <$> col) >>
  set_stat "empty_reviews_removed" (Count removed) >>
  let* n := count in
  set_stat "count_after_cleaning" (Count n).

Definition remove_duplicates : M unit :=
  print "[5/7] Removing duplicate reviews..." [] >>
  let* before_count := count in
  let* d := self_df AttributeError in
  set_df (drop_duplicates d) >>
  let* after := count in
  let removed := before_count - after in
  (if removed >? 0 then print "Removed {} duplicate reviews" [AInt removed]
   else print "No duplicate reviews found" []) >>
  set_stat "duplicates_removed" (Count removed).

Definition filter_non_english_reviews : M unit :=
  print "[6/7] Filtering out Amharic (non-English) reviews..." [] >>
  let* before_count := count in
  let* col := column "review_text" in
  keep_applied contains_amharic col >>
  let* after := count in
  let removed := before_count - after in
  (if removed >? 0 then
     print "Removed {} reviews containing Amharic characters" [AInt removed]
   else print "No Amharic reviews found" []) >>
  set_stat "amharic_reviews_removed" (Count removed).

Definition validate_ratings : M unit :=
  print "[7/7] Validating ratings..." [] >>
  let* col := column "rating" in
  let* below := lift (num_tests (λ n, n <? 1) col) in
  let* col := column "rating" in
  let* above := lift (num_tests (λ n, n >? 5) col) in
  let* d := self_df TypeError in
  let invalid := boolean_index (zip_with orb below above) d in
  (if len invalid >? 0 then
     print "WARNING: Found {} reviews with invalid ratings" [AInt (len invalid)] >>
     let* col := column "rating" in
     let* ge1 := lift (num_tests (λ n, n >=? 1) col) in
     let* col := column "rating" in
     let* le5 := lift (num_tests (λ n, n <=? 5) col) in
     keep (zip_with andb ge1 le5)
   else print "All ratings are valid (1-5)" []) >>
  set_stat "invalid_ratings_removed" (Count (len invalid)).

Definition prepare_final_output : M unit :=
  print "Preparing final output..." [] >>
  let* d := self_df AttributeError in
  let output_columns := filter (λ col, col ∈ columns d) output_columns in
  let* d := lift (getitems output_columns d) in
  set_df d >>
  let* d := self_df AttributeError in
  let* d := lift (sort_values sort_keys d) in
  set_df d >>
  let* n := count in
  print "Final dataset: {} reviews" [AInt n].

Definition save_data : M bool :=
  print "Saving processed data..." [] >>
  try_except
    (let* path := self_output_path in
     let* d := self_df AttributeError in
     lift (to_csv path d) >>
     print "Data saved to: {}" [APath path] >>
     let* n := count in
     set_stat "final_count" (Count n) >>
     ret true)
    (λ e, print "ERROR: Failed to save data: {}" [AExn e] >> ret false).

Definition retention_rate (final_count original_count : Z) : Q :=
  percent final_count original_count.

Definition generate_report : M unit :=
  print "PREPROCESSING REPORT" [] >>
  let* n := get_stat "original_count" in
  print "Original records: {}" [AInt n] >>
  let* n := get_stat "rows_removed_missing" in
  print "Records with missing critical data: {}" [AInt n] >>
  let* n := get_stat "empty_reviews_removed" in
  print "Empty reviews removed: {}" [AInt n] >>
  let* n := get_stat "duplicates_removed" in
  print "Duplicate reviews removed: {}" [AInt n] >>
  let* n := get_stat "amharic_reviews_removed" in
  print "Amharic reviews removed: {}" [AInt n] >>
  let* n := get_stat "invalid_ratings_removed" in
  print "Invalid ratings removed: {}" [AInt n] >>
  let* n := get_stat "final_count" in
  print "Final records: {}" [AInt n] >>
  let* original := get_stat "original_count" in
  when (original >? 0)
    (let* final := get_stat "final_count" in
     let rate := retention_rate final original in
     let error_rate := (100 - rate)%Q in
     print "Data retention rate: {:.2f}%" [ARate rate] >>
     print "Data error rate: {:.2f}%" [ARate error_rate] >>
     if Qlt_le_dec error_rate 5 then print "Data quality: EXCELLENT (<5% errors)" []
     else if Qlt_le_dec error_rate 10 then print "Data quality: GOOD (<10% errors)" []
     else print "Data quality: NEEDS ATTENTION (>10% errors)" []) >>
  let* current := self_df_or_none in
  match current with
  | Some d => let* lines := lift (describe d) in
              for_each lines (λ l, print (text l) (args l))
  | None => ret tt
  end.

Definition process : M bool :=
  print "STARTING DATA PREPROCESSING" [] >>
  let* loaded := load_data in
  if negb loaded then ret false
  else
    check_missing_data >>
    handle_missing_values >>
    normalize_dates >>
    clean_text >>
    remove_duplicates >>
    filter_non_english_reviews >>
    validate_ratings >>
    prepare_final_output >>
    let* saved := save_data in
    if saved then generate_report >> ret true
    else ret false.

(** The stages that run between loading and saving, in order. *)
Definition stages : list (M unit) :=
  [check_missing_data; handle_missing_values; normalize_dates; clean_text;
   remove_duplicates; filter_non_english_reviews; validate_ratings;
   prepare_final_output].

End Preprocessor.

(** ** A concrete environment

    Stand-ins for the file system and for the pandas date functions, used
    to run the pipeline on sample tables: dates are read in the
    [YYYY-MM-DD] form only. *)

Module Sample.

Definition digit_val (c : N) : option Z :=
  if ((48 <=? c) && (c <=? 57))%N then Some (Z.of_N c - 48) else None.

Fixpoint number (acc : Z) (s : pystr) : option Z :=
  match s with
  | [] => Some acc
  | c :: s' => match digit_val c with
               | Some v => number (10 * acc + v) s'
               | None => None
               end
  end.

Definition leap_year (y : Z) : bool :=
  (y mod 4 =? 0) && negb (y mod 100 =? 0) || (y mod 400 =? 0).

Definition days_in_month (y m : Z) : Z :=
  if m =? 2 then (if leap_year y then 29 else 28)
  else if (m =? 4) || (m =? 6) || (m =? 9) || (m =? 11) then 30
  else 31.

Definition parse_iso (s : pystr) : option date :=
  match s with
  | [y1; y2; y3; y4; 45%N; m1; m2; 45%N; d1; d2] =>
      match number 0 [y1; y2; y3; y4], number 0 [m1; m2], number 0 [d1; d2] with
      | Some y, Some m, Some d =>
          if (1 <=? y) && (1 <=? m) && (m <=? 12) && (1 <=? d) && (d <=? days_in_month y m)
          then Some (mkDate y m d) else None
      | _, _, _ => None
      end
  | _ => None
  end.

Fixpoint to_datetime (col : list cell) : outcome (list cell) :=
  match col with
  | [] => Return []
  | c :: col' =>
      let parsed :=
        match c with
        | VNull => Some VNull
        | VStr s => (λ d, VTimestamp d 0) <$> parse_iso s
        | VDate d => Some (VTimestamp d 0)
        | VTimestamp d ns => Some c
        | VInt _ => None
        end in
      match parsed, to_datetime col' with
      | Some t, Return ts => Return (t :: ts)
      | None, _ => Raise ValueError
      | _, Raise e => Raise e
      end
  end.

Definition extremum (want : comparison) (col : list cell) : outcome cell :=
  Return (foldr (λ c best,
                   match c, best with
                   | VNull, _ => best
                   | _, VNull => c
                   | _, _ => if decide (cell_compare c best = want) then c else best
                   end) VNull col).

Definition series_min := extremum Lt.
Definition series_max := extremum Gt.

Definition describe (d : DataFrame) : outcome (list line) := Return [].

(** Writing needs a directory to write in: for a bare file name, one
    without a slash (code 47), [os.makedirs] is given the empty name and
    raises. *)
Fixpoint has_directory (path : string) : bool :=
  match path with
  | EmptyString => false
  | String a path' => if (Ascii.N_of_ascii a =? 47)%N then true else has_directory path'
  end.

Definition to_csv (path : string) (d : DataFrame) : outcome unit :=
  if has_directory path then Return tt else Raise FileNotFoundError.

(** A file system that holds one table, at [path]. *)
Definition read_csv (path : string) (d : DataFrame) (p : string) : outcome DataFrame :=
  if decide (p = path) then Return d else Raise FileNotFoundError.

Definition DATA_PATHS : gmap string string :=
  {[ "raw_reviews" := "data/raw/reviews.csv";
     "processed_reviews" := "data/processed/reviews.csv" ]}.

Definition record (fields : list (string * cell)) : row := list_to_map fields.

Definition table (cols : list string) (cells : list (list cell)) : DataFrame :=
  {| columns := cols; rows := (λ r, record (zip cols r)) <$> cells |}.

Definition review (id : Z) (txt : string) (rating : cell) (day : string)
    (code : string) : list cell :=
  [VInt id; VStr (lit txt); rating; VStr (lit day); VStr (lit code);
   VStr (lit "Bank"); VNull; VNull; VStr (lit "Google Play")].

Definition cols : list string :=
  ["review_id"; "review_text"; "rating"; "review_date"; "bank_code";
   "bank_name"; "user_name"; "thumbs_up"; "source"].

(** Ten reviews: two without rating, one duplicate, one in Ethiopic
    script, one rated 7. *)
Definition raw : DataFrame :=
  table cols
    [ review 1 "Good  app  " (VInt 5) "2024-01-05" "CBE";
      review 2 "Slow" VNull "2024-01-06" "CBE";
      review 3 "Crashes often" (VInt 1) "2024-02-01" "BOA";
      review 3 "Crashes often" (VInt 1) "2024-02-01" "BOA";
      review 4 "Fine" VNull "2024-02-02" "BOA";
      [VInt 5; VStr [4656%N; 4643%N]; VInt 4; VStr (lit "2024-03-01");
       VStr (lit "CBE"); VStr (lit "Bank"); VNull; VNull; VStr (lit "Google Play")];
      review 6 "Too many updates" (VInt 7) "2024-03-02" "DSH";
      review 7 "Nice" (VInt 4) "2024-03-03" "CBE";
      review 8 "Works" (VInt 3) "2024-01-09" "BOA";
      review 9 "Great" (VInt 5) "2024-03-03" "BOA" ].

(** A source without the [bank_code] column. *)
Definition no_bank_code : DataFrame :=
  table ["review_text"; "rating"; "bank_name"; "review_date"]
    [ [VStr (lit "Good app"); VInt 5; VStr (lit "CBE"); VStr (lit "2024-01-05")];
      [VStr (lit "Slow"); VInt 2; VStr (lit "BOA"); VStr (lit "2024-01-06")] ].

(** A source with a date the parser rejects. *)
Definition bad_dates : DataFrame :=
  table ["review_text"; "rating"; "bank_name"; "review_date"; "bank_code"]
    [ [VStr (lit "Good app"); VInt 5; VStr (lit "CBE"); VStr (lit "yesterday");
       VStr (lit "CBE")];
      [VStr (lit "Slow"); VInt 2; VStr (lit "BOA"); VStr (lit "2024-01-06");
       VStr (lit "BOA")] ].

Definition fresh (d : DataFrame) : ReviewPreprocessor :=
  mkRP "in.csv" "out/reviews.csv" (Some d) ∅ [].

Definition run_process (d : DataFrame) : outcome bool * ReviewPreprocessor :=
  process (read_csv "in.csv" d) to_csv to_datetime series_min series_max describe
    (mkRP "in.csv" "out/reviews.csv" None ∅ []).

End Sample.

(** * Specification vocabulary *)

(** A string is collapsed when its only whitespace characters are single
    spaces, each followed by a non-space character or by the end. *)
Fixpoint collapsed (s : pystr) : Prop :=
  match s with
  | [] => True
  | c :: s' =>
      (is_space c = true →
       c = 32%N ∧ match s' with [] => True | c' :: _ => is_space c' = false end)
      ∧ collapsed s'
  end.

Definition starts_clean (s : pystr) : Prop :=
  match s with [] => True | c :: _ => is_space c = false end.

Definition numeric (test : Z → bool) (c : cell) : bool :=
  match c with VInt z => test z | _ => false end.

Definition nonempty_text (r : row) : Prop :=
  numeric (λ n, n >? 0) (str_len (at_ "review_text" r)) = true.

Definition cleaned (d : DataFrame) : DataFrame :=
  {| columns := if decide ("text_length" ∈ columns d) then columns d
                else columns d ++ ["text_length"];
     rows := (λ r, <["text_length" := str_len (at_ "review_text" r)]> r) <$>
             filter (λ r, numeric (λ n, n >? 0) (str_len (at_ "review_text" r)) = true)
               ((λ r, <["review_text" := VStr (clean_review_text (at_ "review_text" r))]> r)
                  <$> rows d) |}.

(** A computation is quiet when it only prints. *)
Definition quiet (m : M unit) : Prop :=
  ∀ s, ∃ out, m s = (Return tt, mkRP (input_path s) (output_path s) (df s) (stats s) out).

Definition dropped (d : DataFrame) : DataFrame :=
  {| columns := columns d;
     rows := filter (λ r, Forall (λ c, at_ c r ≠ VNull) critical_cols) (rows d) |}.

Definition filled (c : string) (v : cell) (d : DataFrame) : DataFrame :=
  if decide (c ∈ columns d) then setitem c (fillna v (at_ c <$> rows d)) d else d.

Definition resolved (d : DataFrame) : DataFrame :=
  filled "reply_content" (VStr [])
    (filled "thumbs_up" (VInt 0)
       (filled "user_name" (VStr (lit "Anonymous")) (dropped d))).

Definition english (r : row) : Prop := contains_amharic (at_ "review_text" r) = false.

Definition english_only (d : DataFrame) : DataFrame :=
  {| columns := columns d; rows := filter english (rows d) |}.

(** The table the Script Filter leaves: the English records, and no column
    at all when there was no record to look at. *)
Definition script_filtered (d : DataFrame) : DataFrame :=
  match rows d with
  | [] => {| columns := []; rows := [] |}
  | _ :: _ => english_only d
  end.

Definition numbers (col : list cell) : Prop := Forall (λ c, kind c ≤ 1) col.

Definition invalid_rating (r : row) : Prop :=
  (numeric (λ n, n <? 1) (at_ "rating" r) || numeric (λ n, n >? 5) (at_ "rating" r)) = true.

Definition valid_rating (r : row) : Prop :=
  (numeric (λ n, n >=? 1) (at_ "rating" r) && numeric (λ n, n <=? 5) (at_ "rating" r)) = true.

Definition validated (d : DataFrame) : DataFrame :=
  if decide (filter invalid_rating (rows d) = []) then d
  else {| columns := columns d; rows := filter valid_rating (rows d) |}.

Definition final_columns (d : DataFrame) : list string :=
  filter (λ col, col ∈ columns d) output_columns.

Definition projected (d : DataFrame) : DataFrame :=
  {| columns := final_columns d; rows := project_row (final_columns d) <$> rows d |}.

Definition date_columns : list string := ["review_date"; "review_year"; "review_month"].

Definition same_elsewhere (r r' : row) : Prop :=
  ∀ c, c ∉ date_columns → r' !! c = r !! c.

Definition date_update (d d' : DataFrame) : Prop :=
  columns d ⊆ columns d' ∧ Forall2 same_elsewhere (rows d) (rows d').

(** An invariant of a table: the columns [need] exist and every row
    satisfies [P], which may only look at those columns. *)
Definition table_inv (need : list string) (P : row → Prop) (d : DataFrame) : Prop :=
  need ⊆ columns d ∧ Forall P (rows d).

Definition local_to (need : list string) (P : row → Prop) : Prop :=
  ∀ r r', (∀ c, c ∈ need → r' !! c = r !! c) → P r → P r'.

(** The invariant holds of the table the preprocessor currently has. *)
Definition holds (I : DataFrame → Prop) (s : ReviewPreprocessor) : Prop :=
  ∃ d, df s = Some d ∧ I d.

(** An invariant of the surviving records: it holds, the columns included,
    as long as a record is left. *)
Definition of_survivors (I : DataFrame → Prop) (d : DataFrame) : Prop :=
  rows d = [] ∨ I d.

(** The stages after the Text Cleaner other than the Script Filter. *)
Definition stages_beside_filter : list (M unit) :=
  [remove_duplicates; validate_ratings; prepare_final_output].

(** The number of records the preprocessor currently has. *)
Definition nrows (s : ReviewPreprocessor) : nat :=
  match df s with Some d => length (rows d) | None => 0 end.

(** [text_length] is the number of characters of [review_text]. *)
Definition text_length_ok (r : row) : Prop :=
  ∃ t, r !! "review_text" = Some (VStr t) ∧
       r !! "text_length" = Some (VInt (Z.of_nat (length t))).

Definition text_length_consistent : DataFrame → Prop :=
  table_inv ["review_text"; "text_length"] text_length_ok.

(** The critical fields are present and not null. *)
Definition critical_ok (r : row) : Prop :=
  ∀ c, c ∈ critical_cols → ∃ v, r !! c = Some v ∧ v ≠ VNull.

Definition critical_non_null : DataFrame → Prop :=
  table_inv critical_cols critical_ok.

(** A character of the Ethiopic block, U+1200 to U+137F. *)
Definition ethiopic (c : N) : Prop := (4608 ≤ c ≤ 4991)%N.

Definition no_ethiopic_text (r : row) : Prop :=
  ∀ c, c ∈ str (at_ "review_text" r) → ¬ ethiopic c.

Definition no_ethiopic : DataFrame → Prop :=
  table_inv ["review_text"] no_ethiopic_text.

Definition rating_ok (r : row) : Prop :=
  ∃ z, r !! "rating" = Some (VInt z) ∧ 1 ≤ z ≤ 5.

Definition ratings_in_range : DataFrame → Prop :=
  table_inv ["rating"] rating_ok.

(** The stages that run after the text cleaner. *)
Definition stages_after_cleaning : list (M unit) :=
  [remove_duplicates; filter_non_english_reviews; validate_ratings;
   prepare_final_output].

(** The orders of the final sort on the cells of a key column: ascending
    for [bank_code], descending for [review_date], nulls last in both. *)
Definition ascending (a b : cell) : Prop := key_compare true a b ≠ Gt.

Definition descending (a b : cell) : Prop := key_compare false a b ≠ Gt.

(** Every row precedes, in the order of the keys, the rows after it. *)
Definition in_order (keys : list (string * bool)) (l : list row) : Prop :=
  ∀ i j a b, (i < j)%nat → l !! i = Some a → l !! j = Some b →
             row_compare keys a b ≠ Gt.

(** Two rows with the same sort keys. *)
Definition same_keys (k r : row) : Prop :=
  at_ "bank_code" r = at_ "bank_code" k ∧ at_ "review_date" r = at_ "review_date" k.

(** The lines [normalize_dates] prints when the parser raises [e]. *)
Definition date_warning (e : exn) : list line :=
  [Line "[3/7] Normalizing dates..." [];
   Line "WARNING: Error normalizing dates: {}" [AExn e]].

(** ** The entry point *)

Section Main.

Variable DATA_PATHS : gmap string string.
Variable read_csv : string → outcome DataFrame.
Variable to_csv : string → DataFrame → outcome unit.
Variable to_datetime : list cell → outcome (list cell).
Variable series_min series_max : list cell → outcome cell.
Variable describe : DataFrame → outcome (list line).

(** [main]: what it returns and what has been printed when it does. As for
    the methods, a line is the text of the message without its decoration. *)
Definition main : outcome (option DataFrame) * list line :=
  match init DATA_PATHS None None with
  | Raise e => (Raise e, [])
  | Return preprocessor =>
      match process read_csv to_csv to_datetime series_min series_max describe
              preprocessor with
      | (Return success, preprocessor) =>
          if success then
            (Return (df preprocessor),
             stdout preprocessor ++ [Line "Preprocessing completed successfully!" []])
          else
            (Return None, stdout preprocessor ++ [Line "Preprocessing failed!" []])
      | (Raise e, preprocessor) => (Raise e, stdout preprocessor)
      end
  end.

End Main.

(** ** Vocabulary of the further properties *)

(** The non-whitespace characters of a string, in order. *)
Definition letters (s : pystr) : pystr := filter (λ c, is_space c = false) s.

(** A string of whitespace only. *)
Definition blank (s : pystr) : Prop := Forall (λ c, is_space c = true) s.

(** The normal form of a non-empty cleaned text. *)
Definition normalised (t : pystr) : Prop :=
  t ≠ [] ∧ collapsed t ∧ starts_clean t ∧ starts_clean (reverse t).

(** The line [load_data] prints when reading [path] raises [e]. *)
Definition load_error (path : string) (e : exn) : line :=
  match e with
  | FileNotFoundError => Line "ERROR: File not found: {}" [APath path]
  | _ => Line "ERROR: Failed to load data: {}" [AExn e]
  end.

(** The default [handle_missing_values] gives an optional column. *)
Definition default_of (c : string) : option cell :=
  if decide (c = "user_name") then Some (VStr (lit "Anonymous"))
  else if decide (c = "thumbs_up") then Some (VInt 0)
  else if decide (c = "reply_content") then Some (VStr [])
  else None.

(** The cell a record has under [c] once the defaults are filled in a table
    with the columns [cols]. *)
Definition with_default (cols : list string) (r : row) (c : string) : option cell :=
  match default_of c with
  | Some v =>
      if decide (c ∈ cols) then Some (if isna (at_ c r) then v else at_ c r)
      else r !! c
  | None => r !! c
  end.

(** A record after [fillna(v)] on the column [c] of a table with the
    columns [cols]. *)
Definition fill_row (c : string) (v : cell) (cols : list string) (r : row) : row :=
  if decide (c ∈ cols) then <[c := if isna (at_ c r) then v else at_ c r]> r else r.

(** What [series.dt] reads off a timestamp, null staying null. *)
Definition on_timestamp (f : date → cell) (c : cell) : cell :=
  match c with VTimestamp d _ => f d | _ => VNull end.

Definition timestamp_or_null (c : cell) : Prop :=
  match c with VNull | VTimestamp _ _ => True | _ => False end.

Definition date_or_null (c : cell) : Prop :=
  match c with VNull | VDate _ => True | _ => False end.

(** The timestamp of a date, at midnight. *)
Definition midnight (c : cell) : cell :=
  match c with VDate d => VTimestamp d 0 | _ => c end.

(** The date cells of a normalised record, given the timestamp parsed for it. *)
Definition dated (t : cell) (r : row) : Prop :=
  r !! "review_date" = Some (on_timestamp VDate t) ∧
  r !! "review_year" = Some (on_timestamp (λ d, VInt (year d)) t) ∧
  r !! "review_month" = Some (on_timestamp (λ d, VInt (month d)) t).

Definition null_rating (r : row) : Prop := at_ "rating" r = VNull.

(** A computation is steady when it keeps the two paths and only adds to
    what has been printed, whatever its outcome. *)
Definition steady {A} (m : M A) : Prop :=
  ∀ s o s', m s = (o, s') →
    input_path s' = input_path s ∧ output_path s' = output_path s ∧
    stdout s `prefix_of` stdout s'.

Definition ascii_only (s : pystr) : Prop := Forall (λ c, (c < 128)%N) s.

(** ** Further sample tables *)

(** A source without the [rating] column. *)
Definition no_rating : DataFrame :=
  Sample.table ["review_text"; "bank_name"]
    [ [VStr (lit "Good app"); VStr (lit "CBE")] ].

(** A source whose ratings are words. *)
Definition text_rating : DataFrame :=
  Sample.table ["review_text"; "rating"; "bank_name"]
    [ [VStr (lit "Good app"); VStr (lit "five"); VStr (lit "CBE")] ].

(** A source without the [review_date] column. *)
Definition no_review_date : DataFrame :=
  Sample.table ["review_text"; "rating"; "bank_name"; "bank_code"]
    [ [VStr (lit "Good app"); VInt 5; VStr (lit "CBE"); VStr (lit "CBE")];
      [VStr (lit "Slow"); VInt 2; VStr (lit "BOA"); VStr (lit "BOA")] ].

(** The timestamps parsed for the ten sample reviews. *)
Definition sample_timestamps : list cell :=
  match Sample.to_datetime (at_ "review_date" <$> rows Sample.raw) with
  | Return ts => ts
  | Raise _ => []
  end.

Abbreviation sample_main :=
  (main Sample.DATA_PATHS (Sample.read_csv "data/raw/reviews.csv" Sample.raw)
     Sample.to_csv Sample.to_datetime Sample.series_min Sample.series_max
     Sample.describe).

(** The table [main] returns on the sample reviews. *)
Definition sample_output : DataFrame :=
  match sample_main.1 with
  | Return (Some d) => d
  | _ => mkDF [] []
  end.

(** * Properties *)

(** ** Whitespace normalisation *)

Section Whitespace.

Lemma sub_spaces_collapsed b s :
  collapsed (sub_spaces b s) ∧ (b = true → starts_clean (sub_spaces b s)).
Proof.
  revert b. induction s as [|c s IH]; intros b; simpl; [done|].
  destruct (is_space c) eqn:Hc.
  - destruct (IH true) as [Hcol Hst]. destruct b; simpl.
    + split; [done|]. intros _. by apply Hst.
    + split; [|done]. split; [|done]. intros _. split; [done|].
      specialize (Hst eq_refl). by destruct (sub_spaces true s).
  - destruct (IH false) as [Hcol _]. simpl. rewrite Hc.
    split; [|done]. split; [done|]. done.
Qed.

Lemma collapsed_app_l s t : collapsed (s ++ t) → collapsed s.
Proof.
  induction s as [|c s IH]; simpl; [done|].
  intros [Hc Hs]. split; [|by apply IH].
  intros Hsp. destruct (Hc Hsp) as [-> Hnext]. split; [done|].
  by destruct s.
Qed.

Lemma lstrip_suffix s : ∃ p, s = p ++ lstrip s ∧ Forall (λ c, is_space c = true) p.
Proof.
  induction s as [|c s [p [Hp Hall]]]; simpl.
  - by exists [].
  - destruct (is_space c) eqn:Hc.
    + exists (c :: p). split; [simpl; by rewrite <- Hp|]. by constructor.
    + by exists [].
Qed.

Lemma collapsed_app_r s t : collapsed (s ++ t) → collapsed t.
Proof. induction s as [|c s IH]; simpl; [done|]. intros [_ ?]. by apply IH. Qed.

Lemma lstrip_collapsed s : collapsed s → collapsed (lstrip s).
Proof.
  intros H. destruct (lstrip_suffix s) as [p [Hp _]].
  rewrite Hp in H. by eapply collapsed_app_r.
Qed.

Lemma lstrip_starts_clean s : starts_clean (lstrip s).
Proof.
  induction s as [|c s IH]; simpl; [done|].
  destruct (is_space c) eqn:Hc; [done|]. by simpl.
Qed.

Lemma lstrip_id s : starts_clean s → lstrip s = s.
Proof. destruct s as [|c s]; simpl; [done|]. by intros ->. Qed.

Lemma rstrip_prefix s : ∃ q, s = rstrip s ++ q.
Proof.
  unfold rstrip. destruct (lstrip_suffix (reverse s)) as [p [Hp _]].
  exists (reverse p).
  rewrite <- reverse_app, <- Hp. by rewrite reverse_involutive.
Qed.

Lemma rstrip_idemp s : rstrip (rstrip s) = rstrip s.
Proof.
  unfold rstrip. rewrite reverse_involutive.
  by rewrite (lstrip_id (lstrip _)); [|apply lstrip_starts_clean].
Qed.

Lemma rstrip_starts_clean s : starts_clean s → starts_clean (rstrip s).
Proof.
  destruct s as [|c s]; [done|]. simpl. intros Hc.
  destruct (rstrip_prefix (c :: s)) as [q Hq].
  destruct (rstrip (c :: s)) as [|c' s'] eqn:Hr; [done|].
  simpl in Hq. by injection Hq as -> _.
Qed.

Lemma strip_idemp s : strip (strip s) = strip s.
Proof.
  unfold strip.
  rewrite (lstrip_id (rstrip _)).
  - apply rstrip_idemp.
  - apply rstrip_starts_clean, lstrip_starts_clean.
Qed.

Lemma strip_collapsed s : collapsed s → collapsed (strip s).
Proof.
  intros H. unfold strip.
  destruct (rstrip_prefix (lstrip s)) as [q Hq].
  apply lstrip_collapsed in H. rewrite Hq in H.
  by eapply collapsed_app_l.
Qed.

Lemma sub_spaces_id b s :
  collapsed s → (b = true → starts_clean s) → sub_spaces b s = s.
Proof.
  revert b. induction s as [|c s IH]; intros b; simpl; [done|].
  intros [Hc Hs] Hb. destruct (is_space c) eqn:Hsp.
  - destruct b; [by specialize (Hb eq_refl)|].
    destruct (Hc eq_refl) as [-> Hnext].
    f_equal. apply IH; [done|]. intros _. by destruct s.
  - f_equal. by apply IH.
Qed.

Lemma normalise_idemp s :
  strip (sub_spaces false (strip (sub_spaces false s))) = strip (sub_spaces false s).
Proof.
  rewrite sub_spaces_id; [apply strip_idemp| |done].
  apply strip_collapsed, sub_spaces_collapsed.
Qed.

End Whitespace.

(** ** Tables *)

Section Tables.

Lemma select_fmap (f : row → bool) (l : list row) :
  select (f <$> l) l = filter (λ r, f r = true) l.
Proof.
  induction l as [|r l IH]; csimpl; [done|].
  rewrite IH, filter_cons. destruct (f r); by case_decide.
Qed.

Lemma select_sublist mask (l : list row) : select mask l `sublist_of` l.
Proof.
  revert mask. induction l as [|r l IH]; intros [|b mask]; simpl;
    try apply sublist_nil_l.
  destruct b; [by apply sublist_skip|by apply sublist_cons].
Qed.

Lemma imap_insert_fmap c (g : row → cell) (l : list row) :
  imap (λ i r, <[c := default VNull ((g <$> l) !! i)]> r) l
  = (λ r, <[c := g r]> r) <$> l.
Proof.
  apply list_eq. intros i.
  rewrite list_lookup_imap, !list_lookup_fmap.
  by destruct (l !! i).
Qed.

Lemma setitem_fmap c (g : row → cell) d :
  setitem c (g <$> rows d) d
  = {| columns := if decide (c ∈ columns d) then columns d else columns d ++ [c];
       rows := (λ r, <[c := g r]> r) <$> rows d |}.
Proof. unfold setitem. by rewrite imap_insert_fmap. Qed.

Lemma setitem_length c vals d : length (rows (setitem c vals d)) = length (rows d).
Proof. apply length_imap. Qed.

Lemma setitem_columns c vals d : columns d ⊆ columns (setitem c vals d).
Proof.
  simpl. case_decide; [done|]. intros x Hx. apply elem_of_app. by left.
Qed.

Lemma setitem_has c vals d : c ∈ columns (setitem c vals d).
Proof. simpl. case_decide; [done|]. apply elem_of_app. right. by constructor. Qed.

Lemma setitem_lookup c vals d i r' :
  rows (setitem c vals d) !! i = Some r' →
  ∃ r, rows d !! i = Some r ∧ r' = <[c := default VNull (vals !! i)]> r.
Proof.
  simpl. rewrite list_lookup_imap.
  destruct (rows d !! i) as [r|]; simpl; [|done].
  intros [= <-]. by exists r.
Qed.

Lemma num_tests_return test col bs :
  num_tests test col = Return bs → bs = numeric test <$> col.
Proof.
  revert bs. induction col as [|c col IH]; intros bs; simpl.
  - by intros [= <-].
  - destruct c; simpl; destruct (num_tests test col); try done;
      intros [= <-]; f_equal; by apply IH.
Qed.

Lemma num_tests_numbers test col :
  Forall (λ c, kind c ≤ 1) col → num_tests test col = Return (numeric test <$> col).
Proof.
  induction 1 as [|c col Hc _ IH]; simpl; [done|].
  rewrite IH. by destruct c.
Qed.

Lemma str_len_kind col : Forall (λ c, kind c ≤ 1) (str_len <$> col).
Proof. apply Forall_fmap, Forall_forall. intros [] _; simpl; lia. Qed.

End Tables.



Lemma getitem_in c d : c ∈ columns d → getitem c d = Return (at_ c <$> rows d).
Proof. intros H. unfold getitem. by rewrite decide_True. Qed.

Lemma getitem_out c d : c ∉ columns d → getitem c d = Raise (KeyError [c]).
Proof. intros H. unfold getitem. by rewrite decide_False. Qed.

Lemma setitem_apply c c' (f : cell → cell) d :
  setitem c (f <$> (at_ c' <$> rows d)) d
  = {| columns := if decide (c ∈ columns d) then columns d else columns d ++ [c];
       rows := (λ r, <[c := f (at_ c' r)]> r) <$> rows d |}.
Proof. rewrite <- list_fmap_compose. apply setitem_fmap. Qed.

Lemma setitem_keeps c c' vals d : c' ∈ columns d → c' ∈ columns (setitem c vals d).
Proof. apply setitem_columns. Qed.

Lemma select_apply (f : cell → bool) c (l : list row) :
  select (f <$> (at_ c <$> l)) l = filter (λ r, f (at_ c r) = true) l.
Proof. rewrite <- list_fmap_compose. apply (select_fmap (f ∘ at_ c)). Qed.

Lemma num_tests_str_len test c (l : list row) :
  num_tests test (str_len <$> (at_ c <$> l))
  = Return ((numeric test ∘ str_len) <$> (at_ c <$> l)).
Proof.
  rewrite num_tests_numbers by apply str_len_kind.
  by rewrite <- list_fmap_compose.
Qed.

Create HintDb cols.
#[local] Hint Resolve setitem_has setitem_keeps : cols.

Section Run.

Context {A B : Type}.
Implicit Types (k : A → M B) (s : ReviewPreprocessor).

Lemma run_eta (m : M A) s : m s = bind m ret s.
Proof. unfold bind, ret. by destruct (m s) as [[a|e] s']. Qed.

Lemma bind_assoc {C} (m : M C) (h : C → M A) k s :
  bind (bind m h) k s = bind m (λ c, bind (h c) k) s.
Proof. unfold bind. by destruct (m s) as [[c|e] s']. Qed.

Lemma bind_ret (a : A) k s : bind (ret a) k s = k a s.
Proof. done. Qed.

Lemma bind_lift_return (a : A) k s : bind (lift (Return a)) k s = k a s.
Proof. done. Qed.

Lemma bind_lift_raise e k s : bind (lift (Raise e)) k s = (Raise e, s).
Proof. done. Qed.

Lemma bind_raise e k s : bind (raise e) k s = (Raise e, s).
Proof. done. Qed.

Lemma bind_try body (h : exn → M A) k s :
  bind (try_except body h) k s
  = match bind body ret s with
    | (Return a, s1) => k a s1
    | (Raise e, s1) => bind (h e) k s1
    end.
Proof. unfold bind, try_except, ret. by destruct (body s) as [[a|e] s1]. Qed.

End Run.

Section RunUnit.

Context {B : Type}.
Implicit Types (k : unit → M B).

Lemma bind_print t a k s :
  bind (print t a) k s
  = k tt (mkRP (input_path s) (output_path s) (df s) (stats s) (stdout s ++ [Line t a])).
Proof. done. Qed.

Lemma bind_set_df d k s :
  bind (set_df d) k s
  = k tt (mkRP (input_path s) (output_path s) (Some d) (stats s) (stdout s)).
Proof. done. Qed.

Lemma bind_set_stat c v k s :
  bind (set_stat c v) k s
  = k tt (mkRP (input_path s) (output_path s) (df s) (<[c := v]> (stats s)) (stdout s)).
Proof. done. Qed.

Lemma bind_get_stat c (k : Z → M B) s :
  bind (get_stat c) k s
  = k (match stats s !! c with Some (Count n) => n | _ => 0 end) s.
Proof. done. Qed.

Lemma bind_self_df e (k : DataFrame → M B) ip op d st out :
  bind (self_df e) k (mkRP ip op (Some d) st out) = k d (mkRP ip op (Some d) st out).
Proof. done. Qed.

Lemma bind_self_none e (k : DataFrame → M B) ip op st out :
  bind (self_df e) k (mkRP ip op None st out) = (Raise e, mkRP ip op None st out).
Proof. done. Qed.

Lemma bind_self_input_path (k : string → M B) s :
  bind self_input_path k s = k (input_path s) s.
Proof. done. Qed.

Lemma bind_self_output_path (k : string → M B) s :
  bind self_output_path k s = k (output_path s) s.
Proof. done. Qed.

Lemma bind_self_df_or_none (k : option DataFrame → M B) s :
  bind self_df_or_none k s = k (df s) s.
Proof. done. Qed.

Lemma bind_when_true m k s : bind (when true m) k s = bind m k s.
Proof. done. Qed.

Lemma bind_when_false m k s : bind (when false m) k s = k tt s.
Proof. done. Qed.

End RunUnit.

Ltac step :=
  first [ rewrite bind_assoc | rewrite bind_try | rewrite bind_ret | rewrite bind_print
        | rewrite bind_lift_return | rewrite bind_lift_raise | rewrite bind_raise
        | rewrite bind_set_df | rewrite bind_set_stat | rewrite bind_get_stat
        | rewrite bind_self_df | rewrite bind_self_none
        | rewrite bind_self_input_path | rewrite bind_self_output_path
        | rewrite bind_self_df_or_none
        | rewrite bind_when_true | rewrite bind_when_false
        | rewrite getitem_in by auto with cols
        | rewrite getitem_out by auto with cols ];
  cbn [df stats stdout input_path output_path].

Ltac exec := cbn [df stats stdout input_path output_path]; repeat step.

(** Start the symbolic run of a method on a state in constructor form. *)
Ltac start m := rewrite (run_eta m); unfold m, column, assign, keep, count.

Ltac stats_same :=
  cbn; repeat (rewrite lookup_insert_ne by done); reflexivity.

Ltac finish := unfold ret; intros [= <- <-]; cbn [df stats]; (split; [stats_same|done]).

Lemma clean_text_spec s o s' :
  clean_text s = (o, s') →
  stats s' !! "original_count" = stats s !! "original_count" ∧
  match df s with
  | None => df s' = None
  | Some d =>
      if decide ("review_text" ∈ columns d)
      then o = Return tt ∧ df s' = Some (cleaned d)
      else o = Raise (KeyError ["review_text"]) ∧ df s' = Some d
  end.
Proof.
  destruct s as [ip op [d|] st out]; start clean_text; [|exec; finish].
  cbn [df]. destruct (decide ("review_text" ∈ columns d)) as [Hin|Hnot]; exec.
  2:{ finish. }
  rewrite setitem_apply. rewrite (decide_True (P := "review_text" ∈ columns d)) by done.
  set (d1 := mkDF _ _).
  assert (H1 : "review_text" ∈ columns d1) by done.
  exec. rewrite num_tests_str_len. exec.
  assert (Hsel : boolean_index
                   ((numeric (λ n, n >? 0) ∘ str_len) <$> (at_ "review_text" <$> rows d1)) d1
                 = mkDF (columns d1)
                     (filter (λ r, numeric (λ n, n >? 0) (str_len (at_ "review_text" r)) = true)
                        (rows d1))).
  { unfold boolean_index. f_equal. apply select_apply. }
  rewrite !Hsel. clear Hsel.
  set (d2 := mkDF _ _).
  assert (H2 : "review_text" ∈ columns d2) by done.
  exec. destruct (_ >? 0); exec; rewrite setitem_apply; exec; finish.
Qed.

Lemma quiet_print t a : quiet (print t a).
Proof. intros s. by eexists. Qed.

Lemma quiet_ret : quiet (ret tt).
Proof. intros s. exists (stdout s). by destruct s. Qed.

Lemma quiet_when b m : quiet m → quiet (when b m).
Proof. destruct b; [done|]. intros _. apply quiet_ret. Qed.

Lemma quiet_seq m k : quiet m → quiet k → quiet (m >> k).
Proof.
  intros Hm Hk s. unfold bind. destruct (Hm s) as [out ->].
  destruct (Hk (mkRP (input_path s) (output_path s) (df s) (stats s) out)) as [out' ->].
  by exists out'.
Qed.

Lemma quiet_for_each {A} (l : list A) body :
  (∀ x, quiet (body x)) → quiet (for_each l body).
Proof.
  intros Hb. induction l as [|x l IH]; simpl; [apply quiet_ret|].
  by apply quiet_seq.
Qed.

Lemma bind_quiet {A} (m : M unit) (k : unit → M A) s r :
  quiet m → bind m k s = r →
  ∃ out, k tt (mkRP (input_path s) (output_path s) (df s) (stats s) out) = r.
Proof. intros Hm. destruct (Hm s) as [out H]. exists out. unfold bind in *. by rewrite H in *. Qed.

Lemma quiet_run (m : M unit) s o s' :
  quiet m → m s = (o, s') →
  o = Return tt ∧ df s' = df s ∧ stats s' = stats s ∧ input_path s' = input_path s.
Proof. intros Hm. destruct (Hm s) as [out ->]. by intros [= <- <-]. Qed.

Create HintDb quiet.
#[local] Hint Resolve quiet_print quiet_ret quiet_when quiet_seq : quiet.


Lemma check_missing_data_spec s o s' :
  check_missing_data s = (o, s') →
  stats s' !! "original_count" = stats s !! "original_count" ∧ df s' = df s.
Proof.
  destruct s as [ip op [d|] st out]; start check_missing_data; [|exec; finish].
  exec. intros H.
  apply bind_quiet in H as [out' H].
  2:{ apply quiet_for_each. intros [col n]. auto with quiet. }
  revert H. exec. destruct (getitems critical_cols d) as [crit|e]; exec; [|finish].
  intros H. apply bind_quiet in H as [out'' H]; [|auto with quiet].
  revert H. exec. finish.
Qed.

Lemma bind_fill_default {B} c v (k : unit → M B) ip op d st out :
  bind (fill_default c v) k (mkRP ip op (Some d) st out)
  = k tt (mkRP ip op (Some (filled c v d)) st out).
Proof.
  unfold fill_default, filled. exec.
  destruct (decide (c ∈ columns d)); exec; done.
Qed.

Lemma handle_missing_values_spec s o s' :
  handle_missing_values s = (o, s') →
  stats s' !! "original_count" = stats s !! "original_count" ∧
  match df s with
  | None => df s' = None
  | Some d =>
      match missing_labels critical_cols d with
      | [] => o = Return tt ∧ df s' = Some (resolved d)
      | miss => o = Raise (KeyError miss) ∧ df s' = Some d
      end
  end.
Proof.
  destruct s as [ip op [d|] st out]; start handle_missing_values; [|exec; finish].
  exec. unfold dropna. destruct (missing_labels critical_cols d) eqn:Hm; exec;
    [|finish].
  fold (dropped d).
  destruct (_ >? 0); exec;
    repeat (rewrite bind_fill_default; exec); finish.
Qed.

Lemma remove_duplicates_spec s o s' :
  remove_duplicates s = (o, s') →
  stats s' !! "original_count" = stats s !! "original_count" ∧
  match df s with
  | None => df s' = None
  | Some d => o = Return tt ∧ df s' = Some (drop_duplicates d)
  end.
Proof.
  destruct s as [ip op [d|] st out]; start remove_duplicates; [|exec; finish].
  exec. destruct (_ >? 0); exec; finish.
Qed.

Lemma script_filtered_records d : rows d ≠ [] → script_filtered d = english_only d.
Proof. unfold script_filtered. by destruct (rows d). Qed.

Lemma script_filtered_empty d : rows d = [] → script_filtered d = mkDF [] [].
Proof. unfold script_filtered. by intros ->. Qed.

Lemma script_filtered_sublist d : rows (script_filtered d) `sublist_of` rows d.
Proof.
  unfold script_filtered. destruct (rows d) as [|r l] eqn:Hr; [done|].
  simpl. rewrite Hr. apply sublist_filter.
Qed.

Lemma bind_keep_applied {B} (k : unit → M B) ip op d st out :
  bind (keep_applied contains_amharic (at_ "review_text" <$> rows d)) k
    (mkRP ip op (Some d) st out)
  = k tt (mkRP ip op (Some (script_filtered d)) st out).
Proof.
  unfold keep_applied.
  destruct (at_ "review_text" <$> rows d) as [|c col] eqn:Hcol.
  - apply fmap_nil_inv in Hcol. rewrite (script_filtered_empty d Hcol). exec.
    unfold getitems. cbn [missing_labels filter list_filter]. exec. by rewrite Hcol.
  - rewrite <- Hcol. rewrite script_filtered_records by (by intros Hr; rewrite Hr in Hcol).
    unfold keep. exec. do 3 f_equal.
    unfold boolean_index, english_only. f_equal. rewrite <- list_fmap_compose, select_apply.
    apply list_filter_iff. intros r. unfold english. simpl.
    by destruct (contains_amharic _).
Qed.

Lemma filter_non_english_reviews_spec s o s' :
  filter_non_english_reviews s = (o, s') →
  stats s' !! "original_count" = stats s !! "original_count" ∧
  match df s with
  | None => df s' = None
  | Some d =>
      if decide ("review_text" ∈ columns d)
      then o = Return tt ∧ df s' = Some (script_filtered d)
      else o = Raise (KeyError ["review_text"]) ∧ df s' = Some d
  end.
Proof.
  destruct s as [ip op [d|] st out]; start filter_non_english_reviews; [|exec; finish].
  cbn [df]. destruct (decide ("review_text" ∈ columns d)) as [Hin|Hnot]; exec;
    [|finish].
  rewrite bind_keep_applied. exec.
  destruct (_ >? 0); exec; finish.
Qed.

Lemma num_tests_raise test col : ¬ numbers col → num_tests test col = Raise TypeError.
Proof.
  induction col as [|c col IH]; intros Hn; simpl.
  - destruct Hn. constructor.
  - destruct (decide (kind c ≤ 1)) as [Hc|Hc].
    + rewrite IH; [by destruct c|]. intros Hcol. apply Hn. by constructor.
    + destruct c; simpl in Hc; try lia; by destruct (num_tests test col).
Qed.

Lemma select_zip_with (op : bool → bool → bool) (f g : cell → bool) c (l : list row) :
  select (zip_with op (f <$> (at_ c <$> l)) (g <$> (at_ c <$> l))) l
  = filter (λ r, op (f (at_ c r)) (g (at_ c r)) = true) l.
Proof.
  induction l as [|r l IH]; csimpl; [done|].
  rewrite IH, filter_cons. destruct (op _ _); by case_decide.
Qed.

Lemma len_pos d : (len d >? 0) = bool_decide (rows d ≠ []).
Proof.
  unfold len. destruct (rows d) as [|r l]; [done|].
  rewrite bool_decide_eq_true_2 by done. apply Z.gtb_lt. simpl length. lia.
Qed.

Lemma validate_ratings_spec s o s' :
  validate_ratings s = (o, s') →
  stats s' !! "original_count" = stats s !! "original_count" ∧
  match df s with
  | None => df s' = None
  | Some d =>
      if decide ("rating" ∈ columns d) then
        if decide (numbers (at_ "rating" <$> rows d))
        then o = Return tt ∧ df s' = Some (validated d)
        else o = Raise TypeError ∧ df s' = Some d
      else o = Raise (KeyError ["rating"]) ∧ df s' = Some d
  end.
Proof.
  destruct s as [ip op [d|] st out]; start validate_ratings; [|exec; finish].
  cbn [df]. destruct (decide ("rating" ∈ columns d)) as [Hin|Hnot]; exec;
    [|finish].
  destruct (decide (numbers _)) as [Hn|Hn].
  2:{ rewrite num_tests_raise by done. exec. finish. }
  rewrite !num_tests_numbers by done. exec.
  rewrite !num_tests_numbers by done. exec.
  assert (Hinv :
    boolean_index
      (zip_with orb (numeric (λ n, n <? 1) <$> (at_ "rating" <$> rows d))
         (numeric (λ n, n >? 5) <$> (at_ "rating" <$> rows d))) d
    = {| columns := columns d; rows := filter invalid_rating (rows d) |}).
  { unfold boolean_index. f_equal. apply select_zip_with. }
  rewrite Hinv, len_pos. cbn [rows].
  unfold validated. destruct (decide (_ = [])) as [Hbad|Hbad].
  - rewrite bool_decide_eq_false_2 by (by intros []). exec. finish.
  - rewrite bool_decide_eq_true_2 by done. exec.
    rewrite !num_tests_numbers by done. exec.
    rewrite !num_tests_numbers by done. exec.
    unfold boolean_index at 1.
    rewrite (select_zip_with andb (numeric (λ n, n >=? 1)) (numeric (λ n, n <=? 5)) "rating" (rows d)).
    finish.
Qed.

Lemma getitems_existing d : getitems (final_columns d) d = Return (projected d).
Proof.
  unfold getitems, missing_labels.
  assert (H : filter (λ c, c ∉ columns d) (final_columns d) = []); [|by rewrite H].
  unfold final_columns. induction output_columns as [|c l IH]; [done|].
  rewrite filter_cons. case_decide; [|done].
  rewrite filter_cons_False by tauto. done.
Qed.

Lemma prepare_final_output_spec s o s' :
  prepare_final_output s = (o, s') →
  stats s' = stats s ∧
  match df s with
  | None => df s' = None
  | Some d =>
      match sort_values sort_keys (projected d) with
      | Return sorted => o = Return tt ∧ df s' = Some sorted
      | Raise e => o = Raise e ∧ df s' = Some (projected d)
      end
  end.
Proof.
  destruct s as [ip op [d|] st out]; start prepare_final_output;
    [|exec; by intros [= <- <-]].
  exec. fold (final_columns d). rewrite getitems_existing. exec.
  destruct (sort_values _ _); exec; by intros [= <- <-].
Qed.

Lemma date_update_refl d : date_update d d.
Proof. split; [done|]. by apply Forall_Forall2_diag, Forall_forall. Qed.

Lemma date_update_setitem c vals d d' :
  c ∈ date_columns → date_update d d' → date_update d (setitem c vals d').
Proof.
  intros Hc [Hcols Hrows]. split.
  - intros x Hx. by apply setitem_keeps, Hcols.
  - simpl. apply Forall2_same_length_lookup. split.
    + rewrite length_imap. by eapply Forall2_length.
    + intros i r r2 Hr. rewrite list_lookup_imap.
      destruct (rows d' !! i) as [r1|] eqn:H1; [|done]. simpl. intros [= <-].
      intros x Hx. rewrite lookup_insert_ne by (by intros ->).
      by eapply (Forall2_lookup_lr _ _ _ _ _ _ Hrows).
Qed.

Section Dates.

Variable to_datetime : list cell → outcome (list cell).
Variable series_min series_max : list cell → outcome cell.

Local Abbreviation dates := (normalize_dates to_datetime series_min series_max).

Lemma normalize_dates_spec s o s' :
  dates s = (o, s') →
  o = Return tt ∧ stats s' = stats s ∧
  match df s with
  | None => df s' = None
  | Some d => ∃ d', df s' = Some d' ∧ date_update d d'
  end.
Proof.
  destruct s as [ip op [d|] st out]; rewrite (run_eta dates);
    unfold normalize_dates, column, assign; exec.
  2:{ by intros [= <- <-]. }
  destruct (decide ("review_date" ∈ columns d)) as [Hin|Hnot]; exec.
  2:{ intros [= <- <-]. repeat split. eexists. split; [done|]. apply date_update_refl. }
  repeat (match goal with
          | |- context [bind (lift ?x) _ _] => destruct x eqn:?
          end; exec);
    (intros [= <- <-]; repeat split; eexists; (split; [reflexivity|]);
     repeat (apply date_update_setitem; [set_solver|]); apply date_update_refl).
Qed.

End Dates.

Lemma bind_inv {A B} (m : M A) (k : A → M B) s b s' :
  bind m k s = (Return b, s') →
  ∃ a s1, m s = (Return a, s1) ∧ k a s1 = (Return b, s').
Proof. unfold bind. destruct (m s) as [[a|e] s1]; [|done]. eauto. Qed.

Lemma quiet_get_stat c (k : Z → M unit) : (∀ n, quiet (k n)) → quiet (bind (get_stat c) k).
Proof. intros Hk s. rewrite bind_get_stat. apply Hk. Qed.

Lemma quiet_if (b : bool) (m1 m2 : M unit) : quiet m1 → quiet m2 → quiet (if b then m1 else m2).
Proof. by destruct b. Qed.

Lemma quiet_sumbool {P Q} (b : {P} + {Q}) (m1 m2 : M unit) :
  quiet m1 → quiet m2 → quiet (if b then m1 else m2).
Proof. by destruct b. Qed.

#[local] Hint Resolve quiet_get_stat quiet_if quiet_sumbool : quiet.

Section Process.

Variable read_csv : string → outcome DataFrame.
Variable to_csv : string → DataFrame → outcome unit.
Variable to_datetime : list cell → outcome (list cell).
Variable series_min series_max : list cell → outcome cell.
Variable describe : DataFrame → outcome (list line).

Lemma load_data_spec s o s' :
  load_data read_csv s = (o, s') →
  match read_csv (input_path s) with
  | Return d => o = Return true ∧ df s' = Some d ∧
                stats s' !! "original_count" = Some (Count (len d))
  | Raise _ => o = Return false ∧ df s' = df s
  end.
Proof.
  destruct s as [ip op d0 st out]. rewrite (run_eta (load_data _)).
  unfold load_data. exec.
  destruct (read_csv ip) as [d|e]; exec.
  - intros [= <- <-]. cbn [df stats]. by rewrite lookup_insert_eq.
  - destruct e; exec; by intros [= <- <-].
Qed.

Lemma save_data_spec s o s' :
  save_data to_csv s = (o, s') →
  df s' = df s ∧
  stats s' !! "original_count" = stats s !! "original_count" ∧
  match o with
  | Return true => ∃ d, df s = Some d ∧ stats s' !! "final_count" = Some (Count (len d))
  | Return false => True
  | Raise _ => False
  end.
Proof.
  destruct s as [ip op [d|] st out]; rewrite (run_eta (save_data _));
    unfold save_data, count; exec.
  2:{ by intros [= <- <-]. }
  destruct (to_csv op d); exec; intros [= <- <-]; cbn [df stats].
  - split; [done|]. split; [stats_same|]. exists d. by rewrite lookup_insert_eq.
  - done.
Qed.

Lemma generate_report_spec s o s' :
  generate_report describe s = (o, s') → df s' = df s ∧ stats s' = stats s.
Proof.
  unfold generate_report. intros H.
  repeat (apply bind_quiet in H as [? H]; [|auto 10 with quiet];
          cbn [df stats input_path output_path] in H).
  rewrite bind_self_df_or_none in H. cbn [df] in H.
  destruct (df s) as [d|]; [|by injection H as <- <-].
  rewrite run_eta in H. revert H. exec.
  destruct (describe d) as [lines|e]; exec; [|by intros [= <- <-]].
  intros H. apply bind_quiet in H as [? H].
  - by injection H as <- <-.
  - apply quiet_for_each. auto with quiet.
Qed.

Local Abbreviation run_process :=
  (process read_csv to_csv to_datetime series_min series_max describe).

(** What a successful run did, stage by stage. *)
Lemma process_run s s' :
  run_process s = (Return true, s') →
  ∃ d0 d3 d8,
    read_csv (input_path s) = Return d0 ∧
    missing_labels critical_cols d0 = [] ∧
    date_update (resolved d0) d3 ∧
    "review_text" ∈ columns d3 ∧
    numbers (at_ "rating" <$> rows (english_only (drop_duplicates (cleaned d3)))) ∧
    sort_values sort_keys
      (projected (validated (english_only (drop_duplicates (cleaned d3)))))
    = Return d8 ∧
    df s' = Some d8 ∧
    stats s' !! "original_count" = Some (Count (len d0)) ∧
    stats s' !! "final_count" = Some (Count (len d8)).
Proof.
  unfold process. intros H.
  apply bind_inv in H as ([] & s0 & H0 & H).
  apply bind_inv in H as (loaded & s1 & H1 & H).
  apply (quiet_run _ _ _ _ (quiet_print _ _)) in H0 as (_ & Hdf0 & Hst0 & Hip0).
  apply load_data_spec in H1. rewrite Hip0 in H1.
  destruct loaded; [|done]. cbn [negb] in H.
  destruct (read_csv (input_path s)) as [d0|e]; [|by destruct H1].
  destruct H1 as (_ & Hdf1 & Hst1).
  apply bind_inv in H as ([] & s2 & H2 & H).
  apply check_missing_data_spec in H2 as [Hst2 Hdf2].
  rewrite Hdf1 in Hdf2. rewrite Hst1 in Hst2.
  apply bind_inv in H as ([] & s3 & H3 & H).
  apply handle_missing_values_spec in H3 as [Hst3 Hdf3].
  rewrite Hdf2 in Hdf3. rewrite Hst2 in Hst3.
  destruct (missing_labels critical_cols d0) eqn:Hmiss; [|by destruct Hdf3].
  destruct Hdf3 as [_ Hdf3].
  apply bind_inv in H as ([] & s4 & H4 & H).
  apply normalize_dates_spec in H4 as (_ & Hst4 & Hdf4).
  rewrite Hdf3 in Hdf4. destruct Hdf4 as (d3 & Hdf4 & Hupd).
  assert (Hst4' : stats s4 !! "original_count" = Some (Count (len d0)))
    by (by rewrite Hst4).
  clear Hst4. 
  apply bind_inv in H as ([] & s5 & H5 & H).
  apply clean_text_spec in H5 as [Hst5 Hdf5].
  rewrite Hdf4 in Hdf5. rewrite Hst4' in Hst5.
  destruct (decide ("review_text" ∈ columns d3)) as [Htext|]; [|by destruct Hdf5].
  destruct Hdf5 as [_ Hdf5].
  apply bind_inv in H as ([] & s6 & H6 & H).
  apply remove_duplicates_spec in H6 as [Hst6 Hdf6].
  rewrite Hdf5 in Hdf6. rewrite Hst5 in Hst6. destruct Hdf6 as [_ Hdf6].
  apply bind_inv in H as ([] & s7 & H7 & H).
  apply filter_non_english_reviews_spec in H7 as [Hst7 Hdf7].
  rewrite Hdf6 in Hdf7. rewrite Hst6 in Hst7.
  destruct (decide (_ ∈ _)) as [_|]; [|by destruct Hdf7].
  destruct Hdf7 as [_ Hdf7].
  assert (Hrows : rows (drop_duplicates (cleaned d3)) ≠ []).
  { intros Hr. rewrite (script_filtered_empty _ Hr) in Hdf7.
    apply bind_inv in H as ([] & s8 & H8 & _).
    apply validate_ratings_spec in H8 as [_ Hdf8]. rewrite Hdf7 in Hdf8.
    rewrite decide_False in Hdf8 by (cbn [columns]; apply not_elem_of_nil).
    by destruct Hdf8. }
  rewrite (script_filtered_records _ Hrows) in Hdf7.
  apply bind_inv in H as ([] & s8 & H8 & H).
  apply validate_ratings_spec in H8 as [Hst8 Hdf8].
  rewrite Hdf7 in Hdf8. rewrite Hst7 in Hst8. cbn [columns rows] in Hdf8.
  destruct (decide ("rating" ∈ _)) as [Hrating|]; [|by destruct Hdf8].
  destruct (decide (numbers _)) as [Hnum|]; [|by destruct Hdf8].
  destruct Hdf8 as [_ Hdf8].
  apply bind_inv in H as ([] & s9 & H9 & H).
  apply prepare_final_output_spec in H9 as [Hst9 Hdf9].
  rewrite Hdf8 in Hdf9.
  destruct (sort_values _ _) as [d8|] eqn:Hsort; [|by destruct Hdf9].
  destruct Hdf9 as [_ Hdf9].
  apply bind_inv in H as (saved & s10 & H10 & H).
  apply save_data_spec in H10 as (Hdf10 & Hst10 & Hfinal).
  destruct saved; [|done].
  destruct Hfinal as (d & Hd & Hfinal). rewrite Hdf9 in Hd. injection Hd as <-.
  apply bind_inv in H as ([] & s11 & H11 & [= <-]).
  apply generate_report_spec in H11 as [Hdf11 Hst11].
  exists d0, d3, d8. split_and!; try done.
  - congruence.
  - by rewrite Hst11, Hst10, Hst9.
  - by rewrite Hst11.
Qed.

End Process.

(** C9. Cleaning a review text is idempotent: whatever the cell [text]
    holds (a string in particular), cleaning the already cleaned string
    gives that string again. *)
Theorem clean_review_text_idempotent (text : cell) :
  clean_review_text (VStr (clean_review_text text)) = clean_review_text text.
Proof.
  set (t := clean_review_text text).
  unfold clean_review_text at 1. simpl.
  case_bool_decide as Hempty.
  - by injection Hempty as <-.
  - subst t. unfold clean_review_text.
    destruct (isna text || bool_decide (text = VStr [])); [done|].
    apply normalise_idemp.
Qed.

(** Membership in, and inclusion between, explicit lists of labels. *)
Ltac in_list := repeat first [apply list_elem_of_here | apply list_elem_of_further].

Ltac sub_list :=
  let c := fresh "c" in
  let Hc := fresh "Hc" in
  intros c Hc;
  repeat (apply elem_of_cons in Hc as [->|Hc]; [in_list|]);
  by apply elem_of_nil in Hc.

Ltac not_in_list :=
  let H := fresh "H" in
  intros H; repeat (apply elem_of_cons in H as [?|H]; [done|]);
  by apply elem_of_nil in H.

(** ** Ordering of cells *)

Section Order.

Lemma Z_compare_trans x y z c :
  (x ?= y) = c → (y ?= z) = c → (x ?= z) = c.
Proof.
  destruct c; rewrite ?Z.compare_eq_iff, ?Z.compare_lt_iff, ?Z.compare_gt_iff; lia.
Qed.

Lemma N_compare_trans x y z c :
  (x ?= y)%N = c → (y ?= z)%N = c → (x ?= z)%N = c.
Proof.
  destruct c; rewrite ?N.compare_eq_iff, ?N.compare_lt_iff, ?N.compare_gt_iff; lia.
Qed.

Lemma date_key_inj d e : date_key d = date_key e → d = e.
Proof. destruct d, e. unfold date_key. simpl. by intros [= -> -> ->]. Qed.

Lemma cell_compare_eq a b : cell_compare a b = Eq ↔ a = b.
Proof.
  destruct a, b; try (simpl; split; [done|by intros [=]]); cbn [cell_compare].
  - rewrite Z.compare_eq_iff. split; [by intros ->|by intros [= ->]].
  - rewrite (list_compare_refl _ N.compare_eq_iff).
    split; [by intros ->|by intros [= ->]].
  - rewrite (list_compare_refl _ Z.compare_eq_iff). split.
    + intros H. apply app_inj_2 in H as [H1 [= ->]]; [|done].
      by apply date_key_inj in H1 as ->.
    + by intros [= -> ->].
  - rewrite (list_compare_refl _ Z.compare_eq_iff). split.
    + by intros ->%date_key_inj.
    + by intros [= ->].
Qed.

Lemma cell_compare_antisym a b : cell_compare b a = CompOpp (cell_compare a b).
Proof.
  destruct a, b; try done; cbn [cell_compare].
  - apply Z.compare_antisym.
  - apply list_compare_antisym; [apply N.compare_eq_iff|apply N.compare_antisym].
  - apply list_compare_antisym; [apply Z.compare_eq_iff|apply Z.compare_antisym].
  - apply list_compare_antisym; [apply Z.compare_eq_iff|apply Z.compare_antisym].
Qed.

Lemma cell_compare_trans a b c o :
  cell_compare a b = o → cell_compare b c = o → cell_compare a c = o.
Proof.
  destruct a, b, c; try (cbn; intros; congruence);
    try (cbn -[list_compare]; intros; subst; solve [done | congruence]);
    cbn [cell_compare].
  - apply Z_compare_trans.
  - apply (list_compare_trans _ N.compare_eq_iff);
      [apply N_compare_trans|apply N.compare_antisym].
  - apply (list_compare_trans _ Z.compare_eq_iff);
      [apply Z_compare_trans|apply Z.compare_antisym].
  - apply (list_compare_trans _ Z.compare_eq_iff);
      [apply Z_compare_trans|apply Z.compare_antisym].
Qed.

Lemma key_compare_eq asc a b : key_compare asc a b = Eq ↔ a = b.
Proof.
  destruct asc.
  - destruct a, b; try (split; [done|by intros [=]]); try done;
      apply cell_compare_eq.
  - destruct a, b; try (split; [done|by intros [=]]); try done;
      cbn [key_compare]; rewrite cell_compare_eq; split; congruence.
Qed.

Lemma key_compare_antisym asc a b :
  key_compare asc b a = CompOpp (key_compare asc a b).
Proof.
  destruct asc, a, b; try done; cbn [key_compare]; apply cell_compare_antisym.
Qed.

Lemma key_compare_trans asc a b c o :
  key_compare asc a b = o → key_compare asc b c = o → key_compare asc a c = o.
Proof.
  destruct asc.
  - destruct a, b, c; try (cbn; congruence); cbn [key_compare];
      apply cell_compare_trans.
  - destruct a, b, c; try (cbn; congruence); cbn [key_compare];
      intros; eapply cell_compare_trans; eauto.
Qed.

End Order.

(** ** Stable sorting *)

Section RowOrder.

Variable keys : list (string * bool).

Lemma row_compare_antisym a b :
  row_compare keys b a = CompOpp (row_compare keys a b).
Proof.
  induction keys as [|[c asc] ks IH]; simpl; [done|].
  rewrite (key_compare_antisym asc (at_ c a) (at_ c b)).
  by destruct (key_compare asc (at_ c a) (at_ c b)).
Qed.

Lemma row_compare_eq a b :
  row_compare keys a b = Eq ↔ Forall (λ k, at_ k.1 a = at_ k.1 b) keys.
Proof.
  induction keys as [|[c asc] ks IH]; simpl.
  - split; [constructor|done].
  - rewrite Forall_cons. simpl. rewrite <- IH, <- (key_compare_eq asc).
    destruct (key_compare asc (at_ c a) (at_ c b)); split; try done;
      by intros [? ?].
Qed.

Lemma row_compare_eq_l a b c :
  row_compare keys a b = Eq → row_compare keys a c = row_compare keys b c.
Proof.
  rewrite row_compare_eq. intros H.
  induction H as [|[k asc] ks Hk _ IH]; simpl; [done|].
  simpl in Hk. by rewrite Hk, IH.
Qed.

Lemma row_compare_eq_r a b c :
  row_compare keys b c = Eq → row_compare keys a b = row_compare keys a c.
Proof.
  rewrite row_compare_eq. intros H.
  induction H as [|[k asc] ks Hk _ IH]; simpl; [done|].
  simpl in Hk. by rewrite Hk, IH.
Qed.

Lemma row_compare_trans a b c o :
  row_compare keys a b = o → row_compare keys b c = o → row_compare keys a c = o.
Proof.
  induction keys as [|[k asc] ks IH]; simpl; [done|].
  destruct (key_compare asc (at_ k a) (at_ k b)) eqn:H1;
    destruct (key_compare asc (at_ k b) (at_ k c)) eqn:H2;
    try congruence;
    try (apply key_compare_eq in H1; rewrite H1, H2; congruence);
    try (apply key_compare_eq in H2; rewrite <- H2, H1; congruence);
    try (rewrite (key_compare_trans _ _ _ _ _ H1 H2); congruence).
  apply key_compare_eq in H1, H2. rewrite H1, H2.
  rewrite (proj2 (key_compare_eq asc _ _) eq_refl). apply IH.
Qed.

Lemma row_compare_le_trans a b c :
  row_compare keys a b ≠ Gt → row_compare keys b c ≠ Gt → row_compare keys a c ≠ Gt.
Proof.
  destruct (row_compare keys a b) eqn:H1; [| |done].
  - intros _. by rewrite (row_compare_eq_l _ _ _ H1).
  - destruct (row_compare keys b c) eqn:H2; [| |done]; intros _ _.
    + by rewrite <- (row_compare_eq_r _ _ _ H2), H1.
    + by rewrite (row_compare_trans _ _ _ _ H1 H2).
Qed.

Abbreviation sorted := (stable_sort (row_compare keys)).
Abbreviation insert := (insert_row (row_compare keys)).

Lemma insert_row_perm r l : insert r l ≡ₚ r :: l.
Proof.
  induction l as [|x l IH]; simpl; [done|].
  destruct (row_compare keys r x); try done.
  rewrite IH. apply Permutation_swap.
Qed.

Lemma stable_sort_perm l : sorted l ≡ₚ l.
Proof.
  induction l as [|r l IH]; simpl; [done|].
  fold (sorted l). by rewrite insert_row_perm, IH.
Qed.

Local Abbreviation in_order := (in_order keys).

Lemma in_order_cons r l :
  in_order (r :: l) ↔ Forall (λ x, row_compare keys r x ≠ Gt) l ∧ in_order l.
Proof.
  split.
  - intros H. split.
    + apply Forall_lookup. intros j x Hx. apply (H 0%nat (S j)); [lia|done|done].
    + intros i j a b Hij Ha Hb. apply (H (S i) (S j)); [lia|done|done].
  - intros [Hr Hl] [|i] [|j] a b Hij; try lia; simpl.
    + intros [= <-] Hb. by eapply (proj1 (Forall_lookup _ _) Hr).
    + apply Hl. lia.
Qed.

Lemma insert_row_in_order r l : in_order l → in_order (insert r l).
Proof.
  induction l as [|x l IH]; simpl.
  - intros _. apply in_order_cons. split; [constructor|done].
  - intros Hxl. pose proof Hxl as [Hx Hl]%in_order_cons.
    destruct (row_compare keys r x) eqn:Hrx.
    + apply in_order_cons. split; [|done]. constructor; [by rewrite Hrx|].
      eapply Forall_impl; [exact Hx|]. intros y Hy. simpl in Hy.
      by rewrite (row_compare_eq_l _ _ _ Hrx).
    + apply in_order_cons. split; [|done]. constructor; [by rewrite Hrx|].
      eapply Forall_impl; [exact Hx|]. intros y Hy. simpl in Hy.
      eapply row_compare_le_trans; [|exact Hy]. by rewrite Hrx.
    + apply in_order_cons. split; [|by apply IH].
      rewrite insert_row_perm. constructor; [|done].
      rewrite row_compare_antisym, Hrx. done.
Qed.

Lemma stable_sort_in_order l : in_order (sorted l).
Proof.
  induction l as [|r l IH]; simpl; [by intros [|i] [|j]|].
  by apply insert_row_in_order.
Qed.

Lemma insert_row_stable k r l :
  filter (λ x, row_compare keys k x = Eq) (insert r l)
  = filter (λ x, row_compare keys k x = Eq) (r :: l).
Proof.
  induction l as [|x l IH]; simpl; [done|].
  destruct (row_compare keys r x) eqn:Hrx; try done.
  rewrite filter_cons, IH, !filter_cons.
  destruct (decide (row_compare keys k x = Eq)) as [Hx|Hx];
    destruct (decide (row_compare keys k r = Eq)) as [Hr|Hr]; try done.
  rewrite <- (row_compare_eq_l _ _ _ Hr), Hx in Hrx. done.
Qed.

Lemma stable_sort_stable k l :
  filter (λ x, row_compare keys k x = Eq) (sorted l)
  = filter (λ x, row_compare keys k x = Eq) l.
Proof.
  induction l as [|r l IH]; simpl; [done|].
  fold (sorted l). by rewrite insert_row_stable, !filter_cons, IH.
Qed.

End RowOrder.

(** ** Duplicates *)

Section Duplicates.

Lemma duplicated_from_length seen l : length (duplicated_from seen l) = length l.
Proof. revert seen. induction l as [|r l IH]; intros seen; simpl; [done|]. by rewrite IH. Qed.

Lemma duplicated_from_lookup seen l i r b :
  l !! i = Some r → duplicated_from seen l !! i = Some b →
  b = true ↔ r ∈ seen ∨ ∃ j, (j < i)%nat ∧ l !! j = Some r.
Proof.
  revert seen i. induction l as [|x l IH]; intros seen [|i]; simpl; try done.
  - intros [= ->] [= <-]. rewrite bool_decide_eq_true. split; [by left|].
    intros [?|(j & Hj & _)]; [done|lia].
  - intros Hr Hb. rewrite (IH _ _ Hr Hb). rewrite elem_of_cons. split.
    + intros [[->|?]|(j & Hj & Hl)].
      * right. exists 0%nat. split; [lia|done].
      * by left.
      * right. exists (S j). split; [lia|done].
    + intros [?|([|j] & Hj & Hl)].
      * left. by right.
      * simpl in Hl. injection Hl as ->. left. by left.
      * right. exists j. split; [lia|done].
Qed.

Lemma select_unseen seen l :
  let out := select (negb <$> duplicated_from seen l) l in
  NoDup out ∧ ∀ r, r ∈ out ↔ r ∈ l ∧ r ∉ seen.
Proof.
  revert seen. induction l as [|x l IH]; intros seen; simpl.
  - split; [constructor|]. intros r. split; [by intros ?%elem_of_nil|].
    by intros [?%elem_of_nil _].
  - destruct (IH (x :: seen)) as [Hnd Hin]. csimpl.
    case_bool_decide as Hx; simpl.
    + split; [done|]. intros r. rewrite Hin, !elem_of_cons. split.
      * intros [? Hn]. split; [by right|]. intros ?. apply Hn. by right.
      * intros [[->|?] Hn]; [done|]. split; [done|]. intros [->|?]; done.
    + split.
      * constructor; [|done]. rewrite Hin. intros [_ Hn]. apply Hn. by left.
      * intros r. rewrite !elem_of_cons, Hin, elem_of_cons. split.
        -- intros [->|[? Hn]]; [by split; [left|]|].
           split; [by right|]. intros ?. apply Hn. by right.
        -- intros [[->|?] Hn]; [by left|].
           destruct (decide (r = x)) as [->|Hne]; [by left|].
           right. split; [done|]. intros [?|?]; done.
Qed.

End Duplicates.

(** ** Invariants of a table *)

Section Invariants.

Variable need : list string.
Variable P : row → Prop.
Hypothesis P_local : local_to need P.

Lemma table_inv_sublist d d' :
  columns d' = columns d → rows d' `sublist_of` rows d →
  table_inv need P d → table_inv need P d'.
Proof.
  intros Hc Hr [Hcols Hrows]. split; [by rewrite Hc|].
  apply Forall_forall. intros r Hin.
  eapply (proj1 (Forall_forall _ _) Hrows), elem_of_sublist; eauto.
Qed.

Lemma table_inv_perm d d' :
  columns d' = columns d → rows d' ≡ₚ rows d →
  table_inv need P d → table_inv need P d'.
Proof.
  intros Hc Hr [Hcols Hrows]. split; [by rewrite Hc|]. by rewrite Hr.
Qed.

Lemma table_inv_setitem c vals d :
  c ∉ need → table_inv need P d → table_inv need P (setitem c vals d).
Proof.
  intros Hc [Hcols Hrows]. split.
  - intros x Hx. by apply setitem_keeps, Hcols.
  - apply Forall_lookup. intros i r' Hr'.
    apply setitem_lookup in Hr' as (r & Hr & ->).
    eapply P_local; [|by eapply (proj1 (Forall_lookup _ _) Hrows)].
    intros x Hx. apply lookup_insert_ne. by intros ->.
Qed.

Lemma table_inv_date_update d d' :
  (∀ c, c ∈ need → c ∉ date_columns) →
  date_update d d' → table_inv need P d → table_inv need P d'.
Proof.
  intros Hd [Hc Hr] [Hcols Hrows]. split; [by etrans|].
  eapply Forall2_Forall_r; [exact Hr|].
  eapply Forall_impl; [exact Hrows|]. intros r Pr r' Hrr'. simpl.
  eapply P_local; [|exact Pr]. intros c Hcn. by apply Hrr', Hd.
Qed.

Lemma table_inv_projected d :
  need ⊆ output_columns → table_inv need P d → table_inv need P (projected d).
Proof.
  intros Hout [Hcols Hrows].
  assert (Hfinal : need ⊆ final_columns d).
  { intros c Hc. apply list_elem_of_filter. split; [by apply Hcols|by apply Hout]. }
  split; [done|]. simpl. apply Forall_fmap.
  eapply Forall_impl; [exact Hrows|]. intros r Pr. simpl.
  eapply P_local; [|exact Pr]. intros c Hc. unfold project_row.
  destruct (r !! c) as [v|] eqn:Hv.
  - apply map_lookup_filter_Some. split; [done|]. by apply Hfinal.
  - apply map_lookup_filter_None. by left.
Qed.

Lemma table_inv_sort_values keys d d' :
  sort_values keys d = Return d' → table_inv need P d → table_inv need P d'.
Proof.
  unfold sort_values. destruct (check_keys keys d); [|done]. intros [= <-].
  apply table_inv_perm; [done|]. apply stable_sort_perm.
Qed.

End Invariants.

(** ** The tables the stages leave *)

Section Frames.

Lemma drop_duplicates_sub d :
  columns (drop_duplicates d) = columns d ∧
  rows (drop_duplicates d) `sublist_of` rows d.
Proof. split; [done|]. apply select_sublist. Qed.

Lemma english_only_sub d :
  columns (english_only d) = columns d ∧ rows (english_only d) `sublist_of` rows d.
Proof. split; [done|]. apply sublist_filter. Qed.

Lemma validated_sub d :
  columns (validated d) = columns d ∧ rows (validated d) `sublist_of` rows d.
Proof.
  unfold validated. case_decide; [done|]. split; [done|]. apply sublist_filter.
Qed.

Lemma sort_values_perm keys d d' :
  sort_values keys d = Return d' → columns d' = columns d ∧ rows d' ≡ₚ rows d.
Proof.
  unfold sort_values. destruct (check_keys keys d); [|done]. intros [= <-].
  split; [done|]. apply stable_sort_perm.
Qed.

Lemma filled_length c v d : length (rows (filled c v d)) = length (rows d).
Proof. unfold filled. case_decide; [apply setitem_length|done]. Qed.

Lemma resolved_length d : (length (rows (resolved d)) ≤ length (rows d))%nat.
Proof.
  unfold resolved. rewrite !filled_length. simpl. apply length_filter.
Qed.

Lemma cleaned_length d : (length (rows (cleaned d)) ≤ length (rows d))%nat.
Proof.
  simpl. rewrite length_fmap.
  etrans; [apply length_filter|]. by rewrite length_fmap.
Qed.

Lemma date_update_length d d' :
  date_update d d' → length (rows d') = length (rows d).
Proof. intros [_ H]. symmetry. by eapply Forall2_length. Qed.

Lemma projected_length d : length (rows (projected d)) = length (rows d).
Proof. simpl. apply length_fmap. Qed.

End Frames.

Section Establish.

Lemma text_length_local : local_to ["review_text"; "text_length"] text_length_ok.
Proof.
  intros r r' Hsame (t & Ht & Hl). exists t.
  rewrite !Hsame by in_list. done.
Qed.

Lemma critical_local : local_to critical_cols critical_ok.
Proof. intros r r' Hsame Hr c Hc. rewrite Hsame by done. by apply Hr. Qed.

Lemma at_local c r r' : r' !! c = r !! c → at_ c r' = at_ c r.
Proof. unfold at_. by intros ->. Qed.

Lemma no_ethiopic_local : local_to ["review_text"] no_ethiopic_text.
Proof.
  intros r r' Hsame Hr. unfold no_ethiopic_text.
  rewrite (at_local _ r r') by (apply Hsame; in_list). done.
Qed.

Lemma rating_local : local_to ["rating"] rating_ok.
Proof.
  intros r r' Hsame (z & Hz & Hr). exists z. rewrite Hsame by in_list. done.
Qed.

Lemma cleaned_consistent d :
  "review_text" ∈ columns d → text_length_consistent (cleaned d).
Proof.
  intros Hin. split.
  - simpl. intros c Hc.
    apply elem_of_cons in Hc as [->|Hc];
      [|apply list_elem_of_singleton in Hc as ->];
      case_decide; try done; apply elem_of_app; [by left|right; in_list].
  - simpl. apply Forall_fmap, Forall_forall. intros r [Hlen (r0 & -> & _)%list_elem_of_fmap]%list_elem_of_filter.
    exists (clean_review_text (at_ "review_text" r0)). simpl.
    rewrite lookup_insert_eq, lookup_insert_ne, lookup_insert_eq by done.
    split; [done|]. unfold at_ at 1. by rewrite lookup_insert_eq.
Qed.

Lemma missing_labels_nil labels d : missing_labels labels d = [] → labels ⊆ columns d.
Proof.
  unfold missing_labels. intros H c Hc.
  destruct (decide (c ∈ columns d)) as [|Hn]; [done|].
  exfalso. by apply (filter_nil_not_elem_of _ _ c H Hn).
Qed.

Lemma filled_inv need P c v d :
  local_to need P → c ∉ need → table_inv need P d → table_inv need P (filled c v d).
Proof.
  intros HP Hc Hd. unfold filled. case_decide; [|done]. by apply table_inv_setitem.
Qed.

Lemma at_not_null c (r : row) : at_ c r ≠ VNull ↔ ∃ v, r !! c = Some v ∧ v ≠ VNull.
Proof.
  unfold at_. destruct (r !! c) as [v|]; simpl.
  - split; [by exists v|]. by intros (? & [= <-] & ?).
  - split; [done|]. by intros (? & ? & ?).
Qed.

Lemma resolved_critical d :
  missing_labels critical_cols d = [] → critical_non_null (resolved d).
Proof.
  intros Hm. unfold resolved.
  repeat (apply filled_inv; [apply critical_local|unfold critical_cols; not_in_list|]).
  split; [by apply missing_labels_nil|].
  simpl. apply Forall_forall. intros r [Hr _]%list_elem_of_filter c Hc.
  apply at_not_null. by eapply (proj1 (Forall_forall _ _) Hr).
Qed.

Lemma cleaned_critical d : critical_non_null d → critical_non_null (cleaned d).
Proof.
  intros [Hcols Hrows]. split.
  - simpl. case_decide; [done|]. intros c Hc. apply elem_of_app. left. by apply Hcols.
  - simpl. apply Forall_fmap, Forall_forall.
    intros r [_ (r0 & -> & Hr0)%list_elem_of_fmap]%list_elem_of_filter c Hc.
    simpl. rewrite lookup_insert_ne by (intros <-; revert Hc; unfold critical_cols; not_in_list).
    destruct (decide (c = "review_text")) as [->|Hne].
    + rewrite lookup_insert_eq. by eexists.
    + rewrite lookup_insert_ne by done.
      by eapply (proj1 (Forall_forall _ _) Hrows).
Qed.

Lemma amharic_char_spec c : amharic_char c = true ↔ ethiopic c.
Proof. unfold amharic_char, ethiopic. by rewrite andb_true_iff, !N.leb_le. Qed.

Lemma contains_amharic_spec text :
  contains_amharic text = true ↔ ∃ c, c ∈ str text ∧ ethiopic c.
Proof.
  unfold contains_amharic. rewrite existsb_exists. split.
  - intros (c & Hc & Ha). exists c. split; [by apply list_elem_of_In|by apply amharic_char_spec].
  - intros (c & Hc & Ha). exists c. split; [by apply list_elem_of_In|by apply amharic_char_spec].
Qed.

Lemma english_spec r : english r ↔ no_ethiopic_text r.
Proof.
  unfold english, no_ethiopic_text. rewrite <- not_true_iff_false, contains_amharic_spec.
  split.
  - intros H c Hc He. apply H. by exists c.
  - intros H (c & Hc & He). by eapply H.
Qed.

Lemma english_only_no_ethiopic d :
  "review_text" ∈ columns d → no_ethiopic (english_only d).
Proof.
  intros Hin. split; [by intros c ->%list_elem_of_singleton|]. simpl. apply Forall_forall.
  intros r [Hr _]%list_elem_of_filter. by apply english_spec.
Qed.

End Establish.

(** ** Stages and invariants *)

Section Stages.

Variable need : list string.
Variable P : row → Prop.
Hypothesis P_local : local_to need P.
Hypothesis need_kept : need ⊆ output_columns.

Lemma tail_preserves d d8 :
  table_inv need P d →
  sort_values sort_keys (projected (validated (english_only (drop_duplicates d))))
  = Return d8 →
  table_inv need P d8.
Proof.
  intros Hd Hs. eapply table_inv_sort_values; [exact Hs|].
  apply table_inv_projected; [done|done|].
  eapply table_inv_sublist; [apply validated_sub|apply validated_sub|].
  eapply table_inv_sublist; [apply english_only_sub|apply english_only_sub|].
  eapply table_inv_sublist; [apply drop_duplicates_sub|apply drop_duplicates_sub|done].
Qed.

Lemma prepare_final_output_preserves s o s' :
  holds (table_inv need P) s → prepare_final_output s = (o, s') →
  holds (table_inv need P) s'.
Proof.
  intros (d & Hd & Hinv) [_ H]%prepare_final_output_spec. rewrite Hd in H.
  pose proof (table_inv_projected _ _ P_local d need_kept Hinv) as Hp.
  destruct (sort_values sort_keys (projected d)) as [d'|e] eqn:Hs;
    destruct H as [_ H].
  - exists d'. split; [done|]. by eapply table_inv_sort_values.
  - by exists (projected d).
Qed.

Lemma stage_beside_filter_preserves m s o s' :
  m ∈ stages_beside_filter →
  holds (table_inv need P) s → m s = (o, s') → holds (table_inv need P) s'.
Proof.
  unfold stages_beside_filter. rewrite !elem_of_cons, elem_of_nil.
  intros [->|[->|[->|[]]]] Hs Hrun;
    [| |by eapply prepare_final_output_preserves];
    destruct Hs as (d & Hd & Hinv).
  - apply remove_duplicates_spec in Hrun as [_ H]. rewrite Hd in H.
    destruct H as [_ H]. eexists. split; [done|].
    eapply table_inv_sublist; [apply drop_duplicates_sub|apply drop_duplicates_sub|done].
  - apply validate_ratings_spec in Hrun as [_ H]. rewrite Hd in H.
    repeat case_decide; destruct H as [_ H]; try by exists d.
    eexists. split; [done|].
    eapply table_inv_sublist; [apply validated_sub|apply validated_sub|done].
Qed.

Lemma filter_preserves s o s' :
  holds (table_inv need P) s → nrows s ≠ 0%nat →
  filter_non_english_reviews s = (o, s') → holds (table_inv need P) s'.
Proof.
  intros (d & Hd & Hinv) Hn [_ H]%filter_non_english_reviews_spec.
  unfold nrows in Hn. rewrite Hd in *.
  case_decide; destruct H as [_ H]; [|by exists d].
  rewrite script_filtered_records in H by (by destruct (rows d)).
  eexists. split; [done|].
  eapply table_inv_sublist; [apply english_only_sub|apply english_only_sub|done].
Qed.

Lemma stage_keeps_none m s o s' :
  m ∈ stages_after_cleaning → nrows s = 0%nat → m s = (o, s') → nrows s' = 0%nat.
Proof.
  unfold stages_after_cleaning, nrows. rewrite !elem_of_cons, elem_of_nil.
  intros [->|[->|[->|[->|[]]]]] Hn Hrun.
  - apply remove_duplicates_spec in Hrun as [_ H].
    destruct (df s) as [d|]; [|by rewrite H]. destruct H as [_ ->].
    apply length_zero_iff_nil in Hn. unfold drop_duplicates, duplicated. simpl.
    by rewrite Hn.
  - apply filter_non_english_reviews_spec in Hrun as [_ H].
    destruct (df s) as [d|]; [|by rewrite H].
    apply length_zero_iff_nil in Hn.
    case_decide; destruct H as [_ ->]; [|by rewrite Hn].
    by rewrite script_filtered_empty.
  - apply validate_ratings_spec in Hrun as [_ H].
    destruct (df s) as [d|]; [|by rewrite H].
    apply length_zero_iff_nil in Hn.
    repeat case_decide; destruct H as [_ ->]; try by rewrite Hn.
    pose proof (sublist_length _ _ (proj2 (validated_sub d))) as Hl.
    rewrite Hn in Hl. simpl in Hl. lia.
  - apply prepare_final_output_spec in Hrun as [_ H].
    destruct (df s) as [d|]; [|by rewrite H].
    destruct (sort_values sort_keys (projected d)) as [d'|e] eqn:Hs;
      destruct H as [_ ->].
    + apply sort_values_perm in Hs as [_ Hp]. by rewrite Hp, projected_length.
    + by rewrite projected_length.
Qed.

Lemma stage_after_cleaning_exact m s o s' :
  m ∈ stages_after_cleaning →
  holds (table_inv need P) s → m s = (o, s') →
  holds (table_inv need P) s' ∨
  (m = filter_non_english_reviews ∧ nrows s = 0%nat ∧ nrows s' = 0%nat).
Proof.
  intros Hm Hs Hrun. pose proof Hm as Hm'. revert Hm'.
  unfold stages_after_cleaning. rewrite !elem_of_cons, elem_of_nil.
  intros [->|[->|[->|[->|[]]]]].
  - left. eapply stage_beside_filter_preserves; [|done|done].
    unfold stages_beside_filter. in_list.
  - destruct (decide (nrows s = 0%nat)) as [Hn|Hn].
    + right. split_and!; [done|done|]. by eapply stage_keeps_none.
    + left. by eapply filter_preserves.
  - left. eapply stage_beside_filter_preserves; [|done|done].
    unfold stages_beside_filter. in_list.
  - left. by eapply prepare_final_output_preserves.
Qed.

Lemma stage_after_cleaning_preserves m s o s' :
  m ∈ stages_after_cleaning →
  holds (of_survivors (table_inv need P)) s → m s = (o, s') →
  holds (of_survivors (table_inv need P)) s'.
Proof.
  intros Hm (d & Hd & [Hr|Hinv]) Hrun.
  - assert (Hn : nrows s = 0%nat) by (unfold nrows; by rewrite Hd, Hr).
    pose proof (stage_keeps_none _ _ _ _ Hm Hn Hrun) as Hn'.
    unfold nrows in Hn'. destruct (df s') as [d'|] eqn:Hd'.
    + exists d'. split; [done|]. left. by apply length_zero_iff_nil.
    + exfalso. revert Hm Hrun Hd'.
      unfold stages_after_cleaning. rewrite !elem_of_cons, elem_of_nil.
      intros [->|[->|[->|[->|[]]]]] Hrun Hd'.
      * apply remove_duplicates_spec in Hrun as [_ H]. rewrite Hd in H.
        destruct H as [_ H]. congruence.
      * apply filter_non_english_reviews_spec in Hrun as [_ H]. rewrite Hd in H.
        case_decide; destruct H as [_ H]; congruence.
      * apply validate_ratings_spec in Hrun as [_ H]. rewrite Hd in H.
        repeat case_decide; destruct H as [_ H]; congruence.
      * apply prepare_final_output_spec in Hrun as [_ H]. rewrite Hd in H.
        destruct (sort_values _ _); destruct H as [_ H]; congruence.
  - assert (Hs : holds (table_inv need P) s) by (by exists d).
    destruct (stage_after_cleaning_exact _ _ _ _ Hm Hs Hrun)
      as [(d' & Hd' & Hinv')|(-> & Hn & Hn')].
    + exists d'. split; [done|]. by right.
    + assert (Hr : rows d = []).
      { unfold nrows in Hn. rewrite Hd in Hn. by apply length_zero_iff_nil. }
      unfold nrows in Hn'. destruct (df s') as [d'|] eqn:Hd'.
      * exists d'. split; [done|]. left. by apply length_zero_iff_nil.
      * exfalso. apply filter_non_english_reviews_spec in Hrun as [_ H].
        rewrite Hd in H. case_decide; destruct H as [_ H]; congruence.
Qed.

End Stages.

Section MoreFrames.

Lemma missing_labels_none labels d : labels ⊆ columns d → missing_labels labels d = [].
Proof.
  unfold missing_labels. induction labels as [|c l IH]; intros H; [done|].
  rewrite filter_cons_False.
  - apply IH. intros x Hx. apply H. by right.
  - intros Hn. apply Hn, H. by left.
Qed.

Lemma valid_rating_spec r : valid_rating r ↔ rating_ok r.
Proof.
  unfold valid_rating, rating_ok, at_.
  destruct (r !! "rating") as [[]|]; simpl; try (split; [done|by intros (? & [=] & ?)]).
  rewrite andb_true_iff, Z.geb_le, Z.leb_le. split.
  - intros ?. eexists. split; [done|lia].
  - intros (? & [= <-] & ?). lia.
Qed.

Lemma integer_rating d r :
  critical_non_null d → numbers (at_ "rating" <$> rows d) → r ∈ rows d →
  ∃ z, at_ "rating" r = VInt z.
Proof.
  intros [_ Hrows] Hnum Hr.
  assert (Hk : kind (at_ "rating" r) ≤ 1).
  { unfold numbers in Hnum. rewrite Forall_fmap, Forall_forall in Hnum. by apply Hnum. }
  assert (Hn : at_ "rating" r ≠ VNull).
  { apply at_not_null. rewrite Forall_forall in Hrows. apply Hrows; [done|].
    unfold critical_cols. in_list. }
  destruct (at_ "rating" r); simpl in Hk; try lia; [done|by eexists].
Qed.

Lemma filter_all {A} (Q : A → Prop) `{∀ x, Decision (Q x)} (l : list A) :
  Forall Q l → filter Q l = l.
Proof.
  induction 1 as [|x l Hx _ IH]; [done|]. by rewrite filter_cons_True, IH.
Qed.

Lemma validated_rows d :
  critical_non_null d → numbers (at_ "rating" <$> rows d) →
  rows (validated d) = filter valid_rating (rows d).
Proof.
  intros Hc Hn. unfold validated. case_decide as Hbad; [|done].
  symmetry. apply filter_all, Forall_forall. intros r Hr.
  pose proof (filter_nil_not_elem_of _ _ r Hbad) as Hgood.
  destruct (integer_rating d r Hc Hn Hr) as [z Hz].
  unfold valid_rating, invalid_rating in *. rewrite Hz in *. simpl in *.
  destruct (z <? 1) eqn:H1; [by destruct Hgood|].
  destruct (z >? 5) eqn:H5; [by destruct Hgood|].
  apply andb_true_iff. rewrite Z.geb_le, Z.leb_le. lia.
Qed.

Lemma validated_in_range d :
  "rating" ∈ columns d → critical_non_null d →
  numbers (at_ "rating" <$> rows d) → ratings_in_range (validated d).
Proof.
  intros Hin Hc Hn. split.
  - intros c ->%list_elem_of_singleton. by rewrite (proj1 (validated_sub d)).
  - rewrite validated_rows by done. apply Forall_forall.
    intros r [Hr _]%list_elem_of_filter. by apply valid_rating_spec.
Qed.

Lemma at_projected c d r :
  c ∈ final_columns d → at_ c (project_row (final_columns d) r) = at_ c r.
Proof.
  intros Hc. unfold at_, project_row. f_equal.
  destruct (r !! c) as [v|] eqn:Hv.
  - by apply map_lookup_filter_Some.
  - apply map_lookup_filter_None. by left.
Qed.

Lemma column_projected c d :
  c ∈ final_columns d → at_ c <$> rows (projected d) = at_ c <$> rows d.
Proof.
  intros Hc. simpl. rewrite <- list_fmap_compose. apply list_fmap_ext.
  intros i r _. by apply at_projected.
Qed.

Lemma final_columns_has c d : c ∈ output_columns → c ∈ columns d → c ∈ final_columns d.
Proof. intros. by apply list_elem_of_filter. Qed.

End MoreFrames.

Lemma text_columns_kept : ["review_text"; "text_length"] ⊆ output_columns.
Proof. unfold output_columns. sub_list. Qed.

Lemma critical_cols_kept : critical_cols ⊆ output_columns.
Proof. unfold critical_cols, output_columns. sub_list. Qed.

Lemma review_text_kept : ["review_text"] ⊆ output_columns.
Proof. unfold output_columns. sub_list. Qed.

Lemma rating_kept : ["rating"] ⊆ output_columns.
Proof. unfold output_columns. sub_list. Qed.

Lemma critical_not_dates c : c ∈ critical_cols → c ∉ date_columns.
Proof.
  unfold critical_cols, date_columns. intros Hc Hd.
  repeat (apply elem_of_cons in Hc as [->|Hc]);
    try (by apply elem_of_nil in Hc);
    repeat (apply elem_of_cons in Hd as [?|Hd]); try done;
    by apply elem_of_nil in Hd.
Qed.

(** * Properties of the specification *)

Section Pipeline.

Variable read_csv : string → outcome DataFrame.
Variable to_csv : string → DataFrame → outcome unit.
Variable to_datetime : list cell → outcome (list cell).
Variable series_min series_max : list cell → outcome cell.
Variable describe : DataFrame → outcome (list line).

Local Abbreviation run :=
  (process read_csv to_csv to_datetime series_min series_max describe).

(** C4. After the Text Cleaner ([clean_text]) runs, every record has
    [text_length] equal to the number of characters of its [review_text]:
    on a table with a record the stage returns and establishes this, and it
    has established it whenever it returns. The Deduplicator, the Script
    Filter, the Rating Validator and the Finalizer keep it of the surviving
    records, whatever their outcome; they keep the two columns as well,
    except the Script Filter on a table left without records. It holds of
    the table a successful run of the pipeline ends with. *)
Theorem text_length_consistency :
  (∀ s d, df s = Some d → "review_text" ∈ columns d → rows d ≠ [] →
     ∃ s', clean_text s = (Return tt, s') ∧ holds text_length_consistent s') ∧
  (∀ s d s', df s = Some d → clean_text s = (Return tt, s') →
     holds text_length_consistent s') ∧
  (∀ m s o s', m ∈ stages_after_cleaning →
     holds (of_survivors text_length_consistent) s → m s = (o, s') →
     holds (of_survivors text_length_consistent) s') ∧
  (∀ m s o s', m ∈ stages_after_cleaning →
     holds text_length_consistent s → m s = (o, s') →
     holds text_length_consistent s' ∨
     (m = filter_non_english_reviews ∧ nrows s = 0%nat ∧ nrows s' = 0%nat)) ∧
  (∀ s s', run s = (Return true, s') → holds text_length_consistent s').
Proof.
  assert (Hclean : ∀ s d s', df s = Some d → clean_text s = (Return tt, s') →
            holds text_length_consistent s').
  { intros s d s' Hd [_ H]%clean_text_spec. rewrite Hd in H.
    case_decide; destruct H as [Ho H]; [|done].
    exists (cleaned d). split; [done|]. by apply cleaned_consistent. }
  split_and!.
  - intros s d Hd Hin _. destruct (clean_text s) as [o s'] eqn:Hrun.
    pose proof Hrun as [_ H]%clean_text_spec. rewrite Hd, decide_True in H by done.
    destruct H as [-> _]. exists s'. split; [done|]. by eapply Hclean.
  - exact Hclean.
  - intros m s o s'.
    apply (stage_after_cleaning_preserves _ _ text_length_local text_columns_kept).
  - intros m s o s'.
    apply (stage_after_cleaning_exact _ _ text_length_local text_columns_kept).
  - intros s s' (d0 & d3 & d8 & _ & _ & _ & Htext & _ & Hsort & Hdf & _)%process_run.
    exists d8. split; [done|].
    eapply (tail_preserves _ _ text_length_local text_columns_kept); [|exact Hsort].
    by apply cleaned_consistent.
Qed.

(** C6. After the Missing-Value Resolver ([handle_missing_values]) runs,
    every record has non-null [review_text], [rating] and [bank_name]; the
    Date Normalizer and the Text Cleaner keep this, whatever their outcome;
    the four later stages keep it of the surviving records, whatever their
    outcome, and keep the three columns as well, except the Script Filter
    on a table left without records. It holds of the table a successful run
    of the pipeline ends with. *)
Theorem critical_fields_non_null :
  (∀ s d, df s = Some d → critical_cols ⊆ columns d →
     ∃ s', handle_missing_values s = (Return tt, s') ∧ holds critical_non_null s') ∧
  (∀ s o s', holds critical_non_null s →
     normalize_dates to_datetime series_min series_max s = (o, s') →
     holds critical_non_null s') ∧
  (∀ s o s', holds critical_non_null s → clean_text s = (o, s') →
     holds critical_non_null s') ∧
  (∀ m s o s', m ∈ stages_after_cleaning →
     holds (of_survivors critical_non_null) s → m s = (o, s') →
     holds (of_survivors critical_non_null) s') ∧
  (∀ m s o s', m ∈ stages_after_cleaning →
     holds critical_non_null s → m s = (o, s') →
     holds critical_non_null s' ∨
     (m = filter_non_english_reviews ∧ nrows s = 0%nat ∧ nrows s' = 0%nat)) ∧
  (∀ s s', run s = (Return true, s') → holds critical_non_null s').
Proof.
  pose proof critical_not_dates as Hdates.
  split_and!.
  - intros s d Hd Hin. destruct (handle_missing_values s) as [o s'] eqn:Hrun.
    apply handle_missing_values_spec in Hrun as [_ H].
    rewrite Hd, (missing_labels_none _ _ Hin) in H. destruct H as [-> H].
    exists s'. split; [done|]. exists (resolved d). split; [done|].
    by apply resolved_critical, missing_labels_none.
  - intros s o s' (d & Hd & Hinv) (_ & _ & H)%normalize_dates_spec.
    rewrite Hd in H. destruct H as (d' & Hd' & Hupd). exists d'. split; [done|].
    eapply table_inv_date_update; [apply critical_local|exact Hdates|done|done].
  - intros s o s' (d & Hd & Hinv) [_ H]%clean_text_spec. rewrite Hd in H.
    case_decide; destruct H as [_ H]; [|by exists d].
    exists (cleaned d). split; [done|]. by apply cleaned_critical.
  - intros m s o s'.
    apply (stage_after_cleaning_preserves _ _ critical_local critical_cols_kept).
  - intros m s o s'.
    apply (stage_after_cleaning_exact _ _ critical_local critical_cols_kept).
  - intros s s' (d0 & d3 & d8 & _ & Hmiss & Hupd & _ & _ & Hsort & Hdf & _)%process_run.
    exists d8. split; [done|].
    eapply (tail_preserves _ _ critical_local critical_cols_kept); [|exact Hsort].
    apply cleaned_critical.
    eapply table_inv_date_update;
      [apply critical_local|exact Hdates|exact Hupd|by apply resolved_critical].
Qed.

(** C7. [contains_amharic] holds exactly of the texts with a character in
    U+1200..U+137F. On a table with a record the Script Filter
    ([filter_non_english_reviews]) returns, keeps the columns and keeps
    exactly the records whose [review_text] has no such character, in their
    order; whenever it returns, also on a table without records, the
    records it leaves are exactly those, and none of them has such a
    character. The Rating Validator and the Finalizer keep this, of the
    table and of the surviving records, whatever their outcome, and so it
    holds of the final table. *)
Theorem script_filter_no_ethiopic :
  (∀ text, contains_amharic text = true ↔ ∃ c, c ∈ str text ∧ ethiopic c) ∧
  (∀ s d, df s = Some d → "review_text" ∈ columns d → rows d ≠ [] →
     ∃ s' d', filter_non_english_reviews s = (Return tt, s') ∧
              df s' = Some d' ∧ columns d' = columns d ∧
              rows d' = filter (λ r, contains_amharic (at_ "review_text" r) = false) (rows d) ∧
              no_ethiopic d') ∧
  (∀ s d s', df s = Some d → filter_non_english_reviews s = (Return tt, s') →
     ∃ d', df s' = Some d' ∧
           rows d' = filter (λ r, contains_amharic (at_ "review_text" r) = false) (rows d) ∧
           Forall no_ethiopic_text (rows d') ∧
           of_survivors no_ethiopic d') ∧
  (∀ m s o s', m ∈ [validate_ratings; prepare_final_output] →
     holds no_ethiopic s → m s = (o, s') → holds no_ethiopic s') ∧
  (∀ m s o s', m ∈ [validate_ratings; prepare_final_output] →
     holds (of_survivors no_ethiopic) s → m s = (o, s') →
     holds (of_survivors no_ethiopic) s') ∧
  (∀ s s', run s = (Return true, s') → holds no_ethiopic s').
Proof.
  split_and!.
  - apply contains_amharic_spec.
  - intros s d Hd Hin Hrows. destruct (filter_non_english_reviews s) as [o s'] eqn:Hrun.
    apply filter_non_english_reviews_spec in Hrun as [_ H].
    rewrite Hd, decide_True in H by done. destruct H as [-> H].
    rewrite script_filtered_records in H by done.
    exists s', (english_only d). split_and!; try done.
    by apply english_only_no_ethiopic.
  - intros s d s' Hd [_ H]%filter_non_english_reviews_spec. rewrite Hd in H.
    case_decide as Hin; destruct H as [Ho H]; [|done].
    exists (script_filtered d). split; [done|].
    destruct (rows d) as [|r l] eqn:Hrows.
    + rewrite script_filtered_empty by done. split_and!; [done|constructor|by left].
    + rewrite script_filtered_records by (by rewrite Hrows).
      pose proof (english_only_no_ethiopic d Hin) as Hinv.
      split_and!; [by rewrite <- Hrows|apply Hinv|by right].
  - intros m s o s' Hm.
    apply (stage_beside_filter_preserves _ _ no_ethiopic_local review_text_kept).
    unfold stages_beside_filter.
    repeat (apply elem_of_cons in Hm as [->|Hm]; [in_list|]).
    by apply elem_of_nil in Hm.
  - intros m s o s' Hm.
    apply (stage_after_cleaning_preserves _ _ no_ethiopic_local review_text_kept).
    unfold stages_after_cleaning.
    repeat (apply elem_of_cons in Hm as [->|Hm]; [in_list|]).
    by apply elem_of_nil in Hm.
  - intros s s' (d0 & d3 & d8 & _ & _ & _ & Htext & _ & Hsort & Hdf & _)%process_run.
    exists d8. split; [done|].
    eapply table_inv_sort_values; [exact Hsort|].
    apply table_inv_projected; [apply no_ethiopic_local|apply review_text_kept|].
    eapply table_inv_sublist; [apply validated_sub|apply validated_sub|].
    apply english_only_no_ethiopic. simpl.
    case_decide; [done|]. apply elem_of_app. by left.
Qed.

(** C8. On a table whose critical fields are non-null (as the
    Missing-Value Resolver leaves it) and whose ratings are numbers, the
    Rating Validator ([validate_ratings]) keeps exactly the records with
    [1 <= rating <= 5], in their order; afterwards every rating is in
    that range, the Finalizer keeps this, and so it holds of the final
    table. *)
Theorem rating_validator_bounds :
  (∀ r, valid_rating r ↔ rating_ok r) ∧
  (∀ s d, df s = Some d → "rating" ∈ columns d → critical_non_null d →
     numbers (at_ "rating" <$> rows d) →
     ∃ s' d', validate_ratings s = (Return tt, s') ∧
              df s' = Some d' ∧ columns d' = columns d ∧
              rows d' = filter valid_rating (rows d) ∧
              ratings_in_range d') ∧
  (∀ s o s', holds ratings_in_range s → prepare_final_output s = (o, s') →
     holds ratings_in_range s') ∧
  (∀ s s', run s = (Return true, s') → holds ratings_in_range s').
Proof.
  pose proof rating_kept as Hout.
  split_and!.
  - apply valid_rating_spec.
  - intros s d Hd Hin Hc Hn. destruct (validate_ratings s) as [o s'] eqn:Hrun.
    apply validate_ratings_spec in Hrun as [_ H].
    rewrite Hd, !decide_True in H by done. destruct H as [-> H].
    exists s', (validated d). split_and!; try done.
    + apply validated_sub.
    + by apply validated_rows.
    + by apply validated_in_range.
  - intros s o s'. apply prepare_final_output_preserves; [apply rating_local|done].
  - intros s s' (d0 & d3 & d8 & _ & Hmiss & Hupd & Htext & Hnum & Hsort & Hdf & _)%process_run.
    exists d8. split; [done|].
    eapply table_inv_sort_values; [exact Hsort|].
    apply table_inv_projected; [apply rating_local|done|].
    assert (Hcrit : critical_non_null (english_only (drop_duplicates (cleaned d3)))).
    { eapply table_inv_sublist; [apply english_only_sub|apply english_only_sub|].
      eapply table_inv_sublist; [apply drop_duplicates_sub|apply drop_duplicates_sub|].
      apply cleaned_critical. eapply table_inv_date_update;
        [apply critical_local|apply critical_not_dates|exact Hupd
        |by apply resolved_critical]. }
    apply validated_in_range; [|done|done].
    apply (proj1 Hcrit). unfold critical_cols. in_list.
Qed.

End Pipeline.

Section Sorting.

Lemma key_compare_non_null a b :
  a ≠ VNull → b ≠ VNull →
  (ascending a b ↔ cell_le a b) ∧ (descending a b ↔ cell_le b a).
Proof. unfold ascending, descending, cell_le. by destruct a, b. Qed.

Lemma key_compare_null_last asc a : a ≠ VNull → key_compare asc a VNull = Lt.
Proof. by destruct asc, a. Qed.

Lemma row_compare_sort_keys a b :
  row_compare sort_keys a b ≠ Gt ↔
  ascending (at_ "bank_code" a) (at_ "bank_code" b) ∧
  (at_ "bank_code" a = at_ "bank_code" b →
   descending (at_ "review_date" a) (at_ "review_date" b)).
Proof.
  unfold ascending, descending. simpl.
  pose proof (key_compare_eq true (at_ "bank_code" a) (at_ "bank_code" b)) as He.
  destruct (key_compare true (at_ "bank_code" a) (at_ "bank_code" b)).
  - destruct (key_compare false _ _); split; try done; intros [_ H]; by apply H, He.
  - split; [|done]. intros _. split; [done|]. intros H%He. done.
  - split; [done|]. by intros [? _].
Qed.

Lemma same_keys_spec k r : row_compare sort_keys k r = Eq ↔ same_keys k r.
Proof.
  rewrite row_compare_eq. unfold sort_keys, same_keys.
  rewrite !Forall_cons. simpl. split.
  - by intros (-> & -> & _).
  - intros [-> ->]. by split_and!.
Qed.

Lemma check_keys_sort_keys d :
  "bank_code" ∈ columns d → "review_date" ∈ columns d →
  same_kind (at_ "bank_code" <$> rows d) = true →
  same_kind (at_ "review_date" <$> rows d) = true →
  check_keys sort_keys d = Return tt.
Proof.
  intros Hb Hd Hkb Hkd. simpl. rewrite !getitem_in by done. by rewrite Hkb, Hkd.
Qed.

Lemma check_keys_missing d :
  "bank_code" ∉ columns d → check_keys sort_keys d = Raise (KeyError ["bank_code"]).
Proof. intros Hb. simpl. by rewrite getitem_out. Qed.

End Sorting.

(** C5. The Deduplicator ([remove_duplicates]) marks a record exactly when
    an identical record (equal in every column) stands earlier in the table
    and keeps the unmarked ones in their order; afterwards no two records
    are identical and every record of the input still has a copy. *)
Theorem remove_duplicates_first_occurrence s d :
  df s = Some d →
  ∃ s' d', remove_duplicates s = (Return tt, s') ∧ df s' = Some d' ∧
    columns d' = columns d ∧
    length (duplicated d) = length (rows d) ∧
    (∀ i r, rows d !! i = Some r →
       duplicated d !! i = Some true ↔ ∃ j, (j < i)%nat ∧ rows d !! j = Some r) ∧
    rows d' = select (negb <$> duplicated d) (rows d) ∧
    rows d' `sublist_of` rows d ∧
    NoDup (rows d') ∧
    (∀ r, r ∈ rows d' ↔ r ∈ rows d).
Proof.
  intros Hd. destruct (remove_duplicates s) as [o s'] eqn:Hrun.
  apply remove_duplicates_spec in Hrun as [_ H]. rewrite Hd in H. destruct H as [-> H].
  exists s', (drop_duplicates d). split_and!; [done|done|done| | |done| | |].
  - apply duplicated_from_length.
  - intros i r Hr.
    destruct (duplicated d !! i) as [b|] eqn:Hb.
    + pose proof (duplicated_from_lookup [] _ _ _ _ Hr Hb) as Hiff.
      split.
      * intros [= ->]. destruct (proj1 Hiff eq_refl) as [?%elem_of_nil|?]; done.
      * intros Hj. f_equal. apply Hiff. by right.
    + apply lookup_ge_None in Hb. apply lookup_lt_Some in Hr.
      unfold duplicated in Hb. rewrite duplicated_from_length in Hb. lia.
  - apply select_sublist.
  - apply (select_unseen [] (rows d)).
  - intros r. destruct (select_unseen [] (rows d)) as [_ Hin].
    unfold drop_duplicates, boolean_index, duplicated. simpl. rewrite Hin.
    split; [by intros [? _]|]. intros ?. split; [done|]. apply not_elem_of_nil.
Qed.

(** C3. When the Finalizer ([prepare_final_output]) returns, which it does
    on a table that has the [bank_code] and [review_date] columns with
    comparable cells, its output is sorted with [bank_code] non-decreasing
    and, among records with equal [bank_code], [review_date]
    non-increasing (nulls last in both); records that tie on both keys keep
    their original relative order, and the output is a permutation of the
    projected input. *)
Theorem final_output_sorted :
  (∀ s d, df s = Some d →
     "bank_code" ∈ columns d → "review_date" ∈ columns d →
     same_kind (at_ "bank_code" <$> rows d) = true →
     same_kind (at_ "review_date" <$> rows d) = true →
     ∃ s', prepare_final_output s = (Return tt, s')) ∧
  (∀ s s' d, df s = Some d → prepare_final_output s = (Return tt, s') →
     ∃ d', df s' = Some d' ∧
       (∀ i j a b, (i < j)%nat → rows d' !! i = Some a → rows d' !! j = Some b →
          ascending (at_ "bank_code" a) (at_ "bank_code" b) ∧
          (at_ "bank_code" a = at_ "bank_code" b →
           descending (at_ "review_date" a) (at_ "review_date" b))) ∧
       (∀ k, filter (same_keys k) (rows d') = filter (same_keys k) (rows (projected d))) ∧
       rows d' ≡ₚ rows (projected d)) ∧
  (∀ a b, a ≠ VNull → b ≠ VNull →
     (ascending a b ↔ cell_le a b) ∧ (descending a b ↔ cell_le b a)) ∧
  (∀ a, a ≠ VNull → ascending a VNull ∧ descending a VNull).
Proof.
  split_and!.
  - intros s d Hd Hb Hdt Hkb Hkd.
    destruct (prepare_final_output s) as [o s'] eqn:Hrun. exists s'.
    apply prepare_final_output_spec in Hrun as [_ H]. rewrite Hd in H.
    unfold sort_values in H. rewrite check_keys_sort_keys in H.
    + by destruct H as [-> _].
    + apply final_columns_has; [unfold output_columns; in_list|done].
    + apply final_columns_has; [unfold output_columns; in_list|done].
    + rewrite column_projected; [done|].
      apply final_columns_has; [unfold output_columns; in_list|done].
    + rewrite column_projected; [done|].
      apply final_columns_has; [unfold output_columns; in_list|done].
  - intros s s' d Hd Hrun.
    apply prepare_final_output_spec in Hrun as [_ H]. rewrite Hd in H.
    unfold sort_values in H.
    destruct (check_keys sort_keys (projected d)) as [[]|]; [|by destruct H].
    destruct H as [_ H]. eexists. split; [exact H|]. cbn [rows]. split_and!.
    + intros i j a b Hij Ha Hb. apply row_compare_sort_keys.
      by eapply (stable_sort_in_order sort_keys).
    + intros k.
      rewrite <- (list_filter_iff _ _ _ (same_keys_spec k)).
      rewrite <- (list_filter_iff _ _ (rows (projected d)) (same_keys_spec k)).
      apply stable_sort_stable.
    + apply stable_sort_perm.
  - apply key_compare_non_null.
  - intros a Ha. unfold ascending, descending.
    by rewrite !key_compare_null_last.
Qed.

Section Counts.

Lemma retention_rate_bound final original :
  0 ≤ final ≤ original → 0 < original →
  (retention_rate final original <= 100)%Q.
Proof.
  intros Hf Ho. unfold retention_rate, percent.
  assert (H : (inject_Z final / inject_Z original <= 1)%Q).
  { apply Qle_shift_div_r.
    - change 0%Q with (inject_Z 0). by rewrite <- Zlt_Qlt.
    - rewrite Qmult_1_l. rewrite <- Zle_Qle. lia. }
  apply Qle_trans with (1 * 100)%Q; [|by vm_compute].
  apply Qmult_le_compat_r; [exact H|by vm_compute].
Qed.

End Counts.

Section Dates.

Variable to_datetime : list cell → outcome (list cell).
Variable series_min series_max : list cell → outcome cell.

(** C2. When parsing the [review_date] column fails (the parser raises
    [e]), the Date Normalizer ([normalize_dates]) returns normally, has
    printed a warning, and leaves the table and the statistics exactly as
    they were: no column is added, changed or removed. *)
Theorem normalize_dates_parse_failure s d e :
  df s = Some d → "review_date" ∈ columns d →
  to_datetime (at_ "review_date" <$> rows d) = Raise e →
  normalize_dates to_datetime series_min series_max s
  = (Return tt,
     mkRP (input_path s) (output_path s) (Some d) (stats s)
       (stdout s ++ date_warning e)).
Proof.
  destruct s as [ip op d0 st out]. cbn [df input_path output_path stats stdout].
  intros -> Hin Hparse.
  rewrite (run_eta (normalize_dates _ _ _)).
  unfold normalize_dates, column, assign. exec. rewrite Hparse. exec.
  unfold ret, date_warning. by rewrite <- app_assoc.
Qed.

End Dates.

Section Totals.

Variable read_csv : string → outcome DataFrame.
Variable to_csv : string → DataFrame → outcome unit.
Variable to_datetime : list cell → outcome (list cell).
Variable series_min series_max : list cell → outcome cell.
Variable describe : DataFrame → outcome (list line).

Lemma nrows_some s d : df s = Some d → nrows s = length (rows d).
Proof. unfold nrows. by intros ->. Qed.

Lemma stage_count m s o s' :
  m ∈ stages to_datetime series_min series_max → m s = (o, s') →
  (nrows s' ≤ nrows s)%nat.
Proof.
  unfold stages. intros Hm Hrun. unfold nrows.
  repeat (apply elem_of_cons in Hm as [->|Hm]); [..|by apply elem_of_nil in Hm].
  - apply check_missing_data_spec in Hrun as [_ ->]. done.
  - apply handle_missing_values_spec in Hrun as [_ H].
    destruct (df s) as [d|]; [|by rewrite H].
    destruct (missing_labels critical_cols d); destruct H as [_ ->]; [|done].
    apply resolved_length.
  - apply normalize_dates_spec in Hrun as (_ & _ & H).
    destruct (df s) as [d|]; [|by rewrite H].
    destruct H as (d' & -> & Hupd). by rewrite (date_update_length _ _ Hupd).
  - apply clean_text_spec in Hrun as [_ H].
    destruct (df s) as [d|]; [|by rewrite H].
    case_decide; destruct H as [_ ->]; [|done]. apply cleaned_length.
  - apply remove_duplicates_spec in Hrun as [_ H].
    destruct (df s) as [d|]; [|by rewrite H]. destruct H as [_ ->].
    apply sublist_length, drop_duplicates_sub.
  - apply filter_non_english_reviews_spec in Hrun as [_ H].
    destruct (df s) as [d|]; [|by rewrite H].
    case_decide; destruct H as [_ ->]; [|done].
    apply sublist_length, script_filtered_sublist.
  - apply validate_ratings_spec in Hrun as [_ H].
    destruct (df s) as [d|]; [|by rewrite H].
    repeat case_decide; destruct H as [_ ->]; try done.
    apply sublist_length, validated_sub.
  - apply prepare_final_output_spec in Hrun as [_ H].
    destruct (df s) as [d|]; [|by rewrite H].
    destruct (sort_values sort_keys (projected d)) as [d'|e] eqn:Hs;
      destruct H as [_ ->].
    + apply sort_values_perm in Hs as [_ Hp]. rewrite Hp.
      by rewrite projected_length.
    + by rewrite projected_length.
Qed.

(** C10. No stage from the Missing-Data Auditor to the Finalizer adds a
    record, whatever its outcome; after a successful run the final count
    is at most the original count and the retention rate is at most 100
    percent. *)
Theorem record_count_never_grows :
  (∀ m s o s', m ∈ stages to_datetime series_min series_max → m s = (o, s') →
     (nrows s' ≤ nrows s)%nat) ∧
  (∀ s s',
     process read_csv to_csv to_datetime series_min series_max describe s
     = (Return true, s') →
     ∃ original final,
       stats s' !! "original_count" = Some (Count original) ∧
       stats s' !! "final_count" = Some (Count final) ∧
       final = Z.of_nat (nrows s') ∧
       0 ≤ final ≤ original ∧
       (0 < original → (retention_rate final original <= 100)%Q)).
Proof.
  split; [apply stage_count|].
  intros s s' (d0 & d3 & d8 & _ & _ & Hupd & _ & _ & Hsort & Hdf & Ho & Hf)%process_run.
  exists (len d0), (len d8).
  assert (Hle : 0 ≤ len d8 ≤ len d0).
  { unfold len. split; [lia|]. apply inj_le.
    apply sort_values_perm in Hsort as [_ Hp]. rewrite Hp, projected_length.
    etrans; [apply sublist_length, validated_sub|].
    etrans; [apply sublist_length, english_only_sub|].
    etrans; [apply sublist_length, drop_duplicates_sub|].
    etrans; [apply cleaned_length|].
    rewrite (date_update_length _ _ Hupd). apply resolved_length. }
  split_and!; [done|done| |lia|lia|].
  - by rewrite (nrows_some _ _ Hdf).
  - intros Hpos. by apply retention_rate_bound.
Qed.

End Totals.

(** * Runs on the sample tables *)

Ltac by_compute :=
  match goal with |- ?P => apply (@bool_decide_unpack P _) end; vm_compute; exact I.

Lemma prepare_final_output_missing_key s d :
  df s = Some d → "bank_code" ∉ columns d →
  ∃ s', prepare_final_output s = (Raise (KeyError ["bank_code"]), s') ∧
        df s' = Some (projected d).
Proof.
  intros Hd Hb. destruct (prepare_final_output s) as [o s'] eqn:Hrun. exists s'.
  apply prepare_final_output_spec in Hrun as [_ H]. rewrite Hd in H.
  unfold sort_values in H. rewrite check_keys_missing in H; [by destruct H as [-> ?]|].
  intros [? _]%list_elem_of_filter. done.
Qed.

(** C1. On a table with the critical columns but without [bank_code] the
    Finalizer ([prepare_final_output]) does not complete: the sort on
    [bank_code] raises [KeyError], and so does the whole pipeline. *)
Theorem prepare_final_output_needs_bank_code :
  (prepare_final_output (Sample.fresh Sample.no_bank_code)).1
  = Raise (KeyError ["bank_code"]) ∧
  (Sample.run_process Sample.no_bank_code).1 = Raise (KeyError ["bank_code"]).
Proof. split; vm_compute; reflexivity. Qed.

Lemma normalize_dates_parse_failure_witness :
  normalize_dates Sample.to_datetime Sample.series_min Sample.series_max
    (Sample.fresh Sample.bad_dates)
  = (Return tt,
     mkRP "in.csv" "out/reviews.csv" (Some Sample.bad_dates) ∅ (date_warning ValueError)).
Proof.
  apply (normalize_dates_parse_failure Sample.to_datetime Sample.series_min
           Sample.series_max (Sample.fresh Sample.bad_dates) Sample.bad_dates ValueError).
  - reflexivity.
  - by_compute.
  - vm_compute. reflexivity.
Defined.

Lemma remove_duplicates_first_occurrence_witness :
  ∃ s' d', remove_duplicates (Sample.fresh Sample.raw) = (Return tt, s') ∧
           df s' = Some d' ∧ length (rows d') = 9%nat ∧ NoDup (rows d').
Proof.
  destruct (remove_duplicates_first_occurrence (Sample.fresh Sample.raw) Sample.raw)
    as (s' & d' & Hrun & Hdf & _ & _ & _ & Hrows & _ & Hnd & _).
  - reflexivity.
  - exists s', d'. split_and!; [done|done| |done].
    rewrite Hrows. vm_compute. reflexivity.
Defined.

Lemma final_output_sorted_witness :
  (∃ s', prepare_final_output (Sample.fresh Sample.raw) = (Return tt, s')) ∧
  ∃ d', df (prepare_final_output (Sample.fresh Sample.raw)).2 = Some d' ∧
        rows d' ≡ₚ rows (projected Sample.raw).
Proof.
  split.
  - apply (proj1 final_output_sorted (Sample.fresh Sample.raw) Sample.raw).
    + reflexivity.
    + by_compute.
    + by_compute.
    + vm_compute. reflexivity.
    + vm_compute. reflexivity.
  - destruct (proj1 (proj2 final_output_sorted) (Sample.fresh Sample.raw)
                (prepare_final_output (Sample.fresh Sample.raw)).2 Sample.raw)
      as (d' & Hdf & _ & _ & Hperm).
    + reflexivity.
    + vm_compute. reflexivity.
    + exists d'. split; [exact Hdf|exact Hperm].
Defined.

Abbreviation sample_process :=
  (process (Sample.read_csv "in.csv" Sample.raw) Sample.to_csv Sample.to_datetime
     Sample.series_min Sample.series_max Sample.describe).

Abbreviation sample_start := (mkRP "in.csv" "out/reviews.csv" None ∅ []).

Lemma sample_process_returns :
  sample_process sample_start = (Return true, (Sample.run_process Sample.raw).2).
Proof. vm_compute. reflexivity. Defined.

Lemma text_length_consistency_witness :
  (∃ s', clean_text (Sample.fresh Sample.raw) = (Return tt, s') ∧
         holds text_length_consistent s') ∧
  holds text_length_consistent (Sample.run_process Sample.raw).2.
Proof.
  split.
  - apply (proj1 (text_length_consistency (Sample.read_csv "in.csv" Sample.raw)
                    Sample.to_csv Sample.to_datetime Sample.series_min
                    Sample.series_max Sample.describe)
             (Sample.fresh Sample.raw) Sample.raw).
    + reflexivity.
    + by_compute.
    + by_compute.
  - apply (proj2 (proj2 (proj2 (proj2
             (text_length_consistency (Sample.read_csv "in.csv" Sample.raw)
                Sample.to_csv Sample.to_datetime Sample.series_min
                Sample.series_max Sample.describe)))) sample_start).
    apply sample_process_returns.
Defined.

Lemma critical_fields_non_null_witness :
  (∃ s', handle_missing_values (Sample.fresh Sample.raw) = (Return tt, s') ∧
         holds critical_non_null s') ∧
  holds critical_non_null (Sample.run_process Sample.raw).2.
Proof.
  split.
  - apply (proj1 (critical_fields_non_null (Sample.read_csv "in.csv" Sample.raw)
                    Sample.to_csv Sample.to_datetime Sample.series_min
                    Sample.series_max Sample.describe)
             (Sample.fresh Sample.raw) Sample.raw).
    + reflexivity.
    + unfold critical_cols. sub_list.
  - apply (proj2 (proj2 (proj2 (proj2 (proj2
             (critical_fields_non_null (Sample.read_csv "in.csv" Sample.raw)
                Sample.to_csv Sample.to_datetime Sample.series_min
                Sample.series_max Sample.describe))))) sample_start).
    apply sample_process_returns.
Defined.

Lemma script_filter_no_ethiopic_witness :
  (∃ s' d', filter_non_english_reviews (Sample.fresh Sample.raw) = (Return tt, s') ∧
            df s' = Some d' ∧ no_ethiopic d') ∧
  holds no_ethiopic (Sample.run_process Sample.raw).2.
Proof.
  split.
  - destruct (proj1 (proj2 (script_filter_no_ethiopic (Sample.read_csv "in.csv" Sample.raw)
                    Sample.to_csv Sample.to_datetime Sample.series_min
                    Sample.series_max Sample.describe))
             (Sample.fresh Sample.raw) Sample.raw)
      as (s' & d' & Hrun & Hdf & _ & _ & Hinv).
    + reflexivity.
    + by_compute.
    + by_compute.
    + exists s', d'. split; [exact Hrun|]. split; [exact Hdf|exact Hinv].
  - apply (proj2 (proj2 (proj2 (proj2 (proj2
             (script_filter_no_ethiopic (Sample.read_csv "in.csv" Sample.raw)
                Sample.to_csv Sample.to_datetime Sample.series_min
                Sample.series_max Sample.describe))))) sample_start).
    apply sample_process_returns.
Defined.

Lemma rating_validator_bounds_witness :
  holds ratings_in_range (Sample.run_process Sample.raw).2.
Proof.
  apply (proj2 (proj2 (proj2
           (rating_validator_bounds (Sample.read_csv "in.csv" Sample.raw)
              Sample.to_csv Sample.to_datetime Sample.series_min
              Sample.series_max Sample.describe))) sample_start).
  apply sample_process_returns.
Defined.

Lemma record_count_never_grows_witness :
  (nrows (clean_text (Sample.fresh Sample.raw)).2 ≤ nrows (Sample.fresh Sample.raw))%nat ∧
  ∃ original final,
    stats (Sample.run_process Sample.raw).2 !! "original_count" = Some (Count original) ∧
    stats (Sample.run_process Sample.raw).2 !! "final_count" = Some (Count final) ∧
    0 ≤ final ≤ original.
Proof.
  split.
  - apply (proj1 (record_count_never_grows (Sample.read_csv "in.csv" Sample.raw)
                    Sample.to_csv Sample.to_datetime Sample.series_min
                    Sample.series_max Sample.describe)
             clean_text (Sample.fresh Sample.raw)
             (clean_text (Sample.fresh Sample.raw)).1).
    + unfold stages. in_list.
    + vm_compute. reflexivity.
  - destruct (proj2 (record_count_never_grows (Sample.read_csv "in.csv" Sample.raw)
                    Sample.to_csv Sample.to_datetime Sample.series_min
                    Sample.series_max Sample.describe)
                sample_start (Sample.run_process Sample.raw).2 sample_process_returns)
      as (original & final & Ho & Hf & _ & Hle & _).
    exists original, final. split; [exact Ho|]. split; [exact Hf|exact Hle].
Defined.

(** * Further properties *)

(** ** What cleaning a text keeps *)

Section Letters.

Lemma sub_spaces_cons b c s :
  sub_spaces b (c :: s)
  = if is_space c then (if b then sub_spaces true s else 32%N :: sub_spaces true s)
    else c :: sub_spaces false s.
Proof. done. Qed.

Lemma lstrip_cons c s : lstrip (c :: s) = if is_space c then lstrip s else c :: s.
Proof. done. Qed.

Lemma letters_sub_spaces b s : letters (sub_spaces b s) = letters s.
Proof.
  unfold letters. revert b. induction s as [|c s IH]; intros b; [done|].
  rewrite sub_spaces_cons. destruct (is_space c) eqn:Hc.
  - rewrite (filter_cons_False _ c) by (by rewrite Hc).
    destruct b; [apply IH|].
    rewrite (filter_cons_False _ 32%N) by (intros H; by vm_compute in H). apply IH.
  - by rewrite !(filter_cons_True _ c), IH.
Qed.

Lemma letters_lstrip s : letters (lstrip s) = letters s.
Proof.
  unfold letters. induction s as [|c s IH]; [done|].
  rewrite lstrip_cons. destruct (is_space c) eqn:Hc; [|done].
  by rewrite (filter_cons_False _ c) by (by rewrite Hc).
Qed.

Lemma letters_reverse s : letters (reverse s) = reverse (letters s).
Proof. unfold letters. apply filter_reverse. Qed.

Lemma letters_strip s : letters (strip s) = letters s.
Proof.
  unfold strip, rstrip.
  by rewrite letters_reverse, letters_lstrip, letters_reverse, reverse_involutive,
    letters_lstrip.
Qed.

Lemma letters_nil_blank s : letters s = [] ↔ blank s.
Proof.
  unfold letters, blank. induction s as [|c s IH]; [by split; [constructor|]|].
  rewrite (filter_cons _ c), Forall_cons. destruct (is_space c) eqn:Hc.
  - rewrite decide_False by done. rewrite IH. tauto.
  - rewrite decide_True by done. split; [done|]. by intros [? _].
Qed.

Lemma starts_clean_letters s : starts_clean s → letters s = [] → s = [].
Proof.
  destruct s as [|c s]; [done|]. simpl. intros Hc. unfold letters.
  by rewrite (filter_cons_True _ c).
Qed.

Lemma strip_starts_clean s : starts_clean (strip s).
Proof. apply rstrip_starts_clean, lstrip_starts_clean. Qed.

Lemma strip_ends_clean s : starts_clean (reverse (strip s)).
Proof. unfold strip, rstrip. rewrite reverse_involutive. apply lstrip_starts_clean. Qed.

Lemma clean_review_text_str text :
  isna text = false →
  clean_review_text text = strip (sub_spaces false (str text)).
Proof.
  intros Hn. unfold clean_review_text. rewrite Hn. simpl.
  case_bool_decide as He; [|done]. by rewrite He.
Qed.

Lemma existsb_letters (f : N → bool) s :
  (∀ c, f c = true → is_space c = false) → existsb f (letters s) = existsb f s.
Proof.
  intros Hf. unfold letters. induction s as [|c s IH]; [done|].
  rewrite (filter_cons _ c). cbn [existsb]. destruct (f c) eqn:Hc.
  - rewrite decide_True by (by apply Hf). cbn [existsb]. by rewrite Hc.
  - case_decide; cbn [existsb]; rewrite ?Hc; cbn [orb]; apply IH.
Qed.

Lemma amharic_not_space c : amharic_char c = true → is_space c = false.
Proof.
  unfold amharic_char, is_space. intros [H1 H2]%andb_true_iff.
  apply N.leb_le in H1, H2.
  repeat (apply orb_false_iff; split);
    rewrite ?andb_false_iff, ?N.leb_gt, ?N.eqb_neq; lia.
Qed.

End Letters.

Lemma letters_clean text :
  isna text = false → letters (clean_review_text text) = letters (str text).
Proof.
  intros Hn. by rewrite clean_review_text_str, letters_strip, letters_sub_spaces.
Qed.

Lemma length_sub_spaces b s : (length (sub_spaces b s) ≤ length s)%nat.
Proof.
  revert b. induction s as [|c s IH]; intros b; [done|].
  rewrite sub_spaces_cons. destruct (is_space c); [destruct b|]; simpl.
  - specialize (IH true). lia.
  - specialize (IH true). lia.
  - specialize (IH false). lia.
Qed.

Lemma length_lstrip s : (length (lstrip s) ≤ length s)%nat.
Proof.
  induction s as [|c s IH]; [done|].
  rewrite lstrip_cons. destruct (is_space c); simpl; lia.
Qed.

Lemma length_strip s : (length (strip s) ≤ length s)%nat.
Proof.
  unfold strip, rstrip. rewrite length_reverse.
  etrans; [apply length_lstrip|]. rewrite length_reverse. apply length_lstrip.
Qed.

Lemma clean_review_text_shape text :
  clean_review_text text ≠ [] → normalised (clean_review_text text).
Proof.
  intros Hne. split; [done|].
  destruct (isna text) eqn:Hn.
  - unfold clean_review_text in Hne. by rewrite Hn in Hne.
  - rewrite clean_review_text_str by done. split_and!.
    + apply strip_collapsed, sub_spaces_collapsed.
    + apply strip_starts_clean.
    + apply strip_ends_clean.
Qed.

(** X1. Cleaning a review text only touches whitespace: for a text that
    is not null, the non-whitespace characters of the cleaned text are those
    of [str(text)], in the same order, and the cleaned text is not longer
    than [str(text)]. *)
Theorem clean_review_text_keeps_letters text :
  isna text = false →
  letters (clean_review_text text) = letters (str text) ∧
  (length (clean_review_text text) ≤ length (str text))%nat.
Proof.
  intros Hn. split; [by apply letters_clean|].
  rewrite clean_review_text_str by done.
  etrans; [apply length_strip|apply length_sub_spaces].
Qed.

(** X2. The cleaned text is empty exactly when the text is null or
    [str(text)] consists of whitespace only (the empty string included);
    these are the reviews [clean_text] then removes. *)
Theorem clean_review_text_empty text :
  clean_review_text text = [] ↔ isna text = true ∨ blank (str text).
Proof.
  destruct (isna text) eqn:Hn.
  - split; [by left|]. intros _. unfold clean_review_text. by rewrite Hn.
  - rewrite <- letters_nil_blank, <- (letters_clean text Hn).
    split.
    + intros ->. by right.
    + intros [?|H]; [done|]. apply starts_clean_letters; [|done].
      rewrite clean_review_text_str by done. apply strip_starts_clean.
Qed.

(** X3. A cleaned text is empty or in normal form: its only whitespace
    characters are single spaces, each followed by a non-space character,
    and it neither starts nor ends with whitespace. *)
Theorem clean_review_text_normalised text :
  clean_review_text text = [] ∨ normalised (clean_review_text text).
Proof.
  destruct (decide (clean_review_text text = [])) as [?|Hne]; [by left|].
  right. by apply clean_review_text_shape.
Qed.

(** X4. Cleaning does not change what the script filter sees: a text
    that is not null contains an Ethiopic character after cleaning exactly
    when it did before. *)
Theorem contains_amharic_after_cleaning text :
  isna text = false →
  contains_amharic (VStr (clean_review_text text)) = contains_amharic text.
Proof.
  intros Hn. unfold contains_amharic. simpl.
  rewrite <- (existsb_letters _ (clean_review_text text) amharic_not_space).
  rewrite letters_clean by done.
  apply existsb_letters, amharic_not_space.
Qed.

(** ** Complete runs of the stages *)

Ltac landed := unfold ret; eexists; reflexivity.

Lemma clean_text_run ip op d st out :
  "review_text" ∈ columns d →
  ∃ out',
    clean_text (mkRP ip op (Some d) st out)
    = (Return tt,
       mkRP ip op (Some (cleaned d))
         (<["count_after_cleaning" := Count (len (cleaned d))]>
            (<["empty_reviews_removed" := Count (len d - len (cleaned d))]> st))
         out').
Proof.
  intros Hin. start clean_text. exec.
  rewrite setitem_apply. rewrite (decide_True (P := "review_text" ∈ columns d)) by done.
  set (d1 := mkDF _ _).
  assert (H1 : "review_text" ∈ columns d1) by done.
  exec. rewrite num_tests_str_len. exec.
  assert (Hsel : boolean_index
                   ((numeric (λ n, n >? 0) ∘ str_len) <$> (at_ "review_text" <$> rows d1)) d1
                 = mkDF (columns d1)
                     (filter (λ r, numeric (λ n, n >? 0) (str_len (at_ "review_text" r)) = true)
                        (rows d1))).
  { unfold boolean_index. f_equal. apply select_apply. }
  rewrite !Hsel. clear Hsel.
  set (d2 := mkDF _ _).
  assert (H2 : "review_text" ∈ columns d2) by done.
  assert (Hl1 : len d1 = len d) by (unfold len; simpl; by rewrite length_fmap).
  assert (Hl2 : len d2 = len (cleaned d)) by (unfold len; simpl; by rewrite length_fmap).
  rewrite Hl1, Hl2.
  exec. destruct (_ >? 0); exec; rewrite setitem_apply; exec; landed.
Qed.

Lemma handle_missing_values_run ip op d st out :
  critical_cols ⊆ columns d →
  ∃ out',
    handle_missing_values (mkRP ip op (Some d) st out)
    = (Return tt,
       mkRP ip op (Some (resolved d))
         (<["count_after_missing" := Count (len (resolved d))]>
            (<["rows_removed_missing" := Count (len d - len (dropped d))]> st))
         out').
Proof.
  intros Hin. start handle_missing_values. exec.
  unfold dropna. rewrite (missing_labels_none _ _ Hin). exec.
  fold (dropped d).
  destruct (_ >? 0); exec;
    repeat (rewrite bind_fill_default; exec); landed.
Qed.

Lemma remove_duplicates_run ip op d st out :
  ∃ out',
    remove_duplicates (mkRP ip op (Some d) st out)
    = (Return tt,
       mkRP ip op (Some (drop_duplicates d))
         (<["duplicates_removed" := Count (len d - len (drop_duplicates d))]> st)
         out').
Proof.
  start remove_duplicates. exec. destruct (_ >? 0); exec; landed.
Qed.

Lemma filter_non_english_reviews_run ip op d st out :
  "review_text" ∈ columns d →
  ∃ out',
    filter_non_english_reviews (mkRP ip op (Some d) st out)
    = (Return tt,
       mkRP ip op (Some (script_filtered d))
         (<["amharic_reviews_removed" := Count (len d - len (script_filtered d))]> st)
         out').
Proof.
  intros Hin. start filter_non_english_reviews. exec.
  rewrite bind_keep_applied. exec. destruct (_ >? 0); exec; landed.
Qed.

Lemma validate_ratings_run ip op d st out :
  "rating" ∈ columns d → numbers (at_ "rating" <$> rows d) →
  ∃ out',
    validate_ratings (mkRP ip op (Some d) st out)
    = (Return tt,
       mkRP ip op (Some (validated d))
         (<["invalid_ratings_removed" :=
              Count (Z.of_nat (length (filter invalid_rating (rows d))))]> st)
         out').
Proof.
  intros Hin Hn. start validate_ratings. exec.
  rewrite !num_tests_numbers by done. exec.
  rewrite !num_tests_numbers by done. exec.
  assert (Hinv :
    boolean_index
      (zip_with orb (numeric (λ n, n <? 1) <$> (at_ "rating" <$> rows d))
         (numeric (λ n, n >? 5) <$> (at_ "rating" <$> rows d))) d
    = {| columns := columns d; rows := filter invalid_rating (rows d) |}).
  { unfold boolean_index. f_equal. apply select_zip_with. }
  rewrite Hinv, len_pos. cbn [rows].
  unfold validated. destruct (decide (_ = [])) as [Hbad|Hbad].
  - rewrite bool_decide_eq_false_2 by (by intros []). exec. landed.
  - rewrite bool_decide_eq_true_2 by done. exec.
    rewrite !num_tests_numbers by done. exec.
    rewrite !num_tests_numbers by done. exec.
    unfold boolean_index at 1.
    rewrite (select_zip_with andb (numeric (λ n, n >=? 1)) (numeric (λ n, n <=? 5)) "rating" (rows d)).
    landed.
Qed.

Section Files.

Variable read_csv : string → outcome DataFrame.
Variable to_csv : string → DataFrame → outcome unit.
Variable to_datetime : list cell → outcome (list cell).
Variable series_min series_max : list cell → outcome cell.
Variable describe : DataFrame → outcome (list line).

Lemma load_data_failed ip op d0 st out e :
  read_csv ip = Raise e →
  load_data read_csv (mkRP ip op d0 st out)
  = (Return false,
     mkRP ip op d0 st ((out ++ [Line "Loading raw data..." []]) ++ [load_error ip e])).
Proof.
  intros Hr. rewrite (run_eta (load_data _)). unfold load_data. exec.
  rewrite Hr. exec. destruct e; exec; done.
Qed.

Lemma load_data_ok ip op d0 st out d :
  read_csv ip = Return d →
  ∃ out',
    load_data read_csv (mkRP ip op d0 st out)
    = (Return true, mkRP ip op (Some d) (<["original_count" := Count (len d)]> st) out').
Proof.
  intros Hr. rewrite (run_eta (load_data _)). unfold load_data. exec.
  rewrite Hr. exec. landed.
Qed.

Lemma save_data_ok ip op d st out :
  to_csv op d = Return tt →
  ∃ out',
    save_data to_csv (mkRP ip op (Some d) st out)
    = (Return true, mkRP ip op (Some d) (<["final_count" := Count (len d)]> st) out').
Proof.
  intros Hw. rewrite (run_eta (save_data _)). unfold save_data, count. exec.
  rewrite Hw. exec. landed.
Qed.

Lemma save_data_failed ip op d st out e :
  to_csv op d = Raise e →
  save_data to_csv (mkRP ip op (Some d) st out)
  = (Return false,
     mkRP ip op (Some d) st
       ((out ++ [Line "Saving processed data..." []])
        ++ [Line "ERROR: Failed to save data: {}" [AExn e]])).
Proof.
  intros Hw. rewrite (run_eta (save_data _)). unfold save_data, count. exec.
  rewrite Hw. exec. done.
Qed.

Lemma save_data_unloaded ip op st out :
  save_data to_csv (mkRP ip op None st out)
  = (Return false,
     mkRP ip op None st
       ((out ++ [Line "Saving processed data..." []])
        ++ [Line "ERROR: Failed to save data: {}" [AExn AttributeError]])).
Proof. rewrite (run_eta (save_data _)). unfold save_data, count. exec. done. Qed.

Local Abbreviation run :=
  (process read_csv to_csv to_datetime series_min series_max describe).

(** X5. When the input file cannot be read, [process] returns [False]
    right after [load_data]: no stage runs, the table and the statistics are
    as they were, and the last line printed is the error message of
    [load_data]. *)
Theorem process_load_failure s e :
  read_csv (input_path s) = Raise e →
  ∃ s',
    run s = (Return false, s') ∧
    df s' = df s ∧ stats s' = stats s ∧
    last (stdout s') = Some (load_error (input_path s) e).
Proof.
  destruct s as [ip op d0 st out]. cbn [input_path output_path df stats stdout].
  intros Hr. rewrite (run_eta run). unfold process. exec.
  unfold bind at 1. rewrite load_data_failed with (e := e) by done. cbn [negb].
  exec. unfold ret. eexists. split; [reflexivity|]. cbn [df stats stdout].
  split_and!; [done|done|apply last_snoc].
Qed.

(** The statistics a successful run leaves, stage by stage. *)
Lemma process_stats s s' :
  run s = (Return true, s') →
  ∃ d0 d3 d8 st,
    read_csv (input_path s) = Return d0 ∧
    date_update (resolved d0) d3 ∧
    critical_cols ⊆ columns d0 ∧
    numbers (at_ "rating" <$> rows (english_only (drop_duplicates (cleaned d3)))) ∧
    sort_values sort_keys
      (projected (validated (english_only (drop_duplicates (cleaned d3))))) = Return d8 ∧
    df s' = Some d8 ∧
    st !! "original_count" = Some (Count (len d0)) ∧
    stats s'
    = <["final_count" := Count (len d8)]>
        (<["invalid_ratings_removed" :=
             Count (Z.of_nat (length (filter invalid_rating
                      (rows (english_only (drop_duplicates (cleaned d3)))))))]>
        (<["amharic_reviews_removed" :=
             Count (len (drop_duplicates (cleaned d3))
                    - len (english_only (drop_duplicates (cleaned d3))))]>
        (<["duplicates_removed" :=
             Count (len (cleaned d3) - len (drop_duplicates (cleaned d3)))]>
        (<["count_after_cleaning" := Count (len (cleaned d3))]>
        (<["empty_reviews_removed" := Count (len d3 - len (cleaned d3))]>
        (<["count_after_missing" := Count (len (resolved d0))]>
        (<["rows_removed_missing" := Count (len d0 - len (dropped d0))]> st))))))).
Proof.
  unfold process. intros H.
  apply bind_inv in H as ([] & s0 & H0 & H).
  apply bind_inv in H as (loaded & s1 & H1 & H).
  apply (quiet_run _ _ _ _ (quiet_print _ _)) in H0 as (_ & Hdf0 & Hst0 & Hip0).
  apply load_data_spec in H1. rewrite Hip0 in H1.
  destruct loaded; [|done]. cbn [negb] in H.
  destruct (read_csv (input_path s)) as [d0|e]; [|by destruct H1].
  destruct H1 as (_ & Hdf1 & Hst1).
  apply bind_inv in H as ([] & s2 & H2 & H).
  apply check_missing_data_spec in H2 as [Hst2 Hdf2].
  rewrite Hdf1 in Hdf2. rewrite Hst1 in Hst2.
  apply bind_inv in H as ([] & s3 & H3 & H).
  destruct s2 as [ip2 op2 df2 st2 out2]. cbn [df stats] in *. subst df2.
  pose proof H3 as [_ Hm]%handle_missing_values_spec. cbn [df] in Hm.
  destruct (missing_labels critical_cols d0) eqn:Hmiss; [|by destruct Hm]. clear Hm.
  apply missing_labels_nil in Hmiss.
  destruct (handle_missing_values_run ip2 op2 d0 st2 out2 Hmiss) as [out3 Hrun3].
  rewrite Hrun3 in H3. injection H3 as <-.
  apply bind_inv in H as ([] & s4 & H4 & H).
  apply normalize_dates_spec in H4 as (_ & Hst4 & Hdf4). cbn [df stats] in *.
  destruct Hdf4 as (d3 & Hdf4 & Hupd).
  destruct s4 as [ip4 op4 df4 st4 out4]. cbn [df stats] in *. subst df4 st4.
  apply bind_inv in H as ([] & s5 & H5 & H).
  pose proof H5 as [_ Ht]%clean_text_spec. cbn [df] in Ht.
  destruct (decide ("review_text" ∈ columns d3)) as [Htext|]; [|by destruct Ht]. clear Ht.
  match type of H5 with
  | clean_text (mkRP ?ip ?op (Some ?d) ?st ?out) = _ =>
      destruct (clean_text_run ip op d st out Htext) as [out5 Hrun5]
  end.
  rewrite Hrun5 in H5. injection H5 as <-.
  apply bind_inv in H as ([] & s6 & H6 & H).
  match type of H6 with
  | remove_duplicates (mkRP ?ip ?op (Some ?d) ?st ?out) = _ =>
      destruct (remove_duplicates_run ip op d st out) as [out6 Hrun6]
  end.
  rewrite Hrun6 in H6. injection H6 as <-.
  apply bind_inv in H as ([] & s7 & H7 & H).
  assert (Htext6 : "review_text" ∈ columns (drop_duplicates (cleaned d3))).
  { simpl. case_decide; [done|]. apply elem_of_app. by left. }
  match type of H7 with
  | filter_non_english_reviews (mkRP ?ip ?op (Some ?d) ?st ?out) = _ =>
      destruct (filter_non_english_reviews_run ip op d st out Htext6) as [out7 Hrun7]
  end.
  rewrite Hrun7 in H7. injection H7 as <-.
  assert (Hrows : rows (drop_duplicates (cleaned d3)) ≠ []).
  { intros Hr. rewrite (script_filtered_empty _ Hr) in H.
    apply bind_inv in H as ([] & s8 & H8 & _).
    apply validate_ratings_spec in H8 as [_ Hv]. cbn [df] in Hv.
    rewrite decide_False in Hv by (cbn [columns]; apply not_elem_of_nil).
    by destruct Hv. }
  rewrite (script_filtered_records _ Hrows) in H.
  apply bind_inv in H as ([] & s8 & H8 & H).
  pose proof H8 as [_ Hv]%validate_ratings_spec. cbn [df] in Hv.
  destruct (decide ("rating" ∈ _)) as [Hrating|]; [|by destruct Hv].
  destruct (decide (numbers _)) as [Hnum|]; [|by destruct Hv]. clear Hv.
  match type of H8 with
  | validate_ratings (mkRP ?ip ?op (Some ?d) ?st ?out) = _ =>
      destruct (validate_ratings_run ip op d st out Hrating Hnum) as [out8 Hrun8]
  end.
  rewrite Hrun8 in H8. injection H8 as <-.
  apply bind_inv in H as ([] & s9 & H9 & H).
  apply prepare_final_output_spec in H9 as [Hst9 Hdf9]. cbn [df stats] in *.
  destruct (sort_values _ _) as [d8|] eqn:Hsort; [|by destruct Hdf9].
  destruct Hdf9 as [_ Hdf9].
  destruct s9 as [ip9 op9 df9 st9 out9]. cbn [df stats] in *. subst df9 st9.
  apply bind_inv in H as (saved & s10 & H10 & H).
  destruct saved.
  2:{ by injection H. }
  destruct (to_csv op9 d8) as [[]|e] eqn:Hw.
  2:{ rewrite (save_data_failed _ _ _ _ _ e Hw) in H10. by injection H10. }
  match type of H10 with
  | save_data _ (mkRP ?ip ?op (Some ?d) ?st ?out) = _ =>
      destruct (save_data_ok ip op d st out Hw) as [out10 Hrun10]
  end.
  rewrite Hrun10 in H10. injection H10 as <-.
  apply bind_inv in H as ([] & s11 & H11 & [= <-]).
  apply generate_report_spec in H11 as [Hdf11 Hst11]. cbn [df stats] in *.
  exists d0, d3, d8, st2. split_and!; try done.
Qed.

End Files.

Lemma valid_or_invalid r z :
  at_ "rating" r = VInt z → (valid_rating r ↔ ¬ invalid_rating r).
Proof.
  unfold valid_rating, invalid_rating. intros ->. simpl.
  rewrite andb_true_iff, orb_true_iff, Z.geb_le, Z.leb_le, Z.ltb_lt, Z.gtb_lt. lia.
Qed.

Lemma valid_invalid_length (l : list row) :
  Forall (λ r, ∃ z, at_ "rating" r = VInt z) l →
  (length (filter valid_rating l) + length (filter invalid_rating l) = length l)%nat.
Proof.
  induction 1 as [|r l [z Hz] _ IH]; [done|].
  rewrite (filter_cons valid_rating r), (filter_cons invalid_rating r).
  pose proof (valid_or_invalid r z Hz) as Hiff.
  destruct (decide (valid_rating r)), (decide (invalid_rating r)); simpl; try lia; tauto.
Qed.

Lemma validated_length d :
  critical_non_null d → numbers (at_ "rating" <$> rows d) →
  len (validated d) = len d - Z.of_nat (length (filter invalid_rating (rows d))).
Proof.
  intros Hc Hn. unfold len. rewrite validated_rows by done.
  assert (H : Forall (λ r, ∃ z, at_ "rating" r = VInt z) (rows d)).
  { apply Forall_forall. intros r Hr. by eapply integer_rating. }
  apply valid_invalid_length in H. lia.
Qed.

Section Accounts.

Variable read_csv : string → outcome DataFrame.
Variable to_csv : string → DataFrame → outcome unit.
Variable to_datetime : list cell → outcome (list cell).
Variable series_min series_max : list cell → outcome cell.
Variable describe : DataFrame → outcome (list line).

(** X6. After a successful run the counters of the report account for
    every record: the final count is the original count minus the records
    removed for missing critical values, empty text, duplicates, Ethiopic
    script and invalid ratings, and none of these counters is negative. *)
Theorem report_counts_add_up s s' :
  process read_csv to_csv to_datetime series_min series_max describe s
  = (Return true, s') →
  ∃ original missing empty duplicates amharic invalid final,
    stats s' !! "original_count" = Some (Count original) ∧
    stats s' !! "rows_removed_missing" = Some (Count missing) ∧
    stats s' !! "empty_reviews_removed" = Some (Count empty) ∧
    stats s' !! "duplicates_removed" = Some (Count duplicates) ∧
    stats s' !! "amharic_reviews_removed" = Some (Count amharic) ∧
    stats s' !! "invalid_ratings_removed" = Some (Count invalid) ∧
    stats s' !! "final_count" = Some (Count final) ∧
    0 ≤ missing ∧ 0 ≤ empty ∧ 0 ≤ duplicates ∧ 0 ≤ amharic ∧ 0 ≤ invalid ∧
    final = original - missing - empty - duplicates - amharic - invalid.
Proof.
  intros (d0 & d3 & d8 & st & _ & Hupd & Hcrit & Hnum & Hsort & _ & Ho & ->)%process_stats.
  do 7 eexists. split_and!;
    try (repeat (rewrite lookup_insert_ne by done); first [apply lookup_insert_eq|exact Ho]).
  - pose proof (length_filter (λ r, Forall (λ c, at_ c r ≠ VNull) critical_cols) (rows d0)).
    unfold len, dropped. simpl. lia.
  - pose proof (cleaned_length d3). unfold len. lia.
  - pose proof (sublist_length _ _ (proj2 (drop_duplicates_sub (cleaned d3)))).
    unfold len. lia.
  - pose proof (sublist_length _ _ (proj2 (english_only_sub (drop_duplicates (cleaned d3))))).
    unfold len. lia.
  - lia.
  - assert (Hc : critical_non_null (english_only (drop_duplicates (cleaned d3)))).
    { eapply table_inv_sublist; [apply english_only_sub|apply english_only_sub|].
      eapply table_inv_sublist; [apply drop_duplicates_sub|apply drop_duplicates_sub|].
      apply cleaned_critical. eapply table_inv_date_update;
        [apply critical_local|apply critical_not_dates|exact Hupd|].
      by apply resolved_critical, missing_labels_none. }
    pose proof (validated_length _ Hc Hnum) as Hv.
    apply sort_values_perm in Hsort as [_ Hp].
    assert (H8 : len d8 = len (validated (english_only (drop_duplicates (cleaned d3))))).
    { unfold len. by rewrite Hp, projected_length. }
    assert (H3 : len d3 = len (dropped d0)).
    { unfold len. rewrite (date_update_length _ _ Hupd). unfold resolved.
      by rewrite !filled_length. }
    lia.
Qed.

End Accounts.

Lemma report_counts_add_up_witness :
  ∃ original missing empty duplicates amharic invalid final,
    stats (Sample.run_process Sample.raw).2 !! "original_count" = Some (Count original) ∧
    stats (Sample.run_process Sample.raw).2 !! "final_count" = Some (Count final) ∧
    final = original - missing - empty - duplicates - amharic - invalid.
Proof.
  destruct (report_counts_add_up (Sample.read_csv "in.csv" Sample.raw) Sample.to_csv
              Sample.to_datetime Sample.series_min Sample.series_max Sample.describe
              (mkRP "in.csv" "out/reviews.csv" None ∅ []) (Sample.run_process Sample.raw).2
              sample_process_returns)
    as (o & m & e & d & a & i & f & Ho & _ & _ & _ & _ & _ & Hf & _ & _ & _ & _ & _ & Hsum).
  exists o, m, e, d, a, i, f. split; [exact Ho|]. split; [exact Hf|exact Hsum].
Defined.

Lemma length_filter_fmap {A B} (f : A → B) (P : B → Prop) (Q : A → Prop)
    `{∀ y, Decision (P y)} `{∀ x, Decision (Q x)} (l : list A) :
  (∀ x, P (f x) ↔ Q x) →
  length (filter P (f <$> l)) = length (filter Q l).
Proof.
  intros Hiff. induction l as [|x l IH]; [done|]. csimpl.
  rewrite (filter_cons P (f x)), (filter_cons Q x).
  destruct (decide (P (f x))) as [Hp|Hp], (decide (Q x)) as [Hq|Hq]; simpl;
    rewrite ?IH; try done; by apply Hiff in Hp || apply Hiff in Hq.
Qed.

(** X7. On a table with a [review_text] column and at least one record
    [clean_text] returns. Whenever it returns, every record it keeps has a
    [review_text] string in normal form, it keeps as many records as have a
    non-empty cleaned text, and it records the number removed and the
    number left. *)
Theorem clean_text_result s d :
  df s = Some d →
  ("review_text" ∈ columns d → rows d ≠ [] → ∃ s', clean_text s = (Return tt, s')) ∧
  (∀ s', clean_text s = (Return tt, s') →
     ∃ d', df s' = Some d' ∧
       Forall (λ r, ∃ t, r !! "review_text" = Some (VStr t) ∧ normalised t) (rows d') ∧
       length (rows d')
       = length (filter (λ r, clean_review_text (at_ "review_text" r) ≠ []) (rows d)) ∧
       stats s' !! "empty_reviews_removed" = Some (Count (len d - len d')) ∧
       stats s' !! "count_after_cleaning" = Some (Count (len d'))).
Proof.
  destruct s as [ip op d0 st out]. cbn [df]. intros ->. split.
  { intros Hin _. destruct (clean_text_run ip op d st out Hin) as [out' Hrun].
    by eexists. }
  intros s' Hret.
  assert (Hin : "review_text" ∈ columns d).
  { pose proof Hret as [_ H]%clean_text_spec. cbn [df] in H.
    case_decide; [done|]. by destruct H. }
  destruct (clean_text_run ip op d st out Hin) as [out' Hrun].
  rewrite Hrun in Hret. injection Hret as <-.
  exists (cleaned d). cbn [df stats]. split_and!.
  - done.
  - simpl. apply Forall_fmap, Forall_forall.
    intros r [Hlen (r0 & -> & _)%list_elem_of_fmap]%list_elem_of_filter.
    exists (clean_review_text (at_ "review_text" r0)). simpl.
    rewrite lookup_insert_ne, lookup_insert_eq by done. split; [done|].
    apply clean_review_text_shape.
    unfold at_ in Hlen at 1. rewrite lookup_insert_eq in Hlen. simpl in Hlen.
    intros He. by rewrite He in Hlen.
  - simpl. rewrite length_fmap. apply length_filter_fmap. intros r.
    unfold at_ at 1. rewrite lookup_insert_eq. simpl.
    destruct (clean_review_text (at_ "review_text" r)) as [|c t]; simpl.
    + split; [done|]. by intros [].
    + split; [done|]. intros _. apply Z.gtb_lt. lia.
  - rewrite lookup_insert_ne by done. apply lookup_insert_eq.
  - apply lookup_insert_eq.
Qed.

Lemma clean_text_result_witness :
  ∃ s' d', clean_text (Sample.fresh Sample.raw) = (Return tt, s') ∧ df s' = Some d' ∧
           length (rows d') = 10%nat.
Proof.
  destruct (proj1 (clean_text_result (Sample.fresh Sample.raw) Sample.raw eq_refl))
    as [s' Hrun].
  - by_compute.
  - by_compute.
  - destruct (proj2 (clean_text_result (Sample.fresh Sample.raw) Sample.raw eq_refl)
                s' Hrun) as (d' & Hdf & _ & Hlen & _).
    exists s', d'. split; [exact Hrun|]. split; [exact Hdf|].
    rewrite Hlen. vm_compute. reflexivity.
Defined.

Lemma filled_columns c v d : columns (filled c v d) = columns d.
Proof. unfold filled. case_decide; [|done]. simpl. by rewrite decide_True. Qed.

Lemma filled_rows c v d : rows (filled c v d) = fill_row c v (columns d) <$> rows d.
Proof.
  unfold filled, fill_row. case_decide.
  - unfold fillna. by rewrite setitem_apply.
  - by rewrite list_fmap_id.
Qed.

Lemma resolved_columns d : columns (resolved d) = columns d.
Proof. unfold resolved. by rewrite !filled_columns. Qed.

Lemma fill_row_lookup c v cols r k :
  fill_row c v cols r !! k
  = if decide (k = c ∧ c ∈ cols) then Some (if isna (at_ c r) then v else at_ c r)
    else r !! k.
Proof.
  unfold fill_row. destruct (decide (c ∈ cols)) as [Hc|Hc].
  - destruct (decide (k = c)) as [->|Hk].
    + rewrite decide_True by done. apply lookup_insert_eq.
    + rewrite decide_False by tauto. by apply lookup_insert_ne.
  - by rewrite decide_False by tauto.
Qed.

Lemma resolved_rows d :
  Forall2 (λ r r', ∀ c, r' !! c = with_default (columns d) r c)
    (rows (dropped d)) (rows (resolved d)).
Proof.
  unfold resolved. rewrite !filled_rows, !filled_columns.
  change (columns (dropped d)) with (columns d).
  rewrite <- !list_fmap_compose. apply Forall2_fmap_r, Forall_Forall2_diag, Forall_forall.
  intros r _ c. simpl. rewrite !fill_row_lookup. unfold with_default, default_of.
  unfold at_. rewrite !fill_row_lookup.
  repeat case_decide; try done; destruct_and?; simplify_eq; try done; tauto.
Qed.

(** X8. On a table with the critical columns
    [handle_missing_values] returns, keeps the columns, keeps in order the
    records without a null critical value and, in those of the columns
    [user_name], [thumbs_up] and [reply_content] that exist, replaces null
    by 'Anonymous', 0 and the empty string; no other cell changes, and the
    two counters are recorded. *)
Theorem handle_missing_values_defaults s d :
  df s = Some d → critical_cols ⊆ columns d →
  ∃ s' d',
    handle_missing_values s = (Return tt, s') ∧ df s' = Some d' ∧
    columns d' = columns d ∧
    Forall2 (λ r r', ∀ c, r' !! c = with_default (columns d) r c)
      (filter (λ r, Forall (λ c, at_ c r ≠ VNull) critical_cols) (rows d)) (rows d') ∧
    stats s' !! "rows_removed_missing" = Some (Count (len d - len d')) ∧
    stats s' !! "count_after_missing" = Some (Count (len d')).
Proof.
  destruct s as [ip op d0 st out]. cbn [df]. intros -> Hin.
  destruct (handle_missing_values_run ip op d st out Hin) as [out' Hrun].
  eexists _, (resolved d). split; [exact Hrun|]. cbn [df stats]. split_and!.
  - done.
  - apply resolved_columns.
  - apply resolved_rows.
  - rewrite lookup_insert_ne by done. rewrite lookup_insert_eq.
    do 3 f_equal. unfold len, resolved. by rewrite !filled_length.
  - apply lookup_insert_eq.
Qed.

Lemma handle_missing_values_defaults_witness :
  ∃ s' d', handle_missing_values (Sample.fresh Sample.raw) = (Return tt, s') ∧
           df s' = Some d' ∧ columns d' = columns Sample.raw.
Proof.
  destruct (handle_missing_values_defaults (Sample.fresh Sample.raw) Sample.raw)
    as (s' & d' & Hrun & Hdf & Hcols & _).
  - reflexivity.
  - unfold critical_cols. sub_list.
  - exists s', d'. split; [exact Hrun|]. split; [exact Hdf|exact Hcols].
Defined.

Lemma check_missing_data_run ip op d st out :
  ∃ out',
    check_missing_data (mkRP ip op (Some d) st out)
    = (match missing_labels critical_cols d with
       | [] => Return tt
       | miss => Raise (KeyError miss)
       end,
       mkRP ip op (Some d) (<["missing_before" := Counts (isnull_sum d)]> st) out').
Proof.
  destruct (check_missing_data (mkRP ip op (Some d) st out)) as [o s'] eqn:H.
  revert H. start check_missing_data. exec. intros H.
  apply bind_quiet in H as [out1 H].
  2:{ apply quiet_for_each. intros [col n]. auto with quiet. }
  revert H. exec. unfold getitems.
  destruct (missing_labels critical_cols d); exec.
  - intros H. apply bind_quiet in H as [out2 H]; [|auto with quiet].
    revert H. exec. unfold ret. intros [= <- <-]. by eexists.
  - intros [= <- <-]. by eexists.
Qed.

(** X9. [check_missing_data] never changes the table: it records the
    null count of every column under [missing_before] and returns, unless a
    critical column is absent, in which case it raises [KeyError] with the
    absent columns after having recorded the counts. *)
Theorem check_missing_data_read_only s d :
  df s = Some d →
  ∃ s',
    check_missing_data s
    = (match missing_labels critical_cols d with
       | [] => Return tt
       | miss => Raise (KeyError miss)
       end, s') ∧
    df s' = Some d ∧
    stats s' = <["missing_before" := Counts (isnull_sum d)]> (stats s) ∧
    (missing_labels critical_cols d = [] ↔ critical_cols ⊆ columns d).
Proof.
  destruct s as [ip op d0 st out]. cbn [df]. intros ->.
  destruct (check_missing_data_run ip op d st out) as [out' Hrun].
  eexists. split; [exact Hrun|]. split_and!; try done.
  split; [apply missing_labels_nil|apply missing_labels_none].
Qed.

Lemma check_missing_data_read_only_witness :
  ∃ s', check_missing_data (Sample.fresh Sample.raw) = (Return tt, s') ∧
        df s' = Some Sample.raw.
Proof.
  destruct (check_missing_data_read_only (Sample.fresh Sample.raw) Sample.raw)
    as (s' & Hrun & Hdf & _).
  - reflexivity.
  - exists s'. split; [|exact Hdf]. rewrite Hrun. vm_compute. reflexivity.
Defined.

(** X10. A stage that reads a column the table lacks raises [KeyError]
    naming it and leaves the table as it was: [handle_missing_values] for
    the critical columns, [clean_text] and [filter_non_english_reviews] for
    [review_text], [validate_ratings] for [rating]. *)
Theorem missing_column_raises :
  (∀ s d, df s = Some d → ¬ critical_cols ⊆ columns d →
     ∃ s', handle_missing_values s
           = (Raise (KeyError (missing_labels critical_cols d)), s') ∧
           missing_labels critical_cols d ≠ [] ∧ df s' = Some d) ∧
  (∀ s d, df s = Some d → "review_text" ∉ columns d →
     ∃ s', clean_text s = (Raise (KeyError ["review_text"]), s') ∧ df s' = Some d) ∧
  (∀ s d, df s = Some d → "review_text" ∉ columns d →
     ∃ s', filter_non_english_reviews s = (Raise (KeyError ["review_text"]), s') ∧
           df s' = Some d) ∧
  (∀ s d, df s = Some d → "rating" ∉ columns d →
     ∃ s', validate_ratings s = (Raise (KeyError ["rating"]), s') ∧ df s' = Some d).
Proof.
  split_and!; intros s d Hd Hc.
  - destruct (handle_missing_values s) as [o s'] eqn:Hrun. exists s'.
    apply handle_missing_values_spec in Hrun as [_ H]. rewrite Hd in H.
    destruct (missing_labels critical_cols d) eqn:Hm.
    + destruct Hc. by apply missing_labels_nil.
    + by destruct H as [-> ->].
  - destruct (clean_text s) as [o s'] eqn:Hrun. exists s'.
    apply clean_text_spec in Hrun as [_ H]. rewrite Hd, decide_False in H by done.
    by destruct H as [-> ->].
  - destruct (filter_non_english_reviews s) as [o s'] eqn:Hrun. exists s'.
    apply filter_non_english_reviews_spec in Hrun as [_ H].
    rewrite Hd, decide_False in H by done. by destruct H as [-> ->].
  - destruct (validate_ratings s) as [o s'] eqn:Hrun. exists s'.
    apply validate_ratings_spec in Hrun as [_ H].
    rewrite Hd, decide_False in H by done. by destruct H as [-> ->].
Qed.

Lemma missing_column_raises_witness :
  (∃ s', handle_missing_values (Sample.fresh no_rating)
         = (Raise (KeyError ["rating"]), s') ∧ df s' = Some no_rating) ∧
  (∃ s', validate_ratings (Sample.fresh no_rating) = (Raise (KeyError ["rating"]), s') ∧
         df s' = Some no_rating).
Proof.
  split.
  - destruct (proj1 missing_column_raises (Sample.fresh no_rating) no_rating)
      as (s' & Hrun & _ & Hdf).
    + reflexivity.
    + by_compute.
    + exists s'. split; [|exact Hdf]. rewrite Hrun. vm_compute. reflexivity.
  - apply (proj2 (proj2 (proj2 missing_column_raises)) (Sample.fresh no_rating) no_rating).
    + reflexivity.
    + by_compute.
Defined.

Lemma dt_timestamps f col :
  Forall timestamp_or_null col → dt f col = Return (on_timestamp f <$> col).
Proof.
  induction 1 as [|c col Hc _ IH]; [done|]. simpl. rewrite IH. by destruct c.
Qed.

Lemma column_setitem c vals d :
  length vals = length (rows d) → at_ c <$> rows (setitem c vals d) = vals.
Proof.
  intros Hl. apply list_eq. intros i. simpl.
  rewrite list_lookup_fmap, list_lookup_imap.
  destruct (rows d !! i) as [r|] eqn:Hr; simpl.
  - unfold at_. rewrite lookup_insert_eq. simpl.
    destruct (vals !! i) as [v|] eqn:Hv; [done|].
    apply lookup_ge_None in Hv. apply lookup_lt_Some in Hr. lia.
  - symmetry. apply lookup_ge_None. apply lookup_ge_None in Hr. lia.
Qed.

Lemma column_setitem_other c c' vals d :
  c ≠ c' → at_ c <$> rows (setitem c' vals d) = at_ c <$> rows d.
Proof.
  intros Hne. apply list_eq. intros i. simpl.
  rewrite !list_lookup_fmap, list_lookup_imap.
  destruct (rows d !! i) as [r|]; simpl; [|done].
  unfold at_. by rewrite lookup_insert_ne.
Qed.

Section DatesOk.

Variable to_datetime : list cell → outcome (list cell).
Variable series_min series_max : list cell → outcome cell.

Hypothesis to_datetime_dates :
  ∀ col, Forall date_or_null col → to_datetime col = Return (midnight <$> col).

(** X11. When the dates parse (the parser returns a timestamp or null
    for every record, and maps a date to its timestamp at midnight),
    [normalize_dates] returns with [review_date] holding the date of each
    timestamp, [review_year] and [review_month] its year and month (null
    where the timestamp is null), and every other cell unchanged. *)
Theorem normalize_dates_derives s d ts :
  df s = Some d → "review_date" ∈ columns d →
  to_datetime (at_ "review_date" <$> rows d) = Return ts →
  length ts = length (rows d) → Forall timestamp_or_null ts →
  ∃ s' d',
    normalize_dates to_datetime series_min series_max s = (Return tt, s') ∧
    df s' = Some d' ∧
    "review_year" ∈ columns d' ∧ "review_month" ∈ columns d' ∧
    Forall2 dated ts (rows d') ∧
    Forall2 same_elsewhere (rows d) (rows d').
Proof.
  destruct s as [ip op d0 st out]. cbn [df]. intros -> Hin Hparse Hlen Hts.
  set (dates := on_timestamp VDate <$> ts).
  assert (Hdates : Forall date_or_null dates).
  { apply Forall_fmap. eapply Forall_impl; [exact Hts|]. by intros []. }
  assert (Hmid : Forall timestamp_or_null (midnight <$> dates)).
  { apply Forall_fmap. eapply Forall_impl; [exact Hdates|]. by intros []. }
  set (d1 := setitem "review_date" ts d).
  set (d2 := setitem "review_date" dates d1).
  set (years := on_timestamp (λ x, VInt (year x)) <$> (midnight <$> dates)).
  set (months := on_timestamp (λ x, VInt (month x)) <$> (midnight <$> dates)).
  set (d3 := setitem "review_year" years d2).
  set (d4 := setitem "review_month" months d3).
  assert (Hl1 : length (rows d1) = length (rows d)) by apply setitem_length.
  assert (Hl2 : length (rows d2) = length (rows d)).
  { unfold d2. by rewrite setitem_length. }
  assert (Hld : length dates = length (rows d)).
  { unfold dates. by rewrite length_fmap. }
  assert (Hc1 : at_ "review_date" <$> rows d1 = ts) by (by apply column_setitem).
  assert (Hc2 : at_ "review_date" <$> rows d2 = dates).
  { apply column_setitem. by rewrite Hl1. }
  assert (Hc3 : at_ "review_date" <$> rows d3 = dates).
  { unfold d3. by rewrite column_setitem_other. }
  assert (Hc4 : at_ "review_date" <$> rows d4 = dates).
  { unfold d4. by rewrite column_setitem_other. }
  assert (Hfinal : df (normalize_dates to_datetime series_min series_max
                         (mkRP ip op (Some d) st out)).2 = Some d4 ∧
                   (normalize_dates to_datetime series_min series_max
                         (mkRP ip op (Some d) st out)).1 = Return tt).
  { rewrite (run_eta (normalize_dates _ _ _)). unfold normalize_dates, column, assign.
    exec. rewrite Hparse. exec. fold d1.
    assert (H1 : "review_date" ∈ columns d1) by (by apply setitem_keeps).
    exec. rewrite Hc1, (dt_timestamps _ _ Hts). exec. fold dates d2.
    assert (H2 : "review_date" ∈ columns d2) by (by apply setitem_keeps).
    exec. rewrite Hc2, (to_datetime_dates _ Hdates). exec.
    rewrite (dt_timestamps _ _ Hmid). exec. fold years d3.
    assert (H3 : "review_date" ∈ columns d3) by (by apply setitem_keeps).
    exec. rewrite Hc3, (to_datetime_dates _ Hdates). exec.
    rewrite (dt_timestamps _ _ Hmid). exec. fold months d4.
    assert (H4 : "review_date" ∈ columns d4) by (by apply setitem_keeps).
    exec. rewrite Hc4.
    destruct (series_min dates); exec; [|done].
    rewrite Hc4. destruct (series_max dates); exec; done. }
  destruct (normalize_dates _ _ _ _) as [o s'] eqn:Hrun. cbn [fst snd] in Hfinal.
  destruct Hfinal as [Hdf ->]. exists s', d4. split_and!; try done.
  - unfold d4. apply setitem_keeps, setitem_has.
  - unfold d4. apply setitem_has.
  - apply Forall2_same_length_lookup. split.
    { unfold d4, d3. by rewrite !setitem_length, Hl2. }
    intros i t r4 Ht Hr4.
    apply setitem_lookup in Hr4 as (r3 & Hr3 & ->).
    apply setitem_lookup in Hr3 as (r2 & Hr2 & ->).
    apply setitem_lookup in Hr2 as (r1 & Hr1 & ->).
    unfold dated, months, years, dates.
    rewrite !list_lookup_fmap, Ht. simpl.
    rewrite lookup_insert_ne, lookup_insert_ne, lookup_insert_eq by done.
    rewrite lookup_insert_ne, lookup_insert_eq by done.
    rewrite lookup_insert_eq.
    apply (proj1 (Forall_lookup _ _) Hts) in Ht. by destruct t.
  - apply Forall2_same_length_lookup. split.
    { unfold d4, d3. by rewrite !setitem_length, Hl2. }
    intros i r r4 Hr Hr4.
    apply setitem_lookup in Hr4 as (r3 & Hr3 & ->).
    apply setitem_lookup in Hr3 as (r2 & Hr2 & ->).
    apply setitem_lookup in Hr2 as (r1 & Hr1 & ->).
    apply setitem_lookup in Hr1 as (r0 & Hr0 & ->).
    rewrite Hr in Hr0. injection Hr0 as <-.
    intros c Hc. unfold date_columns in Hc.
    rewrite !lookup_insert_ne; [done|intros <-; apply Hc; in_list..].
Qed.

End DatesOk.

Lemma sample_to_datetime_dates col :
  Forall date_or_null col → Sample.to_datetime col = Return (midnight <$> col).
Proof.
  induction 1 as [|c col Hc _ IH]; [done|]. simpl. rewrite IH. by destruct c.
Qed.

Lemma normalize_dates_derives_witness :
  ∃ s' d',
    normalize_dates Sample.to_datetime Sample.series_min Sample.series_max
      (Sample.fresh Sample.raw) = (Return tt, s') ∧
    df s' = Some d' ∧ Forall2 dated sample_timestamps (rows d').
Proof.
  destruct (normalize_dates_derives Sample.to_datetime Sample.series_min
              Sample.series_max sample_to_datetime_dates
              (Sample.fresh Sample.raw) Sample.raw sample_timestamps)
    as (s' & d' & Hrun & Hdf & _ & _ & Hd & _).
  - reflexivity.
  - by_compute.
  - vm_compute. reflexivity.
  - vm_compute. reflexivity.
  - vm_compute. repeat constructor.
  - exists s', d'. split; [exact Hrun|]. split; [exact Hdf|exact Hd].
Defined.

Section DatesTotal.

Variable to_datetime : list cell → outcome (list cell).
Variable series_min series_max : list cell → outcome cell.

(** X12. [normalize_dates] never raises, whatever the parser and the
    column functions do: it returns with the statistics unchanged, the same
    number of records, every column still there and every cell outside
    [review_date], [review_year] and [review_month] unchanged; without a
    table it only prints. *)
Theorem normalize_dates_never_raises s :
  ∃ s',
    normalize_dates to_datetime series_min series_max s = (Return tt, s') ∧
    stats s' = stats s ∧
    match df s with
    | None => df s' = None
    | Some d =>
        ∃ d', df s' = Some d' ∧ columns d ⊆ columns d' ∧
              length (rows d') = length (rows d) ∧
              ∀ i r r' c, rows d !! i = Some r → rows d' !! i = Some r' →
                          c ∉ date_columns → r' !! c = r !! c
    end.
Proof.
  destruct (normalize_dates to_datetime series_min series_max s) as [o s'] eqn:Hrun.
  exists s'. apply normalize_dates_spec in Hrun as (-> & Hst & Hdf).
  split_and!; [done|done|].
  destruct (df s) as [d|]; [|done].
  destruct Hdf as (d' & Hd' & Hcols & Hrows). exists d'. split_and!; try done.
  - symmetry. by eapply Forall2_length.
  - intros i r r' c Hr Hr' Hc. by eapply (Forall2_lookup_lr _ _ _ _ _ _ Hrows).
Qed.

End DatesTotal.

(** ** Duplicates, twice *)

Lemma select_fresh seen (l : list row) :
  NoDup l → (∀ r, r ∈ l → r ∉ seen) →
  select (negb <$> duplicated_from seen l) l = l.
Proof.
  revert seen. induction l as [|r l IH]; intros seen Hnd Hs; [done|]. csimpl.
  apply NoDup_cons in Hnd as [Hr Hnd].
  rewrite bool_decide_eq_false_2 by (apply Hs; by left). simpl. f_equal.
  apply IH; [done|]. intros x Hx [->|?]%elem_of_cons; [done|].
  by apply (Hs x); [right|].
Qed.

Lemma drop_duplicates_idemp d : drop_duplicates (drop_duplicates d) = drop_duplicates d.
Proof.
  unfold drop_duplicates at 1. unfold boolean_index at 1, duplicated at 1.
  destruct (drop_duplicates d) as [cs rs] eqn:Hd. cbn [columns rows]. f_equal.
  assert (rs = select (negb <$> duplicated_from [] (rows d)) (rows d)) as ->
    by (by injection Hd as _ <-).
  apply select_fresh.
  - apply (select_unseen [] (rows d)).
  - intros r _. apply not_elem_of_nil.
Qed.

(** X13. [remove_duplicates] is idempotent: a second run right after the
    first leaves the table unchanged and records zero duplicates removed. *)
Theorem remove_duplicates_twice s d :
  df s = Some d →
  ∃ s1 s2,
    remove_duplicates s = (Return tt, s1) ∧
    remove_duplicates s1 = (Return tt, s2) ∧
    df s2 = df s1 ∧
    stats s2 !! "duplicates_removed" = Some (Count 0).
Proof.
  destruct s as [ip op d0 st out]. cbn [df]. intros ->.
  destruct (remove_duplicates_run ip op d st out) as [out1 H1].
  match type of H1 with _ = (_, mkRP ?i ?o (Some ?d1) ?st1 ?out1) =>
    destruct (remove_duplicates_run i o d1 st1 out1) as [out2 H2] end.
  eexists _, _. split; [exact H1|]. split; [exact H2|]. cbn [df stats].
  rewrite drop_duplicates_idemp. split; [done|].
  rewrite lookup_insert_eq. do 2 f_equal. lia.
Qed.

Lemma remove_duplicates_twice_witness :
  ∃ s1 s2,
    remove_duplicates (Sample.fresh Sample.raw) = (Return tt, s1) ∧
    remove_duplicates s1 = (Return tt, s2) ∧ df s2 = df s1.
Proof.
  destruct (remove_duplicates_twice (Sample.fresh Sample.raw) Sample.raw)
    as (s1 & s2 & H1 & H2 & Hdf & _).
  - reflexivity.
  - exists s1, s2. split; [exact H1|]. split; [exact H2|exact Hdf].
Defined.

(** ** Ratings that are not numbers, and ratings that are missing *)

(** X14. On a [rating] column holding a value that is neither a number
    nor null (a string, a date) [validate_ratings] raises [TypeError] at its
    first comparison: the table and the statistics are unchanged and only
    the banner of the stage has been printed. *)
Theorem validate_ratings_non_numeric s d :
  df s = Some d → "rating" ∈ columns d →
  ¬ numbers (at_ "rating" <$> rows d) →
  validate_ratings s
  = (Raise TypeError,
     mkRP (input_path s) (output_path s) (Some d) (stats s)
       (stdout s ++ [Line "[7/7] Validating ratings..." []])).
Proof.
  destruct s as [ip op d0 st out]. cbn [df input_path output_path stats stdout].
  intros -> Hin Hn. start validate_ratings. exec.
  rewrite num_tests_raise by done. exec. done.
Qed.

Lemma validate_ratings_non_numeric_witness :
  validate_ratings (Sample.fresh text_rating)
  = (Raise TypeError,
     mkRP "in.csv" "out/reviews.csv" (Some text_rating) ∅ [Line "[7/7] Validating ratings..." []]).
Proof.
  apply (validate_ratings_non_numeric (Sample.fresh text_rating) text_rating).
  - reflexivity.
  - by_compute.
  - by_compute.
Defined.

Lemma rating_classes (l : list row) :
  numbers (at_ "rating" <$> l) →
  (length (filter valid_rating l) + length (filter invalid_rating l)
   + length (filter null_rating l) = length l)%nat.
Proof.
  unfold numbers. rewrite Forall_fmap.
  induction 1 as [|r l Hr _ IH]; [done|].
  rewrite (filter_cons valid_rating r), (filter_cons invalid_rating r),
    (filter_cons null_rating r).
  unfold valid_rating, invalid_rating, null_rating in *. simpl in Hr.
  destruct (at_ "rating" r) as [|z| | |] eqn:Hz; simpl in Hr; try lia.
  - rewrite decide_False, decide_False, decide_True by done. simpl. lia.
  - rewrite (decide_False (P := VInt z = VNull)) by done. simpl.
    destruct (decide (_ && _ = true)) as [Hv|Hv], (decide (_ || _ = true)) as [Hi|Hi];
      simpl; try lia; exfalso; revert Hv Hi;
      rewrite andb_true_iff, orb_true_iff, Z.geb_le, Z.leb_le, Z.ltb_lt, Z.gtb_lt; lia.
Qed.

Lemma null_not_valid r : null_rating r → ¬ valid_rating r.
Proof. unfold null_rating, valid_rating. by intros ->. Qed.

(** X15. Null ratings and the Rating Validator: a null rating is not
    counted as invalid; when no rating is out of range the table is left as
    it is, null ratings included, and when some rating is out of range the
    records with a null rating are removed together with the invalid ones,
    although [invalid_ratings_removed] counts only the latter. *)
Theorem validate_ratings_null_ratings s d :
  df s = Some d → "rating" ∈ columns d →
  numbers (at_ "rating" <$> rows d) →
  ∃ s' d',
    validate_ratings s = (Return tt, s') ∧ df s' = Some d' ∧
    stats s' !! "invalid_ratings_removed"
    = Some (Count (Z.of_nat (length (filter invalid_rating (rows d))))) ∧
    (filter invalid_rating (rows d) = [] → d' = d) ∧
    (filter invalid_rating (rows d) ≠ [] →
       rows d' = filter valid_rating (rows d) ∧
       (∀ r, r ∈ rows d' → ¬ null_rating r) ∧
       (length (rows d) = length (rows d') + length (filter invalid_rating (rows d))
                          + length (filter null_rating (rows d)))%nat).
Proof.
  destruct s as [ip op d0 st out]. cbn [df]. intros -> Hin Hn.
  destruct (validate_ratings_run ip op d st out Hin Hn) as [out' Hrun].
  eexists _, (validated d). split; [exact Hrun|]. cbn [df stats]. split_and!.
  - done.
  - apply lookup_insert_eq.
  - intros Hnone. unfold validated. by rewrite decide_True.
  - intros Hsome. unfold validated. rewrite decide_False by done. cbn [rows].
    split_and!.
    + done.
    + intros r [Hv _]%list_elem_of_filter Hnull. by apply (null_not_valid r).
    + pose proof (rating_classes (rows d) Hn). lia.
Qed.

Lemma validate_ratings_null_ratings_witness :
  ∃ s' d',
    validate_ratings (Sample.fresh Sample.raw) = (Return tt, s') ∧ df s' = Some d' ∧
    length (rows d') = 7%nat ∧
    stats s' !! "invalid_ratings_removed" = Some (Count 1).
Proof.
  destruct (validate_ratings_null_ratings (Sample.fresh Sample.raw) Sample.raw)
    as (s' & d' & Hrun & Hdf & Hst & _ & Hsome).
  - reflexivity.
  - by_compute.
  - by_compute.
  - exists s', d'. split; [exact Hrun|]. split; [exact Hdf|]. split.
    + destruct Hsome as [-> _]; [|vm_compute; reflexivity].
      vm_compute. discriminate.
    + rewrite Hst. vm_compute. reflexivity.
Defined.

(** ** The final projection and sort *)

Lemma project_row_lookup labels (r : row) c :
  project_row labels r !! c = if decide (c ∈ labels) then r !! c else None.
Proof.
  unfold project_row. destruct (decide (c ∈ labels)) as [Hc|Hc].
  - destruct (r !! c) as [v|] eqn:Hv.
    + by apply map_lookup_filter_Some.
    + apply map_lookup_filter_None. by left.
  - apply map_lookup_filter_None. right. intros v _. done.
Qed.

(** X16. When [prepare_final_output] returns, the columns of its table
    are those of [output_columns] that the input has, in the order of
    [output_columns]; every record of the output is a record of the input
    restricted to these columns, every record of the input has its
    restriction in the output, and the statistics are unchanged. *)
Theorem prepare_final_output_columns s s' d :
  df s = Some d → prepare_final_output s = (Return tt, s') →
  ∃ d', df s' = Some d' ∧
    columns d' = filter (λ c, c ∈ columns d) output_columns ∧
    columns d' `sublist_of` output_columns ∧
    (∀ c, c ∈ columns d' ↔ c ∈ output_columns ∧ c ∈ columns d) ∧
    (∀ r', r' ∈ rows d' →
       ∃ r, r ∈ rows d ∧
            ∀ c, r' !! c = if decide (c ∈ columns d') then r !! c else None) ∧
    (∀ r, r ∈ rows d →
       ∃ r', r' ∈ rows d' ∧ ∀ c, c ∈ columns d' → r' !! c = r !! c) ∧
    stats s' = stats s.
Proof.
  intros Hd [Hst H]%prepare_final_output_spec. rewrite Hd in H.
  destruct (sort_values sort_keys (projected d)) as [d'|e] eqn:Hsort;
    [|by destruct H].
  destruct H as [_ H]. exists d'. split; [exact H|].
  apply sort_values_perm in Hsort as [Hcols Hperm]. rewrite Hcols.
  change (columns (projected d)) with (final_columns d).
  change (rows (projected d)) with (project_row (final_columns d) <$> rows d) in Hperm.
  split_and!.
  - done.
  - apply sublist_filter.
  - intros c. unfold final_columns. rewrite list_elem_of_filter. tauto.
  - intros r'. rewrite Hperm.
    intros (r & -> & Hr)%list_elem_of_fmap. exists r. split; [done|].
    intros c. apply project_row_lookup.
  - intros r Hr. exists (project_row (final_columns d) r). split.
    + rewrite Hperm. by apply list_elem_of_fmap_2.
    + intros c Hc. by rewrite project_row_lookup, decide_True.
  - done.
Qed.

Lemma prepare_final_output_columns_witness :
  ∃ d', df (prepare_final_output (Sample.fresh Sample.raw)).2 = Some d' ∧
        columns d' = ["review_id"; "review_text"; "rating"; "review_date"; "bank_code";
                      "bank_name"; "user_name"; "thumbs_up"; "source"].
Proof.
  destruct (prepare_final_output_columns (Sample.fresh Sample.raw)
              (prepare_final_output (Sample.fresh Sample.raw)).2 Sample.raw)
    as (d' & Hdf & Hcols & _).
  - reflexivity.
  - vm_compute. reflexivity.
  - exists d'. split; [exact Hdf|]. rewrite Hcols. vm_compute. reflexivity.
Defined.

Lemma check_keys_missing_date d :
  "bank_code" ∈ columns d → "review_date" ∉ columns d →
  check_keys sort_keys d = Raise (KeyError ["review_date"]).
Proof. intros Hb Hd. simpl. by rewrite getitem_in, getitem_out. Qed.

Lemma final_columns_elem c d : c ∈ final_columns d ↔ c ∈ output_columns ∧ c ∈ columns d.
Proof. unfold final_columns. rewrite list_elem_of_filter. tauto. Qed.

(** X17. When the table lacks [bank_code] or [review_date],
    [prepare_final_output] raises [KeyError] naming the first of the two
    that is absent, after the projection has been assigned: the table is
    left projected on the output columns, and the statistics are
    unchanged. *)
Theorem prepare_final_output_missing_sort_key s d :
  df s = Some d →
  "bank_code" ∉ columns d ∨ "review_date" ∉ columns d →
  ∃ s',
    prepare_final_output s
    = (Raise (KeyError [if decide ("bank_code" ∈ columns d)
                        then "review_date" else "bank_code"]), s') ∧
    df s' = Some (projected d) ∧ stats s' = stats s.
Proof.
  intros Hd Hmiss. destruct (prepare_final_output s) as [o s'] eqn:Hrun. exists s'.
  apply prepare_final_output_spec in Hrun as [Hst H]. rewrite Hd in H.
  unfold sort_values in H.
  destruct (decide ("bank_code" ∈ columns d)) as [Hb|Hb].
  - destruct Hmiss as [?|Hdate]; [done|].
    rewrite check_keys_missing_date in H.
    + by destruct H as [-> ->].
    + apply final_columns_elem. split; [unfold output_columns; in_list|done].
    + by intros [_ ?]%final_columns_elem.
  - rewrite check_keys_missing in H; [by destruct H as [-> ->]|].
    by intros [_ ?]%final_columns_elem.
Qed.

Lemma prepare_final_output_missing_sort_key_witness :
  ∃ s',
    prepare_final_output (Sample.fresh no_review_date)
    = (Raise (KeyError ["review_date"]), s') ∧
    df s' = Some (projected no_review_date).
Proof.
  destruct (prepare_final_output_missing_sort_key (Sample.fresh no_review_date)
              no_review_date) as (s' & Hrun & Hdf & _).
  - reflexivity.
  - right. by_compute.
  - exists s'. split; [|exact Hdf].
    rewrite Hrun. do 3 f_equal.
Defined.

(** ** What no method touches *)

Section Steady.

Context {A B : Type}.

Lemma steady_ret (a : A) : steady (ret a).
Proof. intros s o s' [= <- <-]. by split_and!. Qed.

Lemma steady_raise e : steady (raise (A := A) e).
Proof. intros s o s' [= <- <-]. by split_and!. Qed.

Lemma steady_lift (o : outcome A) : steady (lift o).
Proof. intros s o' s' [= <- <-]. by split_and!. Qed.

Lemma steady_self_df e : steady (self_df e).
Proof. intros s o s'. unfold self_df. destruct (df s); intros [= <- <-]; by split_and!. Qed.

Lemma steady_bind (m : M A) (k : A → M B) :
  steady m → (∀ a, steady (k a)) → steady (bind m k).
Proof.
  intros Hm Hk s o s'. unfold bind. destruct (m s) as [[a|e] s1] eqn:H1.
  - intros H2. apply Hm in H1 as (? & ? & ?). apply Hk in H2 as (? & ? & ?).
    split_and!; [congruence|congruence|by etrans].
  - intros [= <- <-]. by apply Hm in H1.
Qed.

Lemma steady_try (body : M A) (h : exn → M A) :
  steady body → (∀ e, steady (h e)) → steady (try_except body h).
Proof.
  intros Hm Hh s o s'. unfold try_except. destruct (body s) as [[a|e] s1] eqn:H1.
  - intros [= <- <-]. by apply Hm in H1.
  - intros H2. apply Hm in H1 as (? & ? & ?). apply Hh in H2 as (? & ? & ?).
    split_and!; [congruence|congruence|by etrans].
Qed.

Lemma steady_for_each (l : list A) (body : A → M unit) :
  (∀ x, steady (body x)) → steady (for_each l body).
Proof.
  intros Hb. induction l as [|x l IH]; simpl.
  - intros s o s' [= <- <-]. by split_and!.
  - intros s o s'. unfold bind. destruct (body x s) as [[[]|e] s1] eqn:H1.
    + intros H2. apply Hb in H1 as (? & ? & ?). apply IH in H2 as (? & ? & ?).
      split_and!; [congruence|congruence|by etrans].
    + intros [= <- <-]. by apply Hb in H1.
Qed.

End Steady.

Lemma steady_print t a : steady (print t a).
Proof. intros s o s' [= <- <-]. split_and!; [done|done|]. by eexists. Qed.

Lemma steady_set_df d : steady (set_df d).
Proof. intros s o s' [= <- <-]. by split_and!. Qed.

Lemma steady_set_stat k v : steady (set_stat k v).
Proof. intros s o s' [= <- <-]. by split_and!. Qed.

Lemma steady_get_stat k : steady (get_stat k).
Proof. intros s o s' [= <- <-]. by split_and!. Qed.

Lemma steady_self_df_or_none : steady self_df_or_none.
Proof. intros s o s' [= <- <-]. by split_and!. Qed.

Lemma steady_self_input_path : steady self_input_path.
Proof. intros s o s' [= <- <-]. by split_and!. Qed.

Lemma steady_self_output_path : steady self_output_path.
Proof. intros s o s' [= <- <-]. by split_and!. Qed.

Lemma steady_when b m : steady m → steady (when b m).
Proof. destruct b; [done|]. intros _. apply steady_ret. Qed.

Ltac steady_step :=
  lazymatch goal with
  | |- steady (bind _ _) => apply steady_bind
  | |- steady (try_except _ _) => apply steady_try
  | |- steady (for_each _ _) => apply steady_for_each
  | |- steady (when _ _) => apply steady_when
  | |- steady (print _ _) => apply steady_print
  | |- steady (ret _) => apply steady_ret
  | |- steady (raise _) => apply steady_raise
  | |- steady (lift _) => apply steady_lift
  | |- steady (set_df _) => apply steady_set_df
  | |- steady (set_stat _ _) => apply steady_set_stat
  | |- steady (get_stat _) => apply steady_get_stat
  | |- steady (self_df _) => apply steady_self_df
  | |- steady self_df_or_none => apply steady_self_df_or_none
  | |- steady self_input_path => apply steady_self_input_path
  | |- steady self_output_path => apply steady_self_output_path
  | |- steady (match ?x with _ => _ end) => destruct x
  | |- _ => progress intros
  end.

Ltac steady := repeat steady_step.

Lemma steady_check_missing_data : steady check_missing_data.
Proof. unfold check_missing_data. steady. Qed.

Lemma steady_handle_missing_values : steady handle_missing_values.
Proof. unfold handle_missing_values, fill_default. steady. Qed.

Lemma steady_clean_text : steady clean_text.
Proof. unfold clean_text, column, assign, keep, count. steady. Qed.

Lemma steady_remove_duplicates : steady remove_duplicates.
Proof. unfold remove_duplicates, count. steady. Qed.

Lemma steady_filter_non_english_reviews : steady filter_non_english_reviews.
Proof. unfold filter_non_english_reviews, column, keep_applied, keep, count. steady. Qed.

Lemma steady_validate_ratings : steady validate_ratings.
Proof. unfold validate_ratings, column, keep, count. steady. Qed.

Lemma steady_prepare_final_output : steady prepare_final_output.
Proof. unfold prepare_final_output, count. steady. Qed.

Section SteadyFiles.

Variable read_csv : string → outcome DataFrame.
Variable to_csv : string → DataFrame → outcome unit.
Variable to_datetime : list cell → outcome (list cell).
Variable series_min series_max : list cell → outcome cell.
Variable describe : DataFrame → outcome (list line).

Lemma steady_normalize_dates : steady (normalize_dates to_datetime series_min series_max).
Proof. unfold normalize_dates, column, assign. steady. Qed.

Lemma steady_load_data : steady (load_data read_csv).
Proof. unfold load_data. steady. Qed.

Lemma steady_save_data : steady (save_data to_csv).
Proof. unfold save_data, count. steady. Qed.

Lemma steady_generate_report : steady (generate_report describe).
Proof. unfold generate_report. steady. Qed.

Lemma steady_stage m : m ∈ stages to_datetime series_min series_max → steady m.
Proof.
  unfold stages. intros Hm.
  repeat (apply elem_of_cons in Hm as [->|Hm]); [..|by apply elem_of_nil in Hm].
  - apply steady_check_missing_data.
  - apply steady_handle_missing_values.
  - apply steady_normalize_dates.
  - apply steady_clean_text.
  - apply steady_remove_duplicates.
  - apply steady_filter_non_english_reviews.
  - apply steady_validate_ratings.
  - apply steady_prepare_final_output.
Qed.

Local Abbreviation run :=
  (process read_csv to_csv to_datetime series_min series_max describe).

(** X18. No method reassigns [input_path] or [output_path], and none
    removes what has been printed: for [load_data], each of the eight
    stages, [save_data], [generate_report] and [process], whatever the
    outcome, the paths after the call are those before it and the output
    before the call is a prefix of the output after it. *)
Theorem methods_keep_paths_and_output :
  steady (load_data read_csv) ∧
  (∀ m, m ∈ stages to_datetime series_min series_max → steady m) ∧
  steady (save_data to_csv) ∧
  steady (generate_report describe) ∧
  steady run.
Proof.
  split_and!.
  - apply steady_load_data.
  - apply steady_stage.
  - apply steady_save_data.
  - apply steady_generate_report.
  - unfold process.
    repeat first
      [ apply steady_load_data | apply steady_save_data | apply steady_generate_report
      | apply steady_check_missing_data | apply steady_handle_missing_values
      | apply steady_normalize_dates | apply steady_clean_text
      | apply steady_remove_duplicates | apply steady_filter_non_english_reviews
      | apply steady_validate_ratings | apply steady_prepare_final_output
      | steady_step ].
Qed.

End SteadyFiles.

(** ** Loading, saving and reporting *)

Section Outcomes.

Variable read_csv : string → outcome DataFrame.
Variable to_csv : string → DataFrame → outcome unit.
Variable to_datetime : list cell → outcome (list cell).
Variable series_min series_max : list cell → outcome cell.
Variable describe : DataFrame → outcome (list line).

(** X19. [load_data] never raises. When the file is read it returns
    [True], holds the table read and records its size as [original_count];
    when reading raises it returns [False], leaves table and statistics as
    they were and prints, after its banner, the file-not-found message with
    the path for [FileNotFoundError] and the generic message with the
    exception otherwise. *)
Theorem load_data_never_raises s :
  ∃ b s',
    load_data read_csv s = (Return b, s') ∧
    match read_csv (input_path s) with
    | Return d =>
        b = true ∧ df s' = Some d ∧
        stats s' = <["original_count" := Count (len d)]> (stats s)
    | Raise e =>
        b = false ∧ df s' = df s ∧ stats s' = stats s ∧
        stdout s' = stdout s ++ [Line "Loading raw data..." []; load_error (input_path s) e]
    end.
Proof.
  destruct s as [ip op d0 st out]. cbn [input_path df stats stdout].
  destruct (read_csv ip) as [d|e] eqn:Hr.
  - destruct (load_data_ok read_csv ip op d0 st out d Hr) as [out' Hrun].
    eexists _, _. split; [exact Hrun|]. done.
  - eexists _, _. split; [by apply load_data_failed|]. cbn [df stats stdout].
    by rewrite <- app_assoc.
Qed.

(** X20. [save_data] never raises and never changes the table. It
    returns [True] exactly when there is a table and writing it to
    [output_path] succeeds, and then records its size as [final_count];
    otherwise, also when no table was loaded, it returns [False] and leaves
    the statistics as they were. *)
Theorem save_data_never_raises s :
  ∃ b s',
    save_data to_csv s = (Return b, s') ∧ df s' = df s ∧
    (b = true ↔ ∃ d, df s = Some d ∧ to_csv (output_path s) d = Return tt) ∧
    stats s'
    = if b then <["final_count" := Count (Z.of_nat (nrows s))]> (stats s) else stats s.
Proof.
  destruct s as [ip op [d|] st out]; cbn [output_path df stats]; unfold nrows; cbn [df].
  - destruct (to_csv op d) as [[]|e] eqn:Hw.
    + destruct (save_data_ok to_csv ip op d st out Hw) as [out' Hrun].
      eexists _, _. split; [exact Hrun|]. cbn [df stats]. split_and!; [done| |done].
      split; [|done]. intros _. by exists d.
    + eexists _, _. split; [by apply save_data_failed|]. cbn [df stats].
      split_and!; [done| |done]. split; [done|]. intros (? & [= <-] & Hok).
      by rewrite Hok in Hw.
  - eexists _, _. split; [apply save_data_unloaded|]. cbn [df stats].
    split_and!; [done| |done]. split; [done|]. by intros (? & ? & _).
Qed.

(** X21. [generate_report] only prints: whatever its outcome, the paths,
    the table and the statistics are as before; it raises only when there is
    a table and the description of that table (counts per bank and per
    rating, date range, text statistics) raises. *)
Theorem generate_report_read_only s :
  ∃ o out,
    generate_report describe s
    = (o, mkRP (input_path s) (output_path s) (df s) (stats s) out) ∧
    match o with
    | Return _ => True
    | Raise e => ∃ d, df s = Some d ∧ describe d = Raise e
    end.
Proof.
  destruct (generate_report describe s) as [o s'] eqn:H.
  unfold generate_report in H.
  repeat (apply bind_quiet in H as [? H]; [|auto 10 with quiet];
          cbn [df stats input_path output_path] in H).
  rewrite bind_self_df_or_none in H. cbn [df] in H.
  destruct (df s) as [d|] eqn:Hd.
  2:{ injection H as <- <-. by eexists _, _. }
  rewrite run_eta in H. revert H. exec.
  destruct (describe d) as [lines|e] eqn:Hdesc; exec.
  - intros H. apply bind_quiet in H as [? H].
    + injection H as <- <-. by eexists _, _.
    + apply quiet_for_each. auto with quiet.
  - intros [= <- <-]. eexists _, _. split; [done|]. by exists d.
Qed.

Lemma stage_passes m s s' :
  m ∈ stages to_datetime series_min series_max → is_Some (df s) →
  m s = (Return tt, s') → is_Some (df s').
Proof.
  unfold stages. intros Hm [d Hd] Hrun.
  repeat (apply elem_of_cons in Hm as [->|Hm]); [..|by apply elem_of_nil in Hm].
  - apply check_missing_data_spec in Hrun as [_ ->]. by exists d.
  - apply handle_missing_values_spec in Hrun as [_ H]. rewrite Hd in H.
    destruct (missing_labels critical_cols d); destruct H as [? ->]; eauto.
  - apply normalize_dates_spec in Hrun as (_ & _ & H). rewrite Hd in H.
    destruct H as (d' & -> & _). eauto.
  - apply clean_text_spec in Hrun as [_ H]. rewrite Hd in H.
    case_decide; destruct H as [? ->]; eauto.
  - apply remove_duplicates_spec in Hrun as [_ H]. rewrite Hd in H.
    destruct H as [? ->]; eauto.
  - apply filter_non_english_reviews_spec in Hrun as [_ H]. rewrite Hd in H.
    case_decide; destruct H as [? ->]; eauto.
  - apply validate_ratings_spec in Hrun as [_ H]. rewrite Hd in H.
    repeat case_decide; destruct H as [? ->]; eauto.
  - apply prepare_final_output_spec in Hrun as [_ H]. rewrite Hd in H.
    destruct (sort_values _ _); destruct H as [? ->]; eauto.
Qed.

Lemma run_stage {B} m (k : unit → M B) s b s' :
  m ∈ stages to_datetime series_min series_max → is_Some (df s) →
  bind m k s = (Return b, s') →
  ∃ s1, is_Some (df s1) ∧ input_path s1 = input_path s ∧
        output_path s1 = output_path s ∧ k tt s1 = (Return b, s').
Proof.
  intros Hm Hd H. apply bind_inv in H as ([] & s1 & H1 & H). exists s1.
  pose proof (steady_stage to_datetime series_min series_max m Hm s _ _ H1)
    as (Hip & Hop & _).
  split_and!; try done. by eapply stage_passes.
Qed.

Local Abbreviation run :=
  (process read_csv to_csv to_datetime series_min series_max describe).

(** What [process] returning [True] or [False] means. *)
Lemma process_outcome s b s' :
  run s = (Return b, s') →
  if b then
    ∃ d0 d, read_csv (input_path s) = Return d0 ∧ df s' = Some d ∧
            to_csv (output_path s) d = Return tt ∧
            stats s' !! "final_count" = Some (Count (len d))
  else
    (∃ e, read_csv (input_path s) = Raise e ∧ df s' = df s ∧ stats s' = stats s) ∨
    (∃ d0 d e, read_csv (input_path s) = Return d0 ∧ df s' = Some d ∧
               to_csv (output_path s) d = Raise e).
Proof.
  unfold process. intros H.
  destruct s as [ip op d0 st out]. cbn [input_path output_path df stats].
  apply bind_inv in H as ([] & s0 & H0 & H). injection H0 as <-.
  apply bind_inv in H as (loaded & s1 & H1 & H).
  destruct (read_csv ip) as [d|e] eqn:Hr.
  2:{ rewrite (load_data_failed read_csv _ _ _ _ _ e Hr) in H1. injection H1 as <- <-.
      injection H as <- <-. left. by exists e. }
  match type of H1 with
  | load_data _ (mkRP _ _ _ _ ?o) = _ =>
      destruct (load_data_ok read_csv ip op d0 st o d Hr) as [out1 Hl]
  end.
  rewrite Hl in H1. injection H1 as <- <-. cbn [negb] in H.
  assert (Hsome : is_Some (df (mkRP ip op (Some d)
                                 (<["original_count" := Count (len d)]> st) out1)))
    by (by exists d).
  apply run_stage in H as (s2 & Hs2 & Hi2 & Ho2 & H); [|unfold stages; in_list|done].
  apply run_stage in H as (s3 & Hs3 & Hi3 & Ho3 & H); [|unfold stages; in_list|done].
  apply run_stage in H as (s4 & Hs4 & Hi4 & Ho4 & H); [|unfold stages; in_list|done].
  apply run_stage in H as (s5 & Hs5 & Hi5 & Ho5 & H); [|unfold stages; in_list|done].
  apply run_stage in H as (s6 & Hs6 & Hi6 & Ho6 & H); [|unfold stages; in_list|done].
  apply run_stage in H as (s7 & Hs7 & Hi7 & Ho7 & H); [|unfold stages; in_list|done].
  apply run_stage in H as (s8 & Hs8 & Hi8 & Ho8 & H); [|unfold stages; in_list|done].
  apply run_stage in H as (s9 & Hs9 & Hi9 & Ho9 & H); [|unfold stages; in_list|done].
  assert (Hop : output_path s9 = op) by (cbn in *; congruence).
  clear - Hs9 Hop H. destruct Hs9 as [d8 Hd8].
  destruct s9 as [ip9 op9 df9 st9 out9]. cbn [df output_path] in *. subst df9 op9.
  apply bind_inv in H as (saved & s10 & H10 & H).
  destruct (to_csv op d8) as [[]|e] eqn:Hw.
  - destruct (save_data_ok to_csv ip9 op d8 st9 out9 Hw) as [out10 Hs].
    rewrite Hs in H10. injection H10 as <- <-.
    apply bind_inv in H as ([] & s11 & H11 & [= <- <-]).
    apply generate_report_spec in H11 as [Hdf Hst]. cbn [df stats] in *.
    exists d, d8. rewrite Hdf, Hst. split_and!; [done|done|done|apply lookup_insert_eq].
  - rewrite (save_data_failed to_csv _ _ _ _ _ e Hw) in H10. injection H10 as <- <-.
    injection H as <- <-. right. by exists d, d8, e.
Qed.

(** X22. What the result of [process] means. It returns [True] only if
    the input was read and the table it ends with was written to
    [output_path], with [final_count] the size of that table; it returns
    [False] only if reading the input raised (table and statistics are then
    untouched) or writing the final table raised. *)
Theorem process_result s b s' :
  run s = (Return b, s') →
  (b = true →
     ∃ d0 d, read_csv (input_path s) = Return d0 ∧ df s' = Some d ∧
             to_csv (output_path s) d = Return tt ∧
             stats s' !! "final_count" = Some (Count (len d))) ∧
  (b = false →
     (∃ e, read_csv (input_path s) = Raise e ∧ df s' = df s ∧ stats s' = stats s) ∨
     (∃ d0 d e, read_csv (input_path s) = Return d0 ∧ df s' = Some d ∧
                to_csv (output_path s) d = Raise e)).
Proof.
  intros H%process_outcome. split; intros ->; exact H.
Qed.

(** X23. Errors of the stages are not caught by [process]: when the
    table read lacks a critical column, [process] raises the [KeyError] of
    [check_missing_data] naming the absent columns; the table read is still
    held, and the statistics have gained [original_count] and
    [missing_before] only. *)
Theorem process_missing_critical_column s d0 :
  read_csv (input_path s) = Return d0 →
  ¬ critical_cols ⊆ columns d0 →
  ∃ s',
    run s = (Raise (KeyError (missing_labels critical_cols d0)), s') ∧
    missing_labels critical_cols d0 ≠ [] ∧
    df s' = Some d0 ∧
    stats s' = <["missing_before" := Counts (isnull_sum d0)]>
                 (<["original_count" := Count (len d0)]> (stats s)).
Proof.
  destruct s as [ip op d1 st out]. cbn [input_path stats]. intros Hr Hc.
  assert (Hm : missing_labels critical_cols d0 ≠ []).
  { intros Hm. by apply Hc, missing_labels_nil. }
  rewrite (run_eta run). unfold process. exec.
  match goal with
  | |- context [bind (load_data _) _ (mkRP _ _ _ _ ?o)] =>
      destruct (load_data_ok read_csv ip op d1 st o d0 Hr) as [out1 Hl]
  end.
  unfold bind at 1. rewrite Hl. cbn [negb].
  destruct (check_missing_data_run ip op d0
              (<["original_count" := Count (len d0)]> st) out1) as [out2 Hck].
  rewrite bind_assoc. unfold bind at 1. rewrite Hck.
  destruct (missing_labels critical_cols d0) as [|c l]; [done|].
  eexists. split; [reflexivity|]. done.
Qed.

End Outcomes.

Lemma process_load_failure_witness :
  ∃ s',
    process (Sample.read_csv "in.csv" Sample.raw) Sample.to_csv Sample.to_datetime
      Sample.series_min Sample.series_max Sample.describe
      (mkRP "missing.csv" "out/reviews.csv" None ∅ [])
    = (Return false, s') ∧
    df s' = None ∧
    last (stdout s') = Some (Line "ERROR: File not found: {}" [APath "missing.csv"]).
Proof.
  destruct (process_load_failure (Sample.read_csv "in.csv" Sample.raw) Sample.to_csv
              Sample.to_datetime Sample.series_min Sample.series_max Sample.describe
              (mkRP "missing.csv" "out/reviews.csv" None ∅ []) FileNotFoundError)
    as (s' & Hrun & Hdf & _ & Hlast).
  - reflexivity.
  - exists s'. split; [exact Hrun|]. split; [exact Hdf|exact Hlast].
Defined.

Lemma clean_review_text_empty_witness :
  clean_review_text (VStr [32%N; 9%N; 32%N]) = [].
Proof.
  apply clean_review_text_empty. right. unfold blank. simpl. by repeat constructor.
Defined.

Lemma methods_keep_paths_and_output_witness :
  input_path (clean_text (Sample.fresh Sample.raw)).2 = "in.csv" ∧
  output_path (clean_text (Sample.fresh Sample.raw)).2 = "out/reviews.csv".
Proof.
  destruct (proj1 (proj2 (methods_keep_paths_and_output
                            (Sample.read_csv "in.csv" Sample.raw) Sample.to_csv
                            Sample.to_datetime Sample.series_min Sample.series_max
                            Sample.describe))
              clean_text) with (s := Sample.fresh Sample.raw)
              (o := (clean_text (Sample.fresh Sample.raw)).1)
              (s' := (clean_text (Sample.fresh Sample.raw)).2)
    as (Hip & Hop & _).
  - unfold stages. in_list.
  - vm_compute. reflexivity.
  - split; [exact Hip|exact Hop].
Defined.

Lemma process_result_witness :
  ∃ d, df (Sample.run_process Sample.raw).2 = Some d ∧
       Sample.to_csv "out/reviews.csv" d = Return tt.
Proof.
  destruct (proj1 (process_result (Sample.read_csv "in.csv" Sample.raw) Sample.to_csv
              Sample.to_datetime Sample.series_min Sample.series_max Sample.describe
              (mkRP "in.csv" "out/reviews.csv" None ∅ []) true
              (Sample.run_process Sample.raw).2 sample_process_returns) eq_refl)
    as (d0 & d & _ & Hdf & Hw & _).
  exists d. split; [exact Hdf|exact Hw].
Defined.

Lemma process_missing_critical_column_witness :
  ∃ s',
    process (Sample.read_csv "in.csv" no_rating) Sample.to_csv Sample.to_datetime
      Sample.series_min Sample.series_max Sample.describe
      (mkRP "in.csv" "out/reviews.csv" None ∅ [])
    = (Raise (KeyError ["rating"]), s') ∧ df s' = Some no_rating.
Proof.
  destruct (process_missing_critical_column (Sample.read_csv "in.csv" no_rating)
              Sample.to_csv Sample.to_datetime Sample.series_min Sample.series_max
              Sample.describe (mkRP "in.csv" "out/reviews.csv" None ∅ []) no_rating)
    as (s' & Hrun & _ & Hdf & _).
  - reflexivity.
  - by_compute.
  - exists s'. split; [|exact Hdf]. rewrite Hrun. vm_compute. reflexivity.
Defined.

(** ** The entry point *)

Section Entry.

Variable DATA_PATHS : gmap string string.
Variable read_csv : string → outcome DataFrame.
Variable to_csv : string → DataFrame → outcome unit.
Variable to_datetime : list cell → outcome (list cell).
Variable series_min series_max : list cell → outcome cell.
Variable describe : DataFrame → outcome (list line).

(** X24. The constructor: an empty path counts as no path
    ([x or default]); two non-empty paths are taken as they are, without
    looking at [DATA_PATHS]; without an input path and without
    [raw_reviews] in [DATA_PATHS] it raises [KeyError]; and a preprocessor
    that was constructed has no table, no statistics and has printed
    nothing. *)
Theorem init_paths :
  (∀ o, init DATA_PATHS (Some "") o = init DATA_PATHS None o) ∧
  (∀ i, init DATA_PATHS i (Some "") = init DATA_PATHS i None) ∧
  (∀ i o, i ≠ "" → o ≠ "" →
     init DATA_PATHS (Some i) (Some o) = Return (mkRP i o None ∅ [])) ∧
  (∀ o, DATA_PATHS !! "raw_reviews" = None →
     init DATA_PATHS None o = Raise (KeyError ["raw_reviews"])) ∧
  (∀ i o s, init DATA_PATHS i o = Return s →
     df s = None ∧ stats s = ∅ ∧ stdout s = []).
Proof.
  split_and!.
  - done.
  - done.
  - intros i o Hi Ho. unfold init, or_else. by rewrite !decide_False.
  - intros o Hraw. unfold init, or_else, data_path. by rewrite Hraw.
  - intros i o s. unfold init.
    destruct (or_else i _); [|done]. destruct (or_else o _); [|done].
    by intros [= <-].
Qed.

Local Abbreviation entry :=
  (main DATA_PATHS read_csv to_csv to_datetime series_min series_max describe).

(** X25. [main] returns a table only if both default paths are
    configured, the input was read and this table was written to the
    configured output path, and its last line then reports success; it
    returns [None] only if reading or writing raised, and its last line then
    reports failure; it raises either [KeyError] before printing anything,
    when a default path is not configured, or after the input was read. *)
Theorem main_result o out :
  entry = (o, out) →
  match o with
  | Return (Some d) =>
      ∃ ip op d0,
        DATA_PATHS !! "raw_reviews" = Some ip ∧
        DATA_PATHS !! "processed_reviews" = Some op ∧
        read_csv ip = Return d0 ∧ to_csv op d = Return tt ∧
        last out = Some (Line "Preprocessing completed successfully!" [])
  | Return None =>
      ∃ ip op,
        DATA_PATHS !! "raw_reviews" = Some ip ∧
        DATA_PATHS !! "processed_reviews" = Some op ∧
        ((∃ e, read_csv ip = Raise e) ∨ (∃ d e, to_csv op d = Raise e)) ∧
        last out = Some (Line "Preprocessing failed!" [])
  | Raise e =>
      (DATA_PATHS !! "raw_reviews" = None ∧ e = KeyError ["raw_reviews"] ∧ out = []) ∨
      (DATA_PATHS !! "processed_reviews" = None ∧ e = KeyError ["processed_reviews"] ∧
       out = []) ∨
      (∃ ip d0, DATA_PATHS !! "raw_reviews" = Some ip ∧ read_csv ip = Return d0)
  end.
Proof.
  unfold main, init, or_else, data_path.
  destruct (DATA_PATHS !! "raw_reviews") as [ip|] eqn:Hraw.
  2:{ intros [= <- <-]. left. done. }
  destruct (DATA_PATHS !! "processed_reviews") as [op|] eqn:Hout.
  2:{ intros [= <- <-]. right. left. done. }
  destruct (process _ _ _ _ _ _ _) as [[b|e] p] eqn:Hrun.
  - apply process_outcome in Hrun. cbn [input_path output_path df stats] in Hrun.
    destruct b.
    + destruct Hrun as (d0 & d & Hr & Hdf & Hw & _). rewrite Hdf.
      intros [= <- <-]. exists ip, op, d0. split_and!; try done. apply last_snoc.
    + intros [= <- <-]. exists ip, op. split_and!; try done; [|apply last_snoc].
      destruct Hrun as [(e & Hr & _)|(d0 & d & e & _ & _ & Hw)]; [left|right]; eauto.
  - intros [= <- <-]. right. right.
    destruct (read_csv ip) as [d0|e'] eqn:Hr; [by exists ip, d0|].
    revert Hrun. rewrite (run_eta (process _ _ _ _ _ _)). unfold process. exec.
    unfold bind at 1. rewrite load_data_failed with (e := e') by done. cbn [negb].
    exec. done.
Qed.

End Entry.

Lemma init_paths_witness :
  init ∅ (Some "in.csv") (Some "out/reviews.csv") = Return (mkRP "in.csv" "out/reviews.csv" None ∅ []) ∧
  init ∅ None (Some "out/reviews.csv") = Raise (KeyError ["raw_reviews"]).
Proof.
  split.
  - apply (proj1 (proj2 (proj2 (init_paths ∅)))); by_compute.
  - apply (proj1 (proj2 (proj2 (proj2 (init_paths ∅))))). reflexivity.
Defined.

Lemma main_result_witness :
  ∃ ip op d0,
    Sample.DATA_PATHS !! "raw_reviews" = Some ip ∧
    Sample.DATA_PATHS !! "processed_reviews" = Some op ∧
    Sample.read_csv "data/raw/reviews.csv" Sample.raw ip = Return d0 ∧
    Sample.to_csv op sample_output = Return tt ∧
    last sample_main.2 = Some (Line "Preprocessing completed successfully!" []).
Proof.
  apply (main_result Sample.DATA_PATHS (Sample.read_csv "data/raw/reviews.csv" Sample.raw)
           Sample.to_csv Sample.to_datetime Sample.series_min Sample.series_max
           Sample.describe (Return (Some sample_output)) sample_main.2).
  vm_compute. reflexivity.
Defined.

(** ** Cells that are not strings *)

Lemma digit_ascii n : n < 10 → (digit n < 128)%N.
Proof. unfold digit. lia. Qed.

Lemma digits_fuel_ascii fuel n acc :
  ascii_only acc → ascii_only (digits_fuel fuel n acc).
Proof.
  revert n acc. induction fuel as [|fuel IH]; intros n acc Hacc; simpl; [done|].
  destruct (n <? 10) eqn:Hn.
  - constructor; [|done]. apply digit_ascii. by apply Z.ltb_lt.
  - apply IH. constructor; [|done]. apply digit_ascii.
    apply Z.mod_pos_bound. lia.
Qed.

Lemma str_int_ascii z : ascii_only (str_int z).
Proof.
  unfold str_int, str_nat. destruct (z <? 0).
  - constructor; [done|]. apply digits_fuel_ascii. constructor.
  - apply digits_fuel_ascii. constructor.
Qed.

Lemma ascii_only_app s t : ascii_only s → ascii_only t → ascii_only (s ++ t).
Proof. intros Hs Ht. apply Forall_app. by split. Qed.

Lemma ascii_only_cons c s : (c < 128)%N → ascii_only s → ascii_only (c :: s).
Proof. by constructor. Qed.

Lemma pad_ascii w z : ascii_only (pad w z).
Proof.
  unfold pad. apply ascii_only_app; [|apply str_int_ascii].
  apply Forall_replicate. done.
Qed.

Lemma str_date_ascii d : ascii_only (str_date d).
Proof.
  unfold str_date.
  repeat first [apply pad_ascii | apply ascii_only_app | apply ascii_only_cons; [done|]].
Qed.

Lemma str_ascii c : (∀ t, c ≠ VStr t) → ascii_only (str c).
Proof.
  intros Hc. destruct c as [|z|t|d ns|d]; simpl.
  - change (ascii_only [110; 97; 110]%N).
    repeat (apply ascii_only_cons; [done|]). constructor.
  - apply str_int_ascii.
  - by destruct (Hc t).
  - apply ascii_only_app; [apply str_date_ascii|]. apply ascii_only_cons; [done|].
    unfold str_time.
    repeat first [apply pad_ascii | apply ascii_only_app | apply ascii_only_cons; [done|]
                 | case_match | constructor].
  - apply str_date_ascii.
Qed.

(** X26. [contains_amharic] is false of every cell that is not a string:
    [str] of a null, a number, a date or a timestamp has ASCII characters
    only. *)
Theorem contains_amharic_non_string c :
  (∀ t, c ≠ VStr t) → contains_amharic c = false.
Proof.
  intros Hc%str_ascii. unfold contains_amharic.
  induction Hc as [|x l Hx _ IH]; [done|]. simpl. rewrite IH, orb_false_r.
  unfold amharic_char. apply andb_false_iff. left. apply N.leb_gt. lia.
Qed.

Lemma contains_amharic_non_string_witness :
  contains_amharic VNull = false ∧ contains_amharic (VInt 4700) = false.
Proof.
  split; apply contains_amharic_non_string; intros t; discriminate.
Defined.

Lemma clean_review_text_keeps_letters_witness :
  letters (clean_review_text (VStr (lit " Good   app ")))
  = letters (str (VStr (lit " Good   app "))) ∧
  (length (clean_review_text (VStr (lit " Good   app ")))
   ≤ length (str (VStr (lit " Good   app "))))%nat.
Proof. apply clean_review_text_keeps_letters. reflexivity. Defined.

Lemma contains_amharic_after_cleaning_witness :
  contains_amharic (VStr (clean_review_text (VStr [32%N; 4656%N; 32%N; 32%N; 4643%N])))
  = contains_amharic (VStr [32%N; 4656%N; 32%N; 32%N; 4643%N]).
Proof. apply contains_amharic_after_cleaning. reflexivity. Defined.

(** ** The final projection and sort, twice *)

Lemma filter_in_ext {A} (P Q : A → Prop) `{∀ x, Decision (P x)} `{∀ x, Decision (Q x)}
    (l : list A) :
  (∀ x, x ∈ l → (P x ↔ Q x)) → filter P l = filter Q l.
Proof.
  induction l as [|x l IH]; intros Hiff; [done|].
  rewrite (filter_cons P x), (filter_cons Q x), IH.
  - destruct (decide (P x)) as [Hp|Hp], (decide (Q x)) as [Hq|Hq]; try done;
      exfalso; apply (Hiff x) in Hp || apply (Hiff x) in Hq; try done; by left.
  - intros y Hy. apply Hiff. by right.
Qed.

Lemma final_columns_same d d' :
  columns d' = final_columns d → final_columns d' = final_columns d.
Proof.
  intros Hc. unfold final_columns at 1. rewrite Hc. unfold final_columns at 2.
  apply filter_in_ext. intros c Hc'. rewrite final_columns_elem. tauto.
Qed.

Lemma project_row_idemp labels (r : row) :
  project_row labels (project_row labels r) = project_row labels r.
Proof.
  apply map_eq. intros c. rewrite !project_row_lookup. by case_decide.
Qed.

Lemma stable_sort_sorted keys l :
  in_order keys l → stable_sort (row_compare keys) l = l.
Proof.
  induction l as [|r l IH]; [done|]. intros [Hr Hl]%in_order_cons.
  simpl. rewrite IH by done. destruct l as [|x l]; [done|]. simpl.
  apply Forall_cons in Hr as [Hx _]. by destruct (row_compare keys r x).
Qed.

Lemma same_kind_spec col :
  same_kind col = true ↔
  ∀ a b, a ∈ col → b ∈ col → a ≠ VNull → b ≠ VNull → kind a = kind b.
Proof.
  unfold same_kind. destruct (filter (λ c, c ≠ VNull) col) as [|c cs] eqn:Hf.
  - split; [|done]. intros _ a b Ha _ Hna _. exfalso.
    assert (Hin : a ∈ filter (λ c, c ≠ VNull) col)
      by (by apply (list_elem_of_filter (λ c : cell, c ≠ VNull))).

    rewrite Hf in Hin. by apply elem_of_nil in Hin.
  - assert (Hmem : ∀ x, x ∈ c :: cs ↔ x ≠ VNull ∧ x ∈ col).
    { intros x. rewrite <- Hf. apply (list_elem_of_filter (λ c : cell, c ≠ VNull)). }
    rewrite forallb_forall. split.
    + intros Hall a b Ha Hb Hna Hnb.
      assert (Hk : ∀ x, x ∈ c :: cs → kind x = kind c).
      { intros x [->|Hx]%elem_of_cons; [done|].
        apply Z.eqb_eq, Hall. by apply list_elem_of_In. }
      rewrite (Hk a), (Hk b); [done|by apply Hmem|by apply Hmem].
    + intros Hall x Hx%list_elem_of_In. apply Z.eqb_eq.
      assert (Hc : c ∈ c :: cs) by left.
      assert (Hx' : x ∈ c :: cs) by (by right).
      apply Hmem in Hc as [? ?], Hx' as [? ?]. by apply Hall.
Qed.

Lemma same_kind_perm col col' : col ≡ₚ col' → same_kind col = same_kind col'.
Proof.
  intros Hp.
  assert (H : same_kind col = true ↔ same_kind col' = true).
  { rewrite !same_kind_spec. by setoid_rewrite Hp. }
  destruct (same_kind col), (same_kind col'); try done.
  - symmetry. by apply H.
  - by apply H.
Qed.

Lemma check_keys_perm keys d d' :
  columns d' = columns d → rows d' ≡ₚ rows d →
  check_keys keys d' = check_keys keys d.
Proof.
  intros Hc Hp. induction keys as [|[c asc] keys IH]; simpl; [done|].
  unfold getitem. rewrite Hc, IH. destruct (decide (c ∈ columns d)); [|done].
  by rewrite (same_kind_perm (at_ c <$> rows d') (at_ c <$> rows d))
    by (by apply fmap_Permutation).
Qed.

Lemma sort_values_eq keys d d' :
  sort_values keys d = Return d' →
  check_keys keys d = Return tt ∧
  d' = mkDF (columns d) (stable_sort (row_compare keys) (rows d)).
Proof.
  unfold sort_values. destruct (check_keys keys d) as [[]|]; [|done].
  by intros [= <-].
Qed.

(** X27. [prepare_final_output] is idempotent: run again on the table it
    returned, it returns with the same table and the same statistics (the
    projection keeps the columns it produced and the stable sort keeps a
    sorted table). *)
Theorem prepare_final_output_twice s s1 d :
  df s = Some d → prepare_final_output s = (Return tt, s1) →
  ∃ s2, prepare_final_output s1 = (Return tt, s2) ∧
        df s2 = df s1 ∧ stats s2 = stats s1.
Proof.
  intros Hd [_ H]%prepare_final_output_spec. rewrite Hd in H.
  destruct (sort_values sort_keys (projected d)) as [d1|] eqn:Hsort;
    [|by destruct H].
  destruct H as [_ Hd1].
  destruct (prepare_final_output s1) as [o s2] eqn:Hrun. exists s2.
  apply prepare_final_output_spec in Hrun as [Hst H2]. rewrite Hd1 in H2.
  apply sort_values_eq in Hsort as [Hck Heq].
  set (d1' := mkDF _ _) in Heq. subst d1. rename d1' into d1.
  assert (Hrows : project_row (final_columns d) <$> rows d1 = rows d1).
  { apply list_eq. intros i. rewrite list_lookup_fmap.
    destruct (rows d1 !! i) as [r|] eqn:Hr; [|done].
    assert (Hin : r ∈ rows (projected d)).
    { apply list_elem_of_lookup_2 in Hr. unfold d1 in Hr. cbn [rows] in Hr.
      by rewrite stable_sort_perm in Hr. }
    unfold projected in Hin. cbn [rows] in Hin.
    apply list_elem_of_fmap in Hin as (r0 & -> & _).
    cbn. by rewrite project_row_idemp. }
  assert (Hproj : projected d1 = d1).
  { unfold projected. rewrite (final_columns_same d d1) by done. by rewrite Hrows. }
  rewrite Hproj in H2.
  assert (Hsorted : sort_values sort_keys d1 = Return d1).
  { unfold sort_values.
    rewrite (check_keys_perm sort_keys (projected d) d1), Hck.
    - unfold d1 at 3. f_equal. f_equal. apply stable_sort_sorted.
      apply stable_sort_in_order.
    - done.
    - apply (stable_sort_perm sort_keys). }
  rewrite Hsorted in H2. destruct H2 as [-> ->]. done.
Qed.

Lemma prepare_final_output_twice_witness :
  ∃ s2,
    prepare_final_output (prepare_final_output (Sample.fresh Sample.raw)).2
    = (Return tt, s2) ∧
    df s2 = df (prepare_final_output (Sample.fresh Sample.raw)).2.
Proof.
  destruct (prepare_final_output_twice (Sample.fresh Sample.raw)
              (prepare_final_output (Sample.fresh Sample.raw)).2 Sample.raw)
    as (s2 & Hrun & Hdf & _).
  - reflexivity.
  - vm_compute. reflexivity.
  - exists s2. split; [exact Hrun|exact Hdf].
Defined.
